(** * Effect-size pipeline: a shallow embedding of the statistical core

    The development embeds the deterministic core of the meta-analysis
    pipeline and proves properties of it:

    - [utils/effect_size_calculator.py]   (module [Calc])
    - [analysis/Python/report_generator.py], [random_effects_meta]
                                          (module [Report])
    - [figure_generation/generate_funnel_plots.py], [random_effects_meta]
      and [trim_and_fill]                 (module [Funnel])
    - [phase4_consensus.py], [_synthesize_effect_sizes]
                                          (module [Consensus])
    - [phase6_qa_final.py], the six gates and [run_all_gates]
                                          (module [QA])
    - [figure_generation/generate_forest_plots.py], [random_effects_meta]
                                          (module [Forest])
    - [analysis/Python/report_generator.py], [subgroup_analysis]
                                          (module [Subgroups])
    - [phase4_consensus.py], [_analyze_agreement] and
      [_synthesize_agent_characteristics] (module [Vote])
    - [utils/cost_tracker.py]             (module [Cost])

    Numbers.  A Python [float] is modelled by a real number: rounding
    error and overflow are not modelled.  Where the source can produce an
    IEEE infinity or NaN from finite inputs (numpy division by zero, the
    square root of a negative number) the calculator carries them
    explicitly ([xfloat]); zero is unsigned.  The array code takes lists
    of reals.  The consensus builder and the quality gates only add,
    divide by a count, compare and round, so their numbers are rationals
    and the definitions compute. *)

From Stdlib Require Import Reals Lra Lia ZArith QArith Qround Qabs String List Bool.
From Stdlib Require Import Sorted Permutation.
From stdpp Require Import base gmap strings.

Import ListNotations.

(** * Python exceptions and the error monad *)

Inductive exn :=
| KeyError (k : string)
| TypeError
| ValueError
| ZeroDivisionError.

Inductive M (A : Type) : Type :=
| Ret (a : A)
| Raise (e : exn).
Arguments Ret {A} a.
Arguments Raise {A} e.

Definition bind {A B : Type} (c : M A) (k : A -> M B) : M B :=
  match c with
  | Ret a => k a
  | Raise e => Raise e
  end.

Notation "x <- c ;; k" := (bind c (fun x => k))
  (at level 100, c at next level, right associativity).

(** * Floating-point values *)

Local Open Scope R_scope.

(** A float64 value: a real, or one of the IEEE special values. *)
Inductive xfloat := Fin (r : R) | PInf | NInf | NaN.

(** The infinity with the sign of [r]; NaN for zero (0/0, 0*inf). *)
Definition inf_of_sign (r : R) : xfloat :=
  if Rlt_dec 0 r then PInf else if Rlt_dec r 0 then NInf else NaN.

Definition xneg (a : xfloat) : xfloat :=
  match a with
  | Fin r => Fin (- r)
  | PInf => NInf
  | NInf => PInf
  | NaN => NaN
  end.

Definition xadd (a b : xfloat) : xfloat :=
  match a, b with
  | NaN, _ | _, NaN => NaN
  | Fin x, Fin y => Fin (x + y)
  | PInf, NInf | NInf, PInf => NaN
  | PInf, _ | _, PInf => PInf
  | NInf, _ | _, NInf => NInf
  end.

Definition xsub (a b : xfloat) : xfloat := xadd a (xneg b).

Definition xmul (a b : xfloat) : xfloat :=
  match a, b with
  | NaN, _ | _, NaN => NaN
  | Fin x, Fin y => Fin (x * y)
  | Fin x, PInf | PInf, Fin x => inf_of_sign x
  | Fin x, NInf | NInf, Fin x => inf_of_sign (- x)
  | PInf, PInf | NInf, NInf => PInf
  | PInf, NInf | NInf, PInf => NInf
  end.

(** numpy division: a zero divisor gives an infinity or NaN, no exception *)
Definition xdiv (a b : xfloat) : xfloat :=
  match a, b with
  | NaN, _ | _, NaN => NaN
  | Fin x, Fin y => if Req_dec_T y 0 then inf_of_sign x else Fin (x / y)
  | Fin _, (PInf | NInf) => Fin 0
  | PInf, Fin y => if Rlt_dec y 0 then NInf else PInf
  | NInf, Fin y => if Rlt_dec y 0 then PInf else NInf
  | (PInf | NInf), (PInf | NInf) => NaN
  end.

Definition xsqrt (a : xfloat) : xfloat :=
  match a with
  | Fin r => if Rlt_dec r 0 then NaN else Fin (sqrt r)
  | PInf => PInf
  | NInf | NaN => NaN
  end.

Definition xabs (a : xfloat) : xfloat :=
  match a with
  | Fin r => Fin (Rabs r)
  | PInf | NInf => PInf
  | NaN => NaN
  end.

(** [a < b]; every comparison with NaN is false *)
Definition xlt (a b : xfloat) : bool :=
  match a, b with
  | NaN, _ | _, NaN => false
  | Fin x, Fin y => if Rlt_dec x y then true else false
  | Fin _, PInf => true
  | Fin _, NInf => false
  | PInf, _ => false
  | NInf, NInf => false
  | NInf, _ => true
  end.

(** [max(0.0, a)]: Python's [max] keeps its first argument unless a later
    one is greater, so NaN gives [0.0]. *)
Definition xmax0 (a : xfloat) : xfloat :=
  if xlt (Fin 0) a then a else Fin 0.

(** [np.exp(a)] *)
Definition xexp (a : xfloat) : xfloat :=
  match a with
  | Fin r => Fin (exp r)
  | PInf => PInf
  | NInf => Fin 0
  | NaN => NaN
  end.

(** [a / b] on Python floats: a zero divisor raises. *)
Definition pydiv (a b : xfloat) : M xfloat :=
  match b with
  | Fin y => if Req_dec_T y 0 then Raise ZeroDivisionError else Ret (xdiv a b)
  | _ => Ret (xdiv a b)
  end.

(** Rounding to the nearest integer, ties to even. *)
Definition round_half_even (y : R) : Z :=
  let f := Zfloor y in
  let r := y - IZR f in
  if Rlt_dec r (1 / 2) then f
  else if Rlt_dec (1 / 2) r then (f + 1)%Z
  else if Z.even f then f else (f + 1)%Z.

(** [round(x, nd)] *)
Definition py_round (nd : nat) (x : R) : R :=
  IZR (round_half_even (x * 10 ^ nd)) / 10 ^ nd.

Definition xround (nd : nat) (a : xfloat) : xfloat :=
  match a with
  | Fin r => Fin (py_round nd r)
  | _ => a
  end.

(** numpy arrays of floats, with the element-wise operations and
    reductions the pooling code uses.  The embedding covers operands of
    equal length, which is what every caller passes (two columns of one
    table); numpy's broadcasting of arrays of different shapes is not
    modelled. *)
Definition array := list xfloat.

Definition arr_mul (a b : array) : array := zip_with xmul a b.
Definition arr_sq (a : array) : array := map (fun x => xmul x x) a.
Definition arr_recip (a : array) : array := map (xdiv (Fin 1)) a.
Definition arr_adds (a : array) (c : xfloat) : array := map (fun x => xadd x c) a.
Definition arr_subs (a : array) (c : xfloat) : array := map (fun x => xsub x c) a.
Definition arr_rsubs (c : xfloat) (a : array) : array := map (fun x => xsub c x) a.

(** [np.sum(a)] *)
Definition np_sum (a : array) : xfloat := fold_right xadd (Fin 0) a.

(** [len(a)], as a float operand *)
Definition flen (a : array) : xfloat := Fin (INR (length a)).

(** * Random-effects pooling of the report generator *)

Module Report.

(** The dictionary of a successful run. *)
Record meta := {
  k : nat;
  g_pooled : xfloat;
  se_pooled : xfloat;
  ci_lower : xfloat;
  ci_upper : xfloat;
  p_pooled : option xfloat;
  Q : xfloat;
  df_Q : Z;
  p_Q : xfloat;
  I2 : xfloat;
  tau2 : xfloat;
  tau : xfloat;
  pi_lower : xfloat;
  pi_upper : xfloat
}.

(** [{'error': 'No data'}] or the result dictionary. *)
Inductive meta_dict :=
| NoData
| Pooled (m : meta).

Section RandomEffects.

(** [scipy.stats], when it can be imported: [chi2.sf] and [norm.sf].
    Both are outside the repository and taken as parameters. *)
Variable scipy_stats : option ((xfloat -> Z -> xfloat) * (xfloat -> xfloat)).

(** [random_effects_meta(g, se)] *)
Definition random_effects_meta (g se : array) : M meta_dict :=
  let k := length g in
  match k with
  | O => Ret NoData
  | S _ =>
    let km1 := Fin (INR k - 1) in
    let var := arr_sq se in
    let w_fixed := arr_recip var in
    let g_fixed := xdiv (np_sum (arr_mul w_fixed g)) (np_sum w_fixed) in
    let Q := np_sum (arr_mul w_fixed (arr_sq (arr_subs g g_fixed))) in
    let c := xsub (np_sum w_fixed)
                  (xdiv (np_sum (arr_sq w_fixed)) (np_sum w_fixed)) in
    t <- pydiv (xsub Q km1) c ;;
    let tau2 := xmax0 t in
    let w_re := arr_recip (arr_adds var tau2) in
    let g_pooled := xdiv (np_sum (arr_mul w_re g)) (np_sum w_re) in
    let se_pooled := xsqrt (xdiv (Fin 1) (np_sum w_re)) in
    I2 <- (if xlt (Fin 0) Q
           then i <- pydiv (xsub Q km1) Q ;; Ret (xmax0 (xmul i (Fin 100)))
           else Ret (Fin 0)) ;;
    ps <- match scipy_stats with
          | Some (chi2_sf, norm_sf) =>
              let p_Q := chi2_sf Q (Z.of_nat k - 1)%Z in
              z <- pydiv g_pooled se_pooled ;;
              Ret (p_Q, Some (xmul (Fin 2) (norm_sf (xabs z))))
          | None =>
              Ret (xexp (xmul (Fin (- 0.5)) (xmax0 (xsub Q km1))), None)
          end ;;
    let half_width := xmul (Fin 1.96) se_pooled in
    let pi_width :=
      xmul (Fin 1.96) (xsqrt (xadd (xmul se_pooled se_pooled) tau2)) in
    Ret (Pooled
      {| k := k;
         g_pooled := xround 4 g_pooled;
         se_pooled := xround 4 se_pooled;
         ci_lower := xround 4 (xsub g_pooled half_width);
         ci_upper := xround 4 (xadd g_pooled half_width);
         p_pooled := option_map (xround 4) (snd ps);
         Q := xround 3 Q;
         df_Q := (Z.of_nat k - 1)%Z;
         p_Q := xround 4 (fst ps);
         I2 := xround 1 I2;
         tau2 := xround 4 tau2;
         tau := xround 4 (xsqrt tau2);
         pi_lower := xround 3 (xsub g_pooled pi_width);
         pi_upper := xround 3 (xadd g_pooled pi_width) |})
  end.

End RandomEffects.

End Report.

(** * Funnel-plot statistics: pooling and trim-and-fill *)

Module Funnel.

(** The result dictionary of this module's [random_effects_meta]. *)
Record pooled := {
  pooled_g : xfloat;
  se_pooled : xfloat;
  ci_lower : xfloat;
  ci_upper : xfloat;
  Q : xfloat;
  df : Z;
  I2 : xfloat;
  tau2 : xfloat;
  k : nat
}.

(** [random_effects_meta(g, se)]; [None] is the empty dictionary.  Every
    value here is a [numpy.float64], so no division raises. *)
Definition random_effects_meta (g se : array) : option pooled :=
  let k := length g in
  match k with
  | O => None
  | S _ =>
    let km1 := Fin (INR k - 1) in
    let var := arr_sq se in
    let w_fixed := arr_recip var in
    let g_fixed := xdiv (np_sum (arr_mul w_fixed g)) (np_sum w_fixed) in
    let Q := np_sum (arr_mul w_fixed (arr_sq (arr_subs g g_fixed))) in
    let c := xsub (np_sum w_fixed)
                  (xdiv (np_sum (arr_sq w_fixed)) (np_sum w_fixed)) in
    let tau2 := xmax0 (xdiv (xsub Q km1) c) in
    let w_re := arr_recip (arr_adds var tau2) in
    let g_pooled := xdiv (np_sum (arr_mul w_re g)) (np_sum w_re) in
    let se_pooled := xsqrt (xdiv (Fin 1) (np_sum w_re)) in
    let I2 := if xlt (Fin 0) Q
              then xmax0 (xmul (xdiv (xsub Q km1) Q) (Fin 100))
              else Fin 0 in
    Some {| pooled_g := g_pooled;
            se_pooled := se_pooled;
            ci_lower := xsub g_pooled (xmul (Fin 1.96) se_pooled);
            ci_upper := xadd g_pooled (xmul (Fin 1.96) se_pooled);
            Q := Q; df := (Z.of_nat k - 1)%Z; I2 := I2; tau2 := tau2;
            k := k |}
  end.

(** The order numpy sorts floats in: ascending, NaN last. *)
Definition xleb (a b : xfloat) : bool :=
  match a, b with
  | _, NaN => true
  | NaN, _ => false
  | _, _ => negb (xlt b a)
  end.

(** Insertion behind the elements that are not greater, so that the sort
    is stable; numpy's default sort is an insertion sort on arrays this
    small, and the order among equal keys is otherwise unspecified. *)
Fixpoint insert_by (x : nat * xfloat) (l : list (nat * xfloat))
  : list (nat * xfloat) :=
  match l with
  | [] => [x]
  | y :: l' =>
      if xleb (snd y) (snd x) then y :: insert_by x l' else x :: y :: l'
  end.

Definition sort_indexed (a : array) : list (nat * xfloat) :=
  fold_left (fun acc x => insert_by x acc) (zip (seq 0 (length a)) a) [].

(** [np.argsort(a)] and [np.sort(a)] *)
Definition argsort (a : array) : list nat := map fst (sort_indexed a).
Definition np_sort (a : array) : array := map snd (sort_indexed a).

(** [np.where(ranks == i)[0][0]] *)
Fixpoint position (i : nat) (ranks : list nat) : nat :=
  match ranks with
  | [] => O
  | j :: ranks' => if Nat.eqb j i then O else S (position i ranks')
  end.

(** [round(a / b)] for Python ints [a] and [b], [b] not zero: the float
    quotient rounded to the nearest integer, ties to even. *)
Definition round_div (a b : Z) : Z :=
  let a' := if (b <? 0)%Z then (- a)%Z else a in
  let b' := Z.abs b in
  let q := (a' / b')%Z in
  let r := (a' mod b')%Z in
  match (2 * r ?= b')%Z with
  | Lt => q
  | Gt => (q + 1)%Z
  | Eq => if Z.even q then q else (q + 1)%Z
  end.

(** [a[i]] for an index that [argsort] produced *)
Definition item (a : array) (i : nat) : xfloat := nth i a NaN.

Section TrimAndFill.

Variables (g se : array) (side : string).

(** [pooled.get('pooled_g', np.mean(g))] *)
Definition center : xfloat :=
  match random_effects_meta g se with
  | Some p => pooled_g p
  | None => xdiv (np_sum g) (flen g)
  end.

(** The loop over [range(n)] that accumulates [T_n]. *)
Definition T_n (deviations : array) (ranks : list nat) : Z :=
  fold_left
    (fun T i =>
       let rank := position i ranks in
       let d := item deviations i in
       if (String.eqb side "left" && xlt d (Fin 0))
          || (String.eqb side "right" && xlt (Fin 0) d)
       then (T + (Z.of_nat rank + 1))%Z else T)
    (seq 0 (length g)) 0%Z.

(** One pass of the loop body, from [# Pool current estimate] to the
    assignment of [k0]. *)
Definition estimate_k0 : Z :=
  let deviations := arr_subs g center in
  let ranks := if String.eqb side "left"
               then argsort deviations
               else argsort (map xneg deviations) in
  let n := Z.of_nat (length g) in
  Z.max 0 (round_div (4 * T_n deviations ranks - n * (n + 1)) (2 * n - 1)).

(** The [for iteration in range(max_iter)] loop on [(k0_prev, k0)]. *)
Fixpoint iterate (max_iter : nat) (k0_prev k0 : Z) : Z * Z :=
  match max_iter with
  | O => (k0_prev, k0)
  | S rest =>
      if (k0 =? k0_prev)%Z then (k0_prev, k0)
      else
        let k0_prev' := k0 in
        let k0' := estimate_k0 in
        if (k0' >=? Z.of_nat (length g))%Z
        then (k0_prev', Z.max 0 (Z.of_nat (length g) - 1))
        else iterate rest k0_prev' k0'
  end.

(** The arrays [imputed_g] and [imputed_se] of the [if k0 > 0] block. *)
Definition imputed_g (k0 : nat) : array :=
  let sorted_g := if String.eqb side "left"
                  then take k0 (rev (np_sort g))
                  else take k0 (np_sort g) in
  arr_rsubs (xmul (Fin 2) center) sorted_g.

Definition imputed_se (k0 : nat) : array :=
  take k0 (map (item se) (argsort (map xabs (arr_subs g center)))).

Record trim_fill := {
  k0_imputed : Z;
  adjusted_pooled_g : option xfloat;
  adjusted_ci_lower : option xfloat;
  adjusted_ci_upper : option xfloat;
  adjusted_se : option xfloat;
  converged : bool
}.

(** [trim_and_fill(g, se, side, max_iter)] *)
Definition trim_and_fill (max_iter : nat) : trim_fill :=
  let '(k0_prev, k0) := iterate max_iter (-1)%Z 0%Z in
  let adjusted :=
    if (0 <? k0)%Z
    then random_effects_meta (g ++ imputed_g (Z.to_nat k0))
                             (se ++ imputed_se (Z.to_nat k0))
    else random_effects_meta g se in
  {| k0_imputed := k0;
     adjusted_pooled_g := option_map pooled_g adjusted;
     adjusted_ci_lower := option_map ci_lower adjusted;
     adjusted_ci_upper := option_map ci_upper adjusted;
     adjusted_se := option_map se_pooled adjusted;
     converged := (k0 =? k0_prev)%Z |}.

End TrimAndFill.

End Funnel.

(** * Rational numbers of the consensus builder and the quality gates *)

(** Rounding to the nearest integer, ties to even. *)
Definition Qround_half_even (q : Q) : Z :=
  let f := Qfloor q in
  match Qcompare (q - inject_Z f) (1 # 2) with
  | Lt => f
  | Gt => (f + 1)%Z
  | Eq => if Z.even f then f else (f + 1)%Z
  end.

(** [round(q, nd)], in lowest terms *)
Definition Qpy_round (nd : nat) (q : Q) : Q :=
  Qred (inject_Z (Qround_half_even (q * inject_Z (10 ^ Z.of_nat nd)))
        / inject_Z (10 ^ Z.of_nat nd))%Q.

(** [sum(l)] and [sum(l) / len(l)] *)
Definition Qsum (l : list Q) : Q := fold_left Qplus l 0%Q.
Definition Qmean (l : list Q) : Q :=
  (Qsum l / inject_Z (Z.of_nat (length l)))%Q.

(** * Consensus synthesis of effect sizes *)

Module Consensus.

(** A key of a JSON object as [dict.get] sees it: absent, null, or
    holding a value. *)
Inductive jfield (A : Type) := Absent | Null | Value (a : A).
Arguments Absent {A}.
Arguments Null {A}.
Arguments Value {A} a.

(** [d.get(key)] and [d.get(key, default)]; the result [None] is Python's
    [None]. *)
Definition get {A : Type} (f : jfield A) : option A :=
  match f with
  | Value a => Some a
  | Absent | Null => None
  end.

Definition get_default {A : Type} (f : jfield A) (default : A) : option A :=
  match f with
  | Absent => Some default
  | Null => None
  | Value a => Some a
  end.

(** One element of a model's [verified_effect_sizes]: the four keys the
    builder reads.  Labels are strings and effect sizes are numbers. *)
Record effect_size := {
  es_outcome_label : jfield string;
  es_hedges_g : jfield Q;
  es_se_g : jfield Q;
  es_conversion_valid : jfield bool
}.

(** What one model returned: a dictionary with an ['error'] key, or a
    verification with its list of effect sizes (empty when the key is
    missing). *)
Inductive model_result :=
| Errored
| Verified (verified_effect_sizes : list effect_size).

(** [model_results], in insertion order. *)
Definition model_results := list (string * model_result).

(** An element of [label_effects[label]]. *)
Record entry := {
  model : string;
  hedges_g : option Q;
  se_g : option Q;
  valid : option bool
}.

(** A key of [label_effects]: a string, or [None] for a null label. *)
Definition label := option string.

Definition label_eqb (a b : label) : bool :=
  match a, b with
  | Some x, Some y => String.eqb x y
  | None, None => true
  | _, _ => false
  end.

(** [label_effects], a dict in insertion order. *)
Definition label_effects := list (label * list entry).

(** [if label not in d: d[label] = []] followed by [d[label].append(e)] *)
Fixpoint append_at (l : label) (e : entry) (d : label_effects)
  : label_effects :=
  match d with
  | [] => [(l, [e])]
  | (l0, es) :: d' =>
      if label_eqb l0 l then (l0, es ++ [e]) :: d'
      else (l0, es) :: append_at l e d'
  end.

(** [es.get('outcome_label', 'unknown')] *)
Definition label_of (es : effect_size) : label :=
  get_default (es_outcome_label es) "unknown"%string.

Definition entry_of (model_name : string) (es : effect_size) : entry :=
  {| model := model_name;
     hedges_g := get (es_hedges_g es);
     se_g := get (es_se_g es);
     valid := get_default (es_conversion_valid es) true |}.

(** The first loop: collect effect sizes by outcome label. *)
Definition collect_model (d : label_effects) (mr : string * model_result)
  : label_effects :=
  match snd mr with
  | Errored => d
  | Verified ess =>
      fold_left (fun d es => append_at (label_of es) (entry_of (fst mr) es) d)
                ess d
  end.

Definition collect (results : model_results) : label_effects :=
  fold_left collect_model results [].

(** A record of the returned list. *)
Record consensus := {
  outcome_label : label;
  hedges_g_consensus : Q;
  se_g_consensus : option Q;
  g_values_per_model : list Q;
  n_models_agree : nat;
  consensus_quality : string;
  flag : option string
}.

Definition has_g (v : entry) : bool :=
  match hedges_g v with
  | Some _ => true
  | None => false
  end.

(** The body of the second loop for one label; [None] is [continue]. *)
Definition consensus_of (label : label) (values : list entry)
  : option consensus :=
  let n_models := length values in
  let valid_values := filter (fun v => has_g v = true) values in
  match valid_values with
  | [] => None
  | _ :: _ =>
      let g_values := omap hedges_g valid_values in
      let se_values := omap se_g valid_values in
      let g_consensus := Qmean g_values in
      let se_consensus :=
        match se_values with
        | [] => None
        | _ :: _ => Some (Qmean se_values)
        end in
      let quality_flag :=
        if Nat.eqb n_models 3 then ("3/3_agree", None)
        else if Nat.eqb n_models 2 then ("2/3_agree", Some "majority_consensus")
        else ("1/3_only", Some "human_review_needed") in
      Some {| outcome_label := label;
              hedges_g_consensus := Qpy_round 4 g_consensus;
              se_g_consensus :=
                match se_consensus with
                | Some s => if Qeq_bool s 0 then None else Some (Qpy_round 4 s)
                | None => None
                end;
              g_values_per_model := g_values;
              n_models_agree := n_models;
              consensus_quality := fst quality_flag;
              flag := snd quality_flag |}
  end.

(** [_synthesize_effect_sizes(model_results)] *)
Definition _synthesize_effect_sizes (results : model_results)
  : list consensus :=
  omap (fun lv => consensus_of (fst lv) (snd lv)) (collect results).

End Consensus.

(** * The six quality gates *)

Module QA.

(** One row of the data frame [load_consensus_data] builds, with the
    columns the gates read.  [None] is a missing cell: NaN in a numeric
    column, [None] or NaN in a column of strings. *)
Record row := {
  study_id : string;
  outcome_label : string;
  hedges_g : option Q;
  se_g : option Q;
  design_type : option string;
  n_treatment : option Q;
  n_control : option Q;
  n_total : option Q;
  outcome_type : option string;
  oversight_level : option string;
  architecture : option string;
  agency_level : option string
}.

(** A data frame that has these columns, [hedges_g] with a numeric dtype.
    A frame built from no rows at all has no columns, and a [hedges_g]
    column that holds nothing but [None] has dtype object, on which gate 1
    cannot take absolute values: neither is covered here. *)
Definition frame := list row.

(** [config['quality_targets']]; [None] is a missing key. *)
Record quality_targets := {
  max_effect_size : option Q;
  min_sample_size : option Q
}.

Definition VALID_DESIGNS : list string :=
  ["randomized_controlled_trial"; "rct"; "quasi_experimental"; "pre_post";
   "pretest_posttest"].

Definition VALID_OUTCOME_TYPES : list string :=
  ["learning_outcome"; "achievement"; "performance"; "test_score";
   "knowledge"; "skill"; "competency"; "grade"].

(** ** Strings *)

(** [c.lower()] on ASCII letters *)
Definition lower_ascii (c : Ascii.ascii) : Ascii.ascii :=
  let n := Ascii.nat_of_ascii c in
  if Nat.leb 65 n && Nat.leb n 90 then Ascii.ascii_of_nat (n + 32) else c.

(** [s.lower()] *)
Fixpoint lower (s : string) : string :=
  match s with
  | EmptyString => EmptyString
  | String c s' => String (lower_ascii c) (lower s')
  end.

(** [sub in s] *)
Definition has_substring (sub s : string) : bool :=
  match String.index 0 sub s with
  | Some _ => true
  | None => false
  end.

Definition mem_string (s : string) (l : list string) : bool :=
  existsb (String.eqb s) l.

(** ** Columns *)

(** [df['study_id'].unique()]: the values in order of first appearance *)
Fixpoint unique (l : list string) : list string :=
  match l with
  | [] => []
  | x :: l' => x :: filter (fun y => y <> x) (unique l')
  end.

(** [df[df['study_id'] == sid]] *)
Definition rows_of (sid : string) (df : frame) : frame :=
  filter (fun r => study_id r = sid) df.

(** [df.drop_duplicates('study_id')]: the first row of every study *)
Definition drop_duplicates (df : frame) : frame :=
  omap (fun sid => head (rows_of sid df)) (unique (map study_id df)).

(** A summary statistic of a column: [None] (empty frame), NaN (no
    cell holds a number) or a number. *)
Inductive stat := SNone | SNaN | SNum (q : Q).

Definition Qminimum (l : list Q) : stat :=
  match l with
  | [] => SNaN
  | x :: l' => SNum (fold_left (fun a b => if Qle_bool b a then b else a) l' x)
  end.

Definition Qmaximum (l : list Q) : stat :=
  match l with
  | [] => SNaN
  | x :: l' => SNum (fold_left (fun a b => if Qle_bool a b then b else a) l' x)
  end.

Fixpoint Qinsert (x : Q) (l : list Q) : list Q :=
  match l with
  | [] => [x]
  | y :: l' => if Qle_bool x y then x :: y :: l' else y :: Qinsert x l'
  end.

Definition Qsort (l : list Q) : list Q := fold_right Qinsert [] l.

(** [Series.median()], NaN for no values *)
Definition Qmedian (l : list Q) : stat :=
  let s := Qsort l in
  let n := length s in
  match n with
  | O => SNaN
  | _ =>
      if Nat.even n
      then SNum ((nth (n / 2 - 1) s 0 + nth (n / 2) s 0) / 2)%Q
      else SNum (nth (n / 2) s 0%Q)
  end.

(** ** Gate 1: effect size range *)

Record flagged_entry := {
  fe_study_id : string;
  fe_outcome_label : string;
  fe_hedges_g : option Q
}.

Record gate1_details := {
  max_allowed : Q;
  n_out_of_range : nat;
  n_valid : nat;
  g_min : stat;
  g_max : stat;
  g_median : stat;
  flagged_entries : list flagged_entry
}.

Definition gate1 (qt : quality_targets) (df : frame) : bool * gate1_details :=
  let max_g := match max_effect_size qt with Some m => m | None => 5%Q end in
  let out_of_range :=
    filter (fun r => match hedges_g r with
                     | Some g => negb (Qle_bool (Qabs g) max_g)
                     | None => false
                     end = true) df in
  let gs := omap hedges_g df in
  let on_rows (s : stat) := match df with [] => SNone | _ => s end in
  (Nat.eqb (length out_of_range) 0,
   {| max_allowed := max_g;
      n_out_of_range := length out_of_range;
      n_valid := length gs;
      g_min := on_rows (Qminimum gs);
      g_max := on_rows (Qmaximum gs);
      g_median := on_rows (Qmedian gs);
      flagged_entries :=
        map (fun r => {| fe_study_id := study_id r;
                         fe_outcome_label := outcome_label r;
                         fe_hedges_g := hedges_g r |}) out_of_range |}).

(** ** Gate 2: sample size *)

(** The three messages of gate 2, with the values formatted into them. *)
Inductive size_issue :=
| n_total_below (n_total bound : Q)
| n_treatment_below (n_treatment bound : Q)
| n_control_below (n_control bound : Q).

Record gate2_details := {
  min_n_per_group : Q;
  n_studies_checked : nat;
  n_issues : nat;
  issues : list (string * size_issue)
}.

(** [str(design_type).lower()]: a missing design prints as ['none'] or
    ['nan'], neither of which holds ['pre'] or ['post']. *)
Definition design_text (r : row) : string :=
  match design_type r with
  | Some d => lower d
  | None => "none"
  end.

Definition is_prepost (r : row) : bool :=
  has_substring "pre" (design_text r) || has_substring "post" (design_text r).

(** [n < bound] *)
Definition Qltb (n bound : Q) : bool := negb (Qle_bool bound n).

(** The issues the loop body appends for the study's first row. *)
Definition study_issues (min_n : Q) (sid : string) (study_df : row)
  : list (string * size_issue) :=
  if is_prepost study_df then
    match n_total study_df with
    | Some n => if Qltb n (min_n * 2)
                then [(sid, n_total_below n (min_n * 2))] else []
    | None => []
    end
  else
    match n_treatment study_df with
    | Some n => if Qltb n min_n
                then [(sid, n_treatment_below n min_n)] else []
    | None => []
    end ++
    match n_control study_df with
    | Some n => if Qltb n min_n
                then [(sid, n_control_below n min_n)] else []
    | None => []
    end.

Definition gate2_issues (min_n : Q) (df : frame) : list (string * size_issue) :=
  flat_map (fun sid => match head (rows_of sid df) with
                       | Some study_df => study_issues min_n sid study_df
                       | None => []
                       end)
           (unique (map study_id df)).

Definition gate2 (qt : quality_targets) (df : frame) : bool * gate2_details :=
  let min_n := match min_sample_size qt with Some m => m | None => 10%Q end in
  let issues := gate2_issues min_n df in
  (Nat.eqb (length issues) 0,
   {| min_n_per_group := min_n;
      n_studies_checked := length (unique (map study_id df));
      n_issues := length issues;
      issues := issues |}).

(** ** Gates 3 and 4: vocabulary of a study-level column *)

Record vocabulary_details := {
  valid_values : list string;
  n_invalid : nat;
  n_missing : nat;
  invalid_studies : list (string * option string);
  missing_studies : list string
}.

Definition is_blank (v : option string) : bool :=
  match v with
  | None => true
  | Some s => String.eqb s ""
  end.

Definition vocabulary_gate (vocabulary : list string)
  (column : row -> option string) (df : frame) : bool * vocabulary_details :=
  let studies := drop_duplicates df in
  let invalid :=
    filter (fun r => match column r with
                     | Some s => negb (mem_string (lower s) vocabulary)
                                 && negb (String.eqb s "")
                     | None => false
                     end = true) studies in
  let missing := filter (fun r => is_blank (column r) = true) studies in
  (Nat.eqb (length invalid) 0 && Nat.eqb (length missing) 0,
   {| valid_values := vocabulary;
      n_invalid := length invalid;
      n_missing := length missing;
      invalid_studies := map (fun r => (study_id r, column r)) invalid;
      missing_studies := map study_id missing |}).

Definition gate3 (df : frame) := vocabulary_gate VALID_DESIGNS design_type df.
Definition gate4 (df : frame) := vocabulary_gate VALID_OUTCOME_TYPES outcome_type df.

(** ** Gate 5: completeness *)

Definition isna {A : Type} (v : option A) : bool :=
  match v with
  | Some _ => false
  | None => true
  end.

(** The required columns with their [isna] masks. *)
Definition required_fields : list (string * (row -> bool)) :=
  [("hedges_g", fun r => isna (hedges_g r));
   ("se_g", fun r => isna (se_g r));
   ("design_type", fun r => isna (design_type r));
   ("outcome_type", fun r => isna (outcome_type r));
   ("oversight_level", fun r => isna (oversight_level r));
   ("architecture", fun r => isna (architecture r));
   ("agency_level", fun r => isna (agency_level r))].

Record incomplete_field := {
  field : string;
  if_n_missing : nat;
  if_study_ids : list string
}.

Record gate5_details := {
  g5_required_fields : list string;
  n_incomplete_fields : nat;
  incomplete_fields : list incomplete_field;
  total_rows : nat
}.

Definition gate5 (df : frame) : bool * gate5_details :=
  let incomplete :=
    omap (fun fm : string * (row -> bool) =>
            let missing := filter (fun r => snd fm r = true) df in
            if Nat.ltb 0 (length missing)
            then Some {| field := fst fm;
                         if_n_missing := length missing;
                         if_study_ids := take 10 (unique (map study_id missing)) |}
            else None)
         required_fields in
  (Nat.eqb (length incomplete) 0,
   {| g5_required_fields := map fst required_fields;
      n_incomplete_fields := length incomplete;
      incomplete_fields := incomplete;
      total_rows := length df |}).

(** ** Gate 6: duplicates *)

Definition same_key (a b : row) : bool :=
  String.eqb (study_id a) (study_id b)
  && String.eqb (outcome_label a) (outcome_label b).

(** [df.duplicated(subset=[...], keep=False)] *)
Definition duplicated (df : frame) (r : row) : bool :=
  Nat.ltb 1 (length (filter (fun r' => same_key r r' = true) df)).

Definition key_leb (a b : string * string) : bool :=
  match String.compare (fst a) (fst b) with
  | Lt => true
  | Gt => false
  | Eq => String.leb (snd a) (snd b)
  end.

Fixpoint key_insert (x : string * string) (l : list (string * string)) :=
  match l with
  | [] => [x]
  | y :: l' => if key_leb x y then x :: y :: l' else y :: key_insert x l'
  end.

Fixpoint unique_keys (l : list (string * string)) : list (string * string) :=
  match l with
  | [] => []
  | x :: l' => x :: filter (fun y => y <> x) (unique_keys l')
  end.

Record duplicate_group := {
  dg_study_id : string;
  dg_outcome_label : string;
  count : nat
}.

Record gate6_details := {
  n_duplicate_rows : nat;
  n_duplicate_groups : nat;
  duplicates : list duplicate_group
}.

Definition gate6 (df : frame) : bool * gate6_details :=
  let dups := filter (fun r => duplicated df r = true) df in
  let keys :=
    fold_right key_insert []
      (unique_keys (map (fun r => (study_id r, outcome_label r)) dups)) in
  let dup_list :=
    map (fun key : string * string =>
           {| dg_study_id := fst key;
              dg_outcome_label := snd key;
              count := length (filter (fun r => study_id r = fst key /\
                                                outcome_label r = snd key) dups) |})
        keys in
  (Nat.eqb (length dups) 0,
   {| n_duplicate_rows := length dups;
      n_duplicate_groups := length dup_list;
      duplicates := dup_list |}).

(** ** The checker and its collaborators *)

Inductive details :=
| Details1 (d : gate1_details)
| Details2 (d : gate2_details)
| Details3 (d : vocabulary_details)
| Details4 (d : vocabulary_details)
| Details5 (d : gate5_details)
| Details6 (d : gate6_details).

(** A line of the audit log. *)
Record log_entry := {
  log_gate_name : string;
  log_passed : bool;
  log_details : details;
  log_timestamp : nat
}.

(** What a run of the checker can touch: the data frame it is handed by
    reference, the audit log file, and the clock. *)
Record world := {
  df : frame;
  audit_log : list log_entry;
  clock : nat
}.

Definition St (A : Type) : Type := world -> A * world.

Definition ret {A : Type} (a : A) : St A := fun w => (a, w).

Definition seq_st {A B : Type} (c : St A) (k : A -> St B) : St B :=
  fun w => k (fst (c w)) (snd (c w)).

(** [datetime.now()] *)
Definition now : St nat :=
  fun w => (clock w,
            {| df := df w; audit_log := audit_log w; clock := S (clock w) |}).

(** [audit_logger.log_quality_check(gate_name, passed, details)] *)
Definition log_quality_check (gate_name : string) (passed : bool)
  (d : details) : St unit :=
  seq_st now (fun t w =>
    (tt, {| df := df w;
            audit_log := audit_log w ++
              [{| log_gate_name := gate_name; log_passed := passed;
                  log_details := d; log_timestamp := t |}];
            clock := clock w |})).

(** A gate method: read the frame, check, log, return. *)
Definition gate_method {D : Type} (log_name : string) (wrap : D -> details)
  (check : frame -> bool * D) : St (bool * details) :=
  fun w =>
    let passed := fst (check (df w)) in
    let d := wrap (snd (check (df w))) in
    seq_st (log_quality_check log_name passed d)
           (fun _ => ret (passed, d)) w.

Section Checker.

Variable qt : quality_targets.

Definition gate1_effect_size_range := gate_method "Gate 1" Details1 (gate1 qt).
Definition gate2_sample_size := gate_method "Gate 2" Details2 (gate2 qt).
Definition gate3_design_validity := gate_method "Gate 3" Details3 gate3.
Definition gate4_outcome_type := gate_method "Gate 4" Details4 gate4.
Definition gate5_completeness := gate_method "Gate 5" Details5 gate5.
Definition gate6_no_duplicates := gate_method "Gate 6" Details6 gate6.

(** [self.gates] *)
Definition gates : list (string * St (bool * details)) :=
  [("Gate 1: Effect Size Range", gate1_effect_size_range);
   ("Gate 2: Sample Size Adequacy", gate2_sample_size);
   ("Gate 3: Design Validity", gate3_design_validity);
   ("Gate 4: Outcome Type Check", gate4_outcome_type);
   ("Gate 5: Completeness Check", gate5_completeness);
   ("Gate 6: Duplicate Check", gate6_no_duplicates)].

Record gate_result := {
  gate : string;
  passed : bool;
  gate_details : details
}.

Record dataset_summary := {
  n_studies : nat;
  n_effect_sizes : nat;
  n_valid_g : nat
}.

Record qa_report := {
  qa_timestamp : nat;
  all_gates_passed : bool;
  gate_results : list gate_result;
  summary : dataset_summary
}.

(** The loop over [self.gates], on [(gate_results, all_passed)]. *)
Fixpoint run_gates (gs : list (string * St (bool * details)))
  (gate_results : list gate_result) (all_passed : bool)
  : St (list gate_result * bool) :=
  match gs with
  | [] => ret (gate_results, all_passed)
  | (gate_name, gate_func) :: gs' =>
      seq_st gate_func (fun pd =>
        let gate_results' :=
          gate_results ++ [{| gate := gate_name; passed := fst pd;
                              gate_details := snd pd |}] in
        run_gates gs' gate_results' (if fst pd then all_passed else false))
  end.

(** [run_all_gates(df)].  The summary keeps the three counts; its mean,
    standard deviation and range of g are not modelled. *)
Definition run_all_gates : St qa_report :=
  seq_st (run_gates gates [] true) (fun res =>
  seq_st now (fun t w =>
    ({| qa_timestamp := t;
        all_gates_passed := snd res;
        gate_results := fst res;
        summary := {| n_studies := length (unique (map study_id (df w)));
                      n_effect_sizes := length (df w);
                      n_valid_g := length (omap hedges_g (df w)) |} |}, w))).

End Checker.

End QA.

(** * The effect-size calculator *)

Module Calc.

(** A number at run time: a Python [float], always finite here, or a
    [numpy.float64], produced by [np.sqrt] and contagious in arithmetic.
    The tag matters for division: Python raises on a zero divisor, numpy
    does not. *)
Inductive num := Py (r : R) | Np (x : xfloat).

Definition val (a : num) : xfloat :=
  match a with
  | Py r => Fin r
  | Np x => x
  end.

Definition num_add (a b : num) : num :=
  match a, b with
  | Py x, Py y => Py (x + y)
  | _, _ => Np (xadd (val a) (val b))
  end.

Definition num_sub (a b : num) : num :=
  match a, b with
  | Py x, Py y => Py (x - y)
  | _, _ => Np (xsub (val a) (val b))
  end.

Definition num_mul (a b : num) : num :=
  match a, b with
  | Py x, Py y => Py (x * y)
  | _, _ => Np (xmul (val a) (val b))
  end.

(** [a ** 2] *)
Definition num_pow2 (a : num) : num := num_mul a a.

(** [a / b] *)
Definition num_div (a b : num) : M num :=
  match a, b with
  | Py x, Py y =>
      if Req_dec_T y 0 then Raise ZeroDivisionError else Ret (Py (x / y))
  | _, _ => Ret (Np (xdiv (val a) (val b)))
  end.

(** [np.sqrt(a)] *)
Definition np_sqrt (a : num) : num := Np (xsqrt (val a)).

(** [abs(a)] *)
Definition num_abs (a : num) : num :=
  match a with
  | Py r => Py (Rabs r)
  | Np x => Np (xabs x)
  end.

Definition num_lt (a b : num) : bool := xlt (val a) (val b).

(** [a == 0] *)
Definition num_is_zero (a : num) : bool :=
  match val a with
  | Fin r => if Req_dec_T r 0 then true else false
  | _ => false
  end.

(** A Python [int] used as a float operand. *)
Definition of_int (z : Z) : num := Py (IZR z).

(** [a / b] on two Python ints *)
Definition int_truediv (a b : Z) : M R :=
  if Z.eq_dec b 0%Z then Raise ZeroDivisionError else Ret (IZR a / IZR b).

(** * The static conversion functions *)

(** [cohens_d_to_hedges_g(d, n1, n2)] *)
Definition cohens_d_to_hedges_g (d : num) (n1 n2 : Z) : M (num * num) :=
  let df := (n1 + n2 - 2)%Z in
  q <- int_truediv 3%Z (4 * df - 1)%Z ;;
  let j := 1 - q in
  let g := num_mul d (Py j) in
  let n_total := (n1 + n2)%Z in
  a <- int_truediv n_total (n1 * n2)%Z ;;
  b <- num_div (num_pow2 g) (of_int (2 * n_total)%Z) ;;
  let se_g := np_sqrt (num_add (Py a) b) in
  Ret (g, se_g).

(** [means_to_hedges_g(m1, m2, sd1, sd2, n1, n2)] *)
Definition means_to_hedges_g (m1 m2 sd1 sd2 : num) (n1 n2 : Z)
  : M (num * num) :=
  let df1 := (n1 - 1)%Z in
  let df2 := (n2 - 1)%Z in
  v <- num_div (num_add (num_mul (of_int df1) (num_pow2 sd1))
                        (num_mul (of_int df2) (num_pow2 sd2)))
               (of_int (df1 + df2)%Z) ;;
  let pooled_sd := np_sqrt v in
  d <- num_div (num_sub m1 m2) pooled_sd ;;
  cohens_d_to_hedges_g d n1 n2.

(** [prepost_to_hedges_g(m_pre, m_post, sd_pre, sd_post, n, r)] *)
Definition prepost_to_hedges_g (m_pre m_post sd_pre sd_post : num) (n : Z)
  (r : num) : M (num * num) :=
  sd_avg <- num_div (num_add sd_pre sd_post) (of_int 2%Z) ;;
  d <- num_div (num_sub m_post m_pre) sd_avg ;;
  let df := (n - 1)%Z in
  q <- int_truediv 3%Z (4 * df - 1)%Z ;;
  let j := 1 - q in
  let g := num_mul d (Py j) in
  a <- num_div (num_mul (of_int 2%Z) (num_sub (of_int 1%Z) r)) (of_int n) ;;
  b <- num_div (num_pow2 g) (of_int (2 * n)%Z) ;;
  let se_g := np_sqrt (num_add a b) in
  Ret (g, se_g).

(** [t_to_hedges_g(t, n1, n2)] *)
Definition t_to_hedges_g (t : num) (n1 n2 : Z) : M (num * num) :=
  q <- int_truediv (n1 + n2)%Z (n1 * n2)%Z ;;
  let d := num_mul t (np_sqrt (Py q)) in
  cohens_d_to_hedges_g d n1 n2.

(** [f_to_hedges_g(f, n1, n2)] *)
Definition f_to_hedges_g (f : num) (n1 n2 : Z) : M (num * num) :=
  let t := np_sqrt f in
  t_to_hedges_g t n1 n2.

(** [r_to_hedges_g(r, n)] *)
Definition r_to_hedges_g (r : num) (n : Z) : M (num * num) :=
  d <- num_div (num_mul (of_int 2%Z) r)
               (np_sqrt (num_sub (of_int 1%Z) (num_pow2 r))) ;;
  let n1 := (n / 2)%Z in
  let n2 := n1 in
  cohens_d_to_hedges_g d n1 n2.

(** [hedges_g_variance(g, n1, n2)] *)
Definition hedges_g_variance (g : num) (n1 n2 : Z) : M num :=
  let n_total := (n1 + n2)%Z in
  a <- int_truediv n_total (n1 * n2)%Z ;;
  b <- num_div (num_pow2 g) (of_int (2 * n_total)%Z) ;;
  Ret (num_add (Py a) b).

(** * Input records *)

(** A value of the input mapping, as [json.load] produces it.  [VText]
    stands for a string that [float()] and [int()] reject; strings that
    spell a number are not modelled.  [VCompound] is a list or a dict. *)
Inductive pyval :=
| VNone
| VBool (b : bool)
| VInt (z : Z)
| VFloat (r : R)
| VText (s : string)
| VCompound.

Definition is_none (v : pyval) : bool :=
  match v with
  | VNone => true
  | _ => false
  end.

(** [int()] of a float truncates toward zero. *)
Definition Ztrunc (r : R) : Z :=
  if Rle_dec 0 r then Zfloor r else Zceil r.

(** [float(v)] *)
Definition py_float (v : pyval) : M num :=
  match v with
  | VNone => Raise TypeError
  | VBool b => Ret (Py (if b then 1 else 0))
  | VInt z => Ret (Py (IZR z))
  | VFloat r => Ret (Py r)
  | VText _ => Raise ValueError
  | VCompound => Raise TypeError
  end.

(** [int(v)] *)
Definition py_int (v : pyval) : M Z :=
  match v with
  | VNone => Raise TypeError
  | VBool b => Ret (if b then 1 else 0)%Z
  | VInt z => Ret z
  | VFloat r => Ret (Ztrunc r)
  | VText _ => Raise ValueError
  | VCompound => Raise TypeError
  end.

(** The operand of [v < n], [v + w], [min(v, w)] with numbers: the value
    as a number, and [TypeError] for anything else ([None < 10],
    ['a' < 10] and [[] < 10] all raise it). *)
Definition py_number (v : pyval) : M R :=
  match v with
  | VBool b => Ret (if b then 1 else 0)
  | VInt z => Ret (IZR z)
  | VFloat r => Ret r
  | VNone | VText _ | VCompound => Raise TypeError
  end.

(** [v // 2] *)
Definition py_floordiv2 (v : pyval) : M pyval :=
  match v with
  | VBool _ => Ret (VInt 0)
  | VInt z => Ret (VInt (z / 2))
  | VFloat r => Ret (VFloat (IZR (Zfloor (r / 2))))
  | VNone | VText _ | VCompound => Raise TypeError
  end.

(** [k in data] *)
Definition contains (data : gmap string pyval) (k : string) : bool :=
  match data !! k with
  | Some _ => true
  | None => false
  end.

(** [data[k]] *)
Definition getitem (data : gmap string pyval) (k : string) : M pyval :=
  match data !! k with
  | Some v => Ret v
  | None => Raise (KeyError k)
  end.

(** [data.get(k, d)] *)
Definition get (data : gmap string pyval) (k : string) (d : pyval) : pyval :=
  match data !! k with
  | Some v => v
  | None => d
  end.

(** [k in data and data[k] is not None] *)
Definition reported (data : gmap string pyval) (k : string) : bool :=
  match data !! k with
  | Some v => negb (is_none v)
  | None => false
  end.

(** * Results *)

Inductive method :=
| direct_hedges_g
| cohen_d_conversion
| means_sds
| prepost
| t_statistic
| f_statistic
| correlation.

(** The entries of the [issues] list.  The source builds strings; the
    embedding keeps the message kind and the values formatted into it. *)
Inductive issue :=
| NoRecognizedFormat
| ExtractionFailed (e : exn)
| ExceedsMaximum (abs_g : num) (max_g : R)
| Group1BelowMinimum (n1 : pyval) (min_n : Z)
| Group2BelowMinimum (n2 : pyval) (min_n : Z).


Inductive warning :=
| UnusuallySmall (se : num)
| UnusuallyLarge (se : num).

(** The dictionary [validate_effect_size] returns. *)
Record validation := {
  v_valid : bool;
  v_issues : list issue;
  v_warnings : list warning;
  v_g : num;
  v_se : num;
  v_ci_95 : num * num;
  v_n1 : pyval;
  v_n2 : pyval
}.

(** The dictionary [extract_effect_size] returns.  [g], [se] and [method]
    are always present and may hold [None]; the last four keys exist only
    after [result.update(validation)], so [None] there means that the key
    is absent. *)
Record result := {
  r_g : option num;
  r_se : option num;
  r_method : option method;
  r_valid : bool;
  r_issues : list issue;
  r_warnings : option (list warning);
  r_ci_95 : option (num * num);
  r_n1 : option pyval;
  r_n2 : option pyval
}.

(** [validate_effect_size(g, se, n1, n2, max_g, min_n)] *)
Definition validate_effect_size (g se : num) (n1 n2 : pyval)
  (max_g : R) (min_n : Z) : M validation :=
  let issues0 :=
    if num_lt (Py max_g) (num_abs g)
    then [ExceedsMaximum (num_abs g) max_g] else [] in
  x1 <- py_number n1 ;;
  let issues1 :=
    if Rlt_dec x1 (IZR min_n)
    then issues0 ++ [Group1BelowMinimum n1 min_n] else issues0 in
  x2 <- py_number n2 ;;
  let issues2 :=
    if Rlt_dec x2 (IZR min_n)
    then issues1 ++ [Group2BelowMinimum n2 min_n] else issues1 in
  q_min <- num_div (of_int 2%Z) (Py (x1 + x2)) ;;
  let expected_min_se := np_sqrt q_min in
  let warnings0 :=
    if num_lt se (num_mul expected_min_se (Py 0.5))
    then [UnusuallySmall se] else [] in
  q_max <- num_div (of_int 4%Z) (Py (Rmin x1 x2)) ;;
  let expected_max_se := np_sqrt q_max in
  let warnings1 :=
    if num_lt expected_max_se se
    then warnings0 ++ [UnusuallyLarge se] else warnings0 in
  let ci_lower := num_sub g (num_mul (Py 1.96) se) in
  let ci_upper := num_add g (num_mul (Py 1.96) se) in
  Ret {| v_valid := match issues2 with [] => true | _ => false end;
         v_issues := issues2;
         v_warnings := warnings1;
         v_g := g;
         v_se := se;
         v_ci_95 := (ci_lower, ci_upper);
         v_n1 := n1;
         v_n2 := n2 |}.

(** * Dispatch *)

Section Extract.

Variable data : gmap string pyval.

(** [float(data[k])] and [int(data[k])] *)
Definition float_at (k : string) : M num := v <- getitem data k ;; py_float v.
Definition int_at (k : string) : M Z := v <- getitem data k ;; py_int v.

(** Case 1: direct Hedges' g *)
Definition case_direct : M (num * num * method) :=
  g <- float_at "hedges_g" ;;
  se <- py_float (get data "se_g" (get data "se" (VInt 0))) ;;
  se' <- (if num_is_zero se && contains data "n1" && contains data "n2"
          then n1 <- int_at "n1" ;;
               n2 <- int_at "n2" ;;
               v <- hedges_g_variance g n1 n2 ;;
               Ret (np_sqrt v)
          else Ret se) ;;
  Ret (g, se', direct_hedges_g).

(** Case 2: Cohen's d *)
Definition case_cohens_d : M (num * num * method) :=
  d <- float_at "cohens_d" ;;
  n1 <- int_at "n1" ;;
  n2 <- int_at "n2" ;;
  gs <- cohens_d_to_hedges_g d n1 n2 ;;
  Ret (gs, cohen_d_conversion).

(** Case 3: means and SDs *)
Definition case_means : M (num * num * method) :=
  m1 <- float_at "m1" ;;
  m2 <- float_at "m2" ;;
  sd1 <- float_at "sd1" ;;
  sd2 <- float_at "sd2" ;;
  n1 <- int_at "n1" ;;
  n2 <- int_at "n2" ;;
  gs <- means_to_hedges_g m1 m2 sd1 sd2 n1 n2 ;;
  Ret (gs, means_sds).

(** Case 4: pre-post design *)
Definition case_prepost : M (num * num * method) :=
  m_pre <- float_at "m_pre" ;;
  m_post <- float_at "m_post" ;;
  sd_pre <- float_at "sd_pre" ;;
  sd_post <- float_at "sd_post" ;;
  n <- int_at "n" ;;
  r <- py_float (get data "r_prepost" (VFloat 0.5)) ;;
  gs <- prepost_to_hedges_g m_pre m_post sd_pre sd_post n r ;;
  Ret (gs, prepost).

(** Case 5: t statistic *)
Definition case_t : M (num * num * method) :=
  t <- float_at "t" ;;
  n1 <- int_at "n1" ;;
  n2 <- int_at "n2" ;;
  gs <- t_to_hedges_g t n1 n2 ;;
  Ret (gs, t_statistic).

(** Case 6: F statistic *)
Definition case_f : M (num * num * method) :=
  f <- float_at "f" ;;
  n1 <- int_at "n1" ;;
  n2 <- int_at "n2" ;;
  gs <- f_to_hedges_g f n1 n2 ;;
  Ret (gs, f_statistic).

(** Case 7: correlation *)
Definition case_r : M (num * num * method) :=
  r <- float_at "r" ;;
  n <- int_at "n" ;;
  gs <- r_to_hedges_g r n ;;
  Ret (gs, correlation).

(** The [if]/[elif] chain of the [try] block, up to the
    [result.update] that ends each branch.  [Ret None] is the final
    [else]. *)
Definition convert : M (option (num * num * method)) :=
  if reported data "hedges_g" then
    c <- case_direct ;; Ret (Some c)
  else if reported data "cohens_d" then
    c <- case_cohens_d ;; Ret (Some c)
  else if forallb (contains data) ["m1"; "m2"; "sd1"; "sd2"; "n1"; "n2"] then
    c <- case_means ;; Ret (Some c)
  else if forallb (contains data) ["m_pre"; "m_post"; "sd_pre"; "sd_post"; "n"] then
    c <- case_prepost ;; Ret (Some c)
  else if contains data "t" && contains data "n1" && contains data "n2" then
    c <- case_t ;; Ret (Some c)
  else if contains data "f" && contains data "n1" && contains data "n2" then
    c <- case_f ;; Ret (Some c)
  else if contains data "r" && contains data "n" then
    c <- case_r ;; Ret (Some c)
  else Ret None.

(** The block under [# Validate]: both defaults [data.get('n', 0) // 2]
    are evaluated before the lookups of [n1] and [n2]. *)
Definition validate_step (g se : num) : M validation :=
  d1 <- py_floordiv2 (get data "n" (VInt 0)) ;;
  let n1 := get data "n1" d1 in
  d2 <- py_floordiv2 (get data "n" (VInt 0)) ;;
  let n2 := get data "n2" d2 in
  validate_effect_size g se n1 n2 5 10.

(** The initial [result] dictionary. *)
Definition initial_result : result :=
  {| r_g := None; r_se := None; r_method := None; r_valid := false;
     r_issues := []; r_warnings := None; r_ci_95 := None;
     r_n1 := None; r_n2 := None |}.

(** [result['issues'].append(i)] *)
Definition append_issue (res : result) (i : issue) : result :=
  {| r_g := r_g res; r_se := r_se res; r_method := r_method res;
     r_valid := r_valid res; r_issues := r_issues res ++ [i];
     r_warnings := r_warnings res; r_ci_95 := r_ci_95 res;
     r_n1 := r_n1 res; r_n2 := r_n2 res |}.

(** [result.update({'g': g, 'se': se, 'method': m})] *)
Definition update_conversion (res : result) (c : num * num * method) : result :=
  {| r_g := Some (fst (fst c)); r_se := Some (snd (fst c));
     r_method := Some (snd c);
     r_valid := r_valid res; r_issues := r_issues res;
     r_warnings := r_warnings res; r_ci_95 := r_ci_95 res;
     r_n1 := r_n1 res; r_n2 := r_n2 res |}.

(** [result.update(validation)] *)
Definition update_validation (res : result) (v : validation) : result :=
  {| r_g := Some (v_g v); r_se := Some (v_se v); r_method := r_method res;
     r_valid := v_valid v; r_issues := v_issues v;
     r_warnings := Some (v_warnings v); r_ci_95 := Some (v_ci_95 v);
     r_n1 := Some (v_n1 v); r_n2 := Some (v_n2 v) |}.

(** The [except Exception as e] handler, run on the dictionary as the
    [try] block left it. *)
Definition handler (res : result) (e : exn) : M result :=
  Ret (append_issue res (ExtractionFailed e)).

(** [extract_effect_size(data)] *)
Definition extract_effect_size : M result :=
  let result0 := initial_result in
  match convert with
  | Raise e => handler result0 e
  | Ret None => Ret (append_issue result0 NoRecognizedFormat)
  | Ret (Some c) =>
      let result1 := update_conversion result0 c in
      match r_g result1, r_se result1 with
      | Some g, Some se =>
          match validate_step g se with
          | Raise e => handler result1 e
          | Ret v => Ret (update_validation result1 v)
          end
      | _, _ => Ret result1
      end
  end.

End Extract.

End Calc.

(** * Random-effects pooling of the forest plots *)

Module Forest.

(** The result dictionary of [generate_forest_plots.random_effects_meta]. *)
Record pooled := {
  pooled_g : xfloat;
  se_pooled : xfloat;
  ci_lower : xfloat;
  ci_upper : xfloat;
  Q : xfloat;
  df : Z;
  p_Q : xfloat;
  I2 : xfloat;
  tau2 : xfloat;
  tau : xfloat;
  k : nat
}.

(** [random_effects_meta(g_values, se_values)]; [None] is the empty
    dictionary.  The [method] argument is not read. *)
Definition random_effects_meta (g_values se_values : array) : option pooled :=
  let k := length g_values in
  match k with
  | O => None
  | S _ =>
    let km1 := Fin (INR k - 1) in
    let var_values := arr_sq se_values in
    let w_fixed := arr_recip var_values in
    let g_fixed := xdiv (np_sum (arr_mul w_fixed g_values)) (np_sum w_fixed) in
    let Q := np_sum (arr_mul w_fixed (arr_sq (arr_subs g_values g_fixed))) in
    let c := xsub (np_sum w_fixed)
                  (xdiv (np_sum (arr_sq w_fixed)) (np_sum w_fixed)) in
    let tau2 := xmax0 (xdiv (xsub Q km1) c) in
    let w_random := arr_recip (arr_adds var_values tau2) in
    let g_pooled := xdiv (np_sum (arr_mul w_random g_values)) (np_sum w_random) in
    let se_pooled := xsqrt (xdiv (Fin 1) (np_sum w_random)) in
    let ci_lower := xsub g_pooled (xmul (Fin 1.96) se_pooled) in
    let ci_upper := xadd g_pooled (xmul (Fin 1.96) se_pooled) in
    let I2 := if xlt (Fin 0) Q
              then xmax0 (xmul (xdiv (xsub Q km1) Q) (Fin 100))
              else Fin 0 in
    Some {| pooled_g := g_pooled;
            se_pooled := se_pooled;
            ci_lower := ci_lower;
            ci_upper := ci_upper;
            Q := Q; df := (Z.of_nat k - 1)%Z;
            p_Q := xsub (Fin 1)
                        (xexp (xmul (Fin (- 0.5)) (xmax0 (xsub Q km1))));
            I2 := I2; tau2 := tau2; tau := xsqrt tau2; k := k |}
  end.

End Forest.

Local Close Scope R_scope.

(** * Sorting strings *)

(** [sorted(l)] on strings: ascending in the lexicographic order of the
    characters.  The order is total and equal strings are identical, so the
    result does not depend on the sorting algorithm. *)
Fixpoint insert_string (x : string) (l : list string) : list string :=
  match l with
  | [] => [x]
  | y :: l' => if String.leb x y then x :: y :: l' else y :: insert_string x l'
  end.

Definition sort_strings (l : list string) : list string :=
  fold_right insert_string [] l.

(** * Subgroup analysis of the report generator *)

Module Subgroups.

(** A row of the data frame: the effect size, the standard error and the
    moderator column that [subgroup_analysis] reads.  [None] is a missing
    cell; the moderator holds strings. *)
Record row := {
  hedges_g : option R;
  se_g : option R;
  subgroup : option string
}.

(** [df.dropna(subset=[g_col, se_col, subgroup_col])], as the triples of
    the rows that are left *)
Definition dropna (df : list row) : list (R * R * string) :=
  omap (fun r => match hedges_g r, se_g r, subgroup r with
                 | Some g, Some se, Some grp => Some (g, se, grp)
                 | _, _, _ => None
                 end) df.

Section Analysis.

Variable scipy_stats : option ((xfloat -> Z -> xfloat) * (xfloat -> xfloat)).

(** The body of the loop for one group, on the dictionary built so far;
    an exception of an earlier round ends the loop. *)
Definition analyse (df_clean : list (R * R * string))
  (results : M (list (string * Report.meta_dict))) (group : string)
  : M (list (string * Report.meta_dict)) :=
  results <- results ;;
  let sg := filter (fun r => snd r = group) df_clean in
  if Nat.ltb (length sg) 2 then Ret results
  else
    meta <- Report.random_effects_meta scipy_stats
              (map (fun r => Fin (fst (fst r))) sg)
              (map (fun r => Fin (snd (fst r))) sg) ;;
    Ret (results ++ [(group, meta)]).

(** [subgroup_analysis(df, subgroup_col)] *)
Definition subgroup_analysis (df : list row)
  : M (list (string * Report.meta_dict)) :=
  let df_clean := dropna df in
  fold_left (analyse df_clean)
            (sort_strings (QA.unique (map snd df_clean))) (Ret []).

End Analysis.

End Subgroups.

(** * Agreement between the models *)

Module Vote.

(** [collections.Counter(values)]: the distinct values in the order of their
    first appearance, each with the number of its occurrences. *)
Section Counting.

Context {A : Type} `{EqDecision A}.





End Counting.

(** A value of an agent characteristic: a string or a list of strings. *)
Inductive characteristic :=
| Text (s : string)
| Items (l : list string).

#[export] Instance characteristic_eq_dec : EqDecision characteristic.
Proof. solve_decision. Defined.

(** What the two functions read of a model's result: the confidence
    ([None] when the key is absent or null), the list of concerns (empty
    when the key is absent) and the coded characteristics (a field that is
    absent or null has no entry). *)
Record verification := {
  confidence : option string;
  concerns : list string;
  verified_agent_characteristics : gmap string characteristic
}.

(** [model_results], in insertion order; [None] is a result with an
    ['error'] key. *)
Definition model_results := list (string * option verification).




Definition fields : list string :=
  ["oversight_level"; "architecture"; "agency_level"; "role"; "modality";
   "technology"; "adaptivity"].






End Vote.

(** * The cost tracker *)

Module Cost.

(** An entry of [usage_data]. *)
Record usage := {
  input_tokens : Z;
  output_tokens : Z;
  total_calls : Z
}.

(** A dict with string keys, in insertion order. *)
Definition dict (A : Type) := list (string * A).

(** [d.get(key)] *)
Fixpoint dict_get {A : Type} (key : string) (d : dict A) : option A :=
  match d with
  | [] => None
  | (k, v) :: d' => if String.eqb k key then Some v else dict_get key d'
  end.

(** [d[key] = value] *)
Fixpoint dict_set {A : Type} (key : string) (value : A) (d : dict A) : dict A :=
  match d with
  | [] => [(key, value)]
  | (k, v) :: d' =>
      if String.eqb k key then (k, value) :: d' else (k, v) :: dict_set key value d'
  end.

(** [self.usage_data], a defaultdict whose missing entries start at zero. *)
Definition usage_data := dict usage.

Definition default_usage : usage :=
  {| input_tokens := 0; output_tokens := 0; total_calls := 0 |}.

(** [self.pricing]: dollars per million tokens (input, output). *)
Definition pricing : dict (R * R) :=
  [("claude-sonnet-4-5-20250929"%string, (3.00, 15.00)%R);
   ("claude-sonnet-3-5-20241022"%string, (3.00, 15.00)%R);
   ("claude-opus-4-6"%string, (15.00, 75.00)%R);
   ("gpt-4o"%string, (2.50, 10.00)%R);
   ("gpt-4o-2024-11-20"%string, (2.50, 10.00)%R);
   ("gpt-4-turbo"%string, (10.00, 30.00)%R);
   ("llama-3.3-70b-versatile"%string, (0.59, 0.79)%R);
   ("llama-3.1-70b-versatile"%string, (0.59, 0.79)%R);
   ("mixtral-8x7b-32768"%string, (0.24, 0.24)%R)].

(** [track(model, input_tokens, output_tokens)] *)
Definition track (model : string) (input output : Z) (d : usage_data)
  : usage_data :=
  let u := match dict_get model d with
           | Some u => u
           | None => default_usage
           end in
  dict_set model
         {| input_tokens := input_tokens u + input;
            output_tokens := output_tokens u + output;
            total_calls := total_calls u + 1 |} d.

(** [get_cost(model)] *)
Definition get_cost (d : usage_data) (model : string) : R :=
  match dict_get model d with
  | None => 0
  | Some usage =>
      let (input_price, output_price) :=
        match dict_get model pricing with
        | Some p => p
        | None => (0, 0)%R
        end in
      let input_cost := (IZR (input_tokens usage) / 1000000 * input_price)%R in
      let output_cost := (IZR (output_tokens usage) / 1000000 * output_price)%R in
      (input_cost + output_cost)%R
  end.

(** A row of the summary. *)
Record stats := {
  s_input_tokens : Z;
  s_output_tokens : Z;
  s_total_tokens : Z;
  s_total_calls : Z;
  s_total_cost : R
}.

(** [sum(...)] of integers and of floats, from the left, starting at 0 *)
Definition Zsum (l : list Z) : Z := fold_left Z.add l 0%Z.
Definition Rsum_left (l : list R) : R := fold_left Rplus l 0%R.

(** [get_summary()] *)
Definition get_summary (d : usage_data) : dict stats :=
  let summary :=
    fold_left
      (fun summary (mu : string * usage) =>
         let (model, usage) := mu in
         let cost := get_cost d model in
         dict_set model
                {| s_input_tokens := input_tokens usage;
                   s_output_tokens := output_tokens usage;
                   s_total_tokens := input_tokens usage + output_tokens usage;
                   s_total_calls := total_calls usage;
                   s_total_cost := py_round 4 cost |} summary)
      d [] in
  let total_cost := Rsum_left (map (fun s => s_total_cost (snd s)) summary) in
  let total_tokens := Zsum (map (fun s => s_total_tokens (snd s)) summary) in
  let total_calls := Zsum (map (fun s => s_total_calls (snd s)) summary) in
  dict_set "_TOTAL"
         {| s_input_tokens := Zsum (map (fun s => s_input_tokens (snd s)) summary);
            s_output_tokens := Zsum (map (fun s => s_output_tokens (snd s)) summary);
            s_total_tokens := total_tokens;
            s_total_calls := total_calls;
            s_total_cost := py_round 4 total_cost |} summary.

End Cost.

Local Open Scope R_scope.

(** * Specification-side definitions

    What the properties below are stated with: the formulas as the
    specification writes them, and the concrete inputs of the examples. *)

(** ** Pooling *)

Definition Rsum (l : list R) : R := fold_right Rplus 0 l.

(** The DerSimonian-Laird quantities of effect sizes [g] with standard
    errors [se]. *)
Module DL.
Section Quantities.
Variables g se : list R.
Definition k : R := INR (length g).
Definition w : list R := map (fun s => 1 / s ^ 2) se.
Definition g_fixed : R := Rsum (zip_with Rmult w g) / Rsum w.
Definition Q : R := Rsum (zip_with Rmult w (map (fun x => (x - g_fixed) ^ 2) g)).
Definition c : R := Rsum w - Rsum (map (fun x => x ^ 2) w) / Rsum w.
Definition tau2 : R := Rmax 0 ((Q - (k - 1)) / c).
Definition w_re : list R := map (fun s => 1 / (s ^ 2 + tau2)) se.
Definition g_pooled : R := Rsum (zip_with Rmult w_re g) / Rsum w_re.
Definition se_pooled : R := sqrt (1 / Rsum w_re).
Definition I2 : R :=
  if Rlt_dec 0 Q then Rmax 0 ((Q - (k - 1)) / Q * 100) else 0.
End Quantities.
End DL.

(** Two studies. *)
Definition two_effects : list R := [0.2; 0.6].
Definition two_errors : list R := [0.1; 0.2].

(** A single study. *)
Definition one_effect : list R := [0.5].
Definition one_error : list R := [1].

(** Three small studies below the pooled estimate and one precise study
    above it. *)
Definition four_effects : list R := [-0.2; -0.1; 0; 0.5].
Definition four_errors : list R := [1; 1; 1; 0.5].

(** ** Calculator *)

Section CalculatorSpecification.

Import Calc.

(** The small-sample correction factor. *)
Definition J (n1 n2 : Z) : R := 1 - 3 / (4 * (IZR n1 + IZR n2 - 2) - 1).

(** [a / n] for a non-zero Python int [n] *)
Definition over (a : num) (n : Z) : num :=
  match a with
  | Py x => Py (x / IZR n)
  | Np x => Np (xdiv x (Fin (IZR n)))
  end.

(** The standard error of [g]: the root of
    [(n1+n2)/(n1*n2) + g^2/(2*(n1+n2))]. *)
Definition se_of (g : num) (n1 n2 : Z) : num :=
  np_sqrt (num_add (Py (IZR (n1 + n2) / IZR (n1 * n2)))
                   (over (num_pow2 g) (2 * (n1 + n2)))).

(** The pooled standard deviation of two groups. *)
Definition pooled_sd (sd1 sd2 : R) (n1 n2 : Z) : xfloat :=
  xsqrt (Fin (((IZR n1 - 1) * sd1 ^ 2 + (IZR n2 - 1) * sd2 ^ 2)
              / (IZR n1 + IZR n2 - 2))).

(** [r] returns the effect size [d * J], with some standard error. *)
Definition corrects (n1 n2 : Z) (d : num) (r : M (num * num)) : Prop :=
  exists se, r = Ret (num_mul d (Py (J n1 n2)), se).

(** The seven input shapes, in the priority order of the dispatch. *)
Inductive shape :=
| Direct | CohensD | MeansSDs | PrePost | TStatistic | FStatistic | Correlation.

Definition priority : list shape :=
  [Direct; CohensD; MeansSDs; PrePost; TStatistic; FStatistic; Correlation].

(** The field-presence check of each shape. *)
Definition recognizes (data : gmap string pyval) (s : shape) : bool :=
  match s with
  | Direct => reported data "hedges_g"
  | CohensD => reported data "cohens_d"
  | MeansSDs => forallb (contains data) ["m1"; "m2"; "sd1"; "sd2"; "n1"; "n2"]%string
  | PrePost =>
      forallb (contains data) ["m_pre"; "m_post"; "sd_pre"; "sd_post"; "n"]%string
  | TStatistic => contains data "t" && contains data "n1" && contains data "n2"
  | FStatistic => contains data "f" && contains data "n1" && contains data "n2"
  | Correlation => contains data "r" && contains data "n"
  end.

(** The conversion of each shape. *)
Definition conversion (data : gmap string pyval) (s : shape)
  : M (num * num * method) :=
  match s with
  | Direct => case_direct data
  | CohensD => case_cohens_d data
  | MeansSDs => case_means data
  | PrePost => case_prepost data
  | TStatistic => case_t data
  | FStatistic => case_f data
  | Correlation => case_r data
  end.


Definition first_match (data : gmap string pyval) : option shape :=
  List.find (recognizes data) priority.



(** An exception reaches the handler of [extract_effect_size]: it is
    raised by the conversion or, after it, by the validation. *)
Definition caught (data : gmap string pyval) (e : exn) : Prop :=
  convert data = Raise e \/
  exists c, convert data = Ret (Some c) /\
    validate_step data (fst (fst c)) (snd (fst c)) = Raise e.

(** The validation ran to its end. *)
Definition validated (data : gmap string pyval) (c : num * num * method)
  (v : validation) : Prop :=
  convert data = Ret (Some c) /\
  validate_step data (fst (fst c)) (snd (fst c)) = Ret v.





(** A Cohen's d without its sample sizes. *)
Definition d_without_sizes : gmap string pyval :=
  {[ "cohens_d"%string := VFloat 0.65 ]}.




End CalculatorSpecification.

(** ** Consensus *)

Section ConsensusSpecification.

Import Consensus.

(** The entries the first loop files under [label], in the order of the
    models. *)
Definition entries_for (label : label) (results : model_results) : list entry :=
  flat_map (fun mr : string * model_result =>
              match snd mr with
              | Errored => []
              | Verified ess =>
                  map (entry_of (fst mr))
                      (filter (fun es => label_of es = label) ess)
              end) results.

(** The non-null g values reported for [label], and the non-null standard
    errors that come with them. *)
Definition g_values (label : label) (results : model_results) : list Q :=
  omap hedges_g (entries_for label results).

Definition se_values (label : label) (results : model_results) : list Q :=
  omap se_g (filter (fun v => has_g v = true) (entries_for label results)).

(** The mean of the standard errors rounded to four decimals; null when
    there is none, and when the mean is zero. *)
Definition rounded_se (ses : list Q) : option Q :=
  match ses with
  | [] => None
  | _ :: _ => if Qeq_bool (Qmean ses) 0 then None else Some (Qpy_round 4 (Qmean ses))
  end.

(** [label_effects.get(label)] *)
Fixpoint lookup_label (label : label) (d : label_effects) : option (list entry) :=
  match d with
  | [] => None
  | (l, es) :: d' => if label_eqb l label then Some es else lookup_label label d'
  end.

(** The record of the returned list that carries [label], if any. *)
Definition consensus_for (label : label) (out : list consensus) : option consensus :=
  List.find (fun c => label_eqb (outcome_label c) label) out.

(** The entries under a label after more of them arrive. *)
Definition merge (o : option (list entry)) (l : list entry) : option (list entry) :=
  match l with
  | [] => o
  | _ :: _ => Some (match o with Some es => es | None => [] end ++ l)
  end.

Definition file_under (name : string) (d : label_effects) (es : effect_size)
  : label_effects :=
  append_at (label_of es) (entry_of name es) d.

(** The second loop, on any [label_effects]. *)
Definition synthesize_all (d : label_effects) : list consensus :=
  omap (fun lv : label * list entry => consensus_of (fst lv) (snd lv)) d.

(** The quality tier and flag that go with [n] contributing models. *)
Definition tier (n : nat) (c : consensus) : Prop :=
  (n = 3%nat -> consensus_quality c = "3/3_agree"%string /\ flag c = None) /\
  (n = 2%nat -> consensus_quality c = "2/3_agree"%string /\
                flag c = Some "majority_consensus"%string) /\
  (n = 1%nat -> consensus_quality c = "1/3_only"%string /\
                flag c = Some "human_review_needed"%string).

(** A model's report on the outcome ["test1"]. *)
Definition reported_by (g se : jfield Q) : effect_size :=
  {| es_outcome_label := Value "test1"%string; es_hedges_g := g; es_se_g := se;
     es_conversion_valid := Value true |}.

(** Two models report a g, 0.5 and 0.6 with se = 0.1, and the third
    reports the outcome without one. *)
Definition two_values_one_null : model_results :=
  [("claude"%string, Verified [reported_by (Value (1 # 2)) (Value (1 # 10))]);
   ("gpt4o"%string, Verified [reported_by (Value (3 # 5)) (Value (1 # 10))]);
   ("groq"%string, Verified [reported_by Null Null])].

(** The three models agree on g = 0.50 and se = 0.10. *)
Definition three_agree : model_results :=
  [("claude"%string, Verified [reported_by (Value (1 # 2)) (Value (1 # 10))]);
   ("gpt4o"%string, Verified [reported_by (Value (1 # 2)) (Value (1 # 10))]);
   ("groq"%string, Verified [reported_by (Value (1 # 2)) (Value (1 # 10))])].

End ConsensusSpecification.

(** ** Quality gates *)

Section GateSpecification.

Import QA.

(** What the six checks return on a frame. *)
Definition checks (qt : quality_targets) (f : frame) : list (bool * details) :=
  [ (fst (gate1 qt f), Details1 (snd (gate1 qt f)));
    (fst (gate2 qt f), Details2 (snd (gate2 qt f)));
    (fst (gate3 f), Details3 (snd (gate3 f)));
    (fst (gate4 f), Details4 (snd (gate4 f)));
    (fst (gate5 f), Details5 (snd (gate5 f)));
    (fst (gate6 f), Details6 (snd (gate6 f))) ].

(** A gate method that returns what [check] finds on the frame, leaves the
    frame alone, reads the clock once and adds one line to the audit log. *)
Definition reports (check : frame -> bool * details) (c : St (bool * details))
  : Prop :=
  forall w, fst (c w) = check (df w) /\ df (snd (c w)) = df w
            /\ clock (snd (c w)) = S (clock w)
            /\ length (audit_log (snd (c w))) = S (length (audit_log w)).

(** The six checks with their details wrapped, in the order of
    [self.gates]. *)
Definition wrapped {D : Type} (wrap : D -> details) (check : frame -> bool * D)
  (f : frame) : bool * details :=
  (fst (check f), wrap (snd (check f))).

Definition gate_checks (qt : quality_targets)
  : list (frame -> bool * details) :=
  [wrapped Details1 (gate1 qt); wrapped Details2 (gate2 qt);
   wrapped Details3 gate3; wrapped Details4 gate4;
   wrapped Details5 gate5; wrapped Details6 gate6].

(** The record the loop appends for a gate. *)
Definition result_of (f : frame)
  (gc : (string * St (bool * details)) * (frame -> bool * details))
  : gate_result :=
  {| gate := fst (fst gc); passed := fst (snd gc f);
     gate_details := snd (snd gc f) |}.

(** A second run of the checker, in the world the first run left. *)
Definition second_run (qt : quality_targets) (w : world) : qa_report * world :=
  run_all_gates qt (snd (run_all_gates qt w)).

(** [quality_targets.get('min_sample_size', 10)] *)
Definition min_n_of (qt : quality_targets) : Q :=
  match min_sample_size qt with
  | Some m => m
  | None => 10%Q
  end.

(** The sample-size requirement read strictly: the sizes it names must be
    there and large enough. *)
Definition requirement_met (min_n : Q) (r : row) : Prop :=
  if is_prepost r
  then exists n, n_total r = Some n /\ (2 * min_n <= n)%Q
  else (exists a, n_treatment r = Some a /\ (min_n <= a)%Q)
       /\ (exists b, n_control r = Some b /\ (min_n <= b)%Q).

(** What the gate flags: a size that is present and too small. *)
Definition violates (min_n : Q) (r : row) : Prop :=
  if is_prepost r
  then exists n, n_total r = Some n /\ (n < 2 * min_n)%Q
  else (exists n, n_treatment r = Some n /\ (n < min_n)%Q)
       \/ (exists n, n_control r = Some n /\ (n < min_n)%Q).

(** The studies the gate flags. *)
Definition flagged (qt : quality_targets) (f : frame) : list string :=
  map fst (issues (snd (gate2 qt f))).

(** One row of a study with the given design and sample sizes. *)
Definition study (sid design : string) (n_t n_c n_tot : option Q) : row :=
  {| study_id := sid; outcome_label := "posttest";
     hedges_g := Some (1 # 2); se_g := Some (1 # 10);
     design_type := Some design;
     n_treatment := n_t; n_control := n_c; n_total := n_tot;
     outcome_type := Some "achievement"%string;
     oversight_level := Some "human_in_the_loop"%string;
     architecture := Some "single_agent"%string;
     agency_level := Some "adaptive"%string |}.

Definition defaults : quality_targets :=
  {| max_effect_size := None; min_sample_size := None |}.

(** A pre-post study without a total sample size, one with 15
    participants, and the latter as a trial with 12 per group. *)
Definition prepost_unsized : row := study "S01" "pre_post" None None None.
Definition prepost_15 : row := study "S02" "Pre_Post" None None (Some 15%Q).
Definition rct_12_12 : row := study "S02" "RCT" (Some 12%Q) (Some 12%Q) None.

End GateSpecification.

(** ** Edge cases of the calculator *)

Section CalculatorEdgeSpecification.
Import Calc.

(** [-a] *)
Definition num_neg (a : num) : num :=
  match a with
  | Py x => Py (- x)
  | Np x => Np (xneg x)
  end.

(** The outcome of the reversed comparison: the effect size changes sign,
    the standard error and the exception stay. *)
Definition mirrored (r : M (num * num)) : M (num * num) :=
  match r with
  | Ret (g, se) => Ret (num_neg g, se)
  | Raise e => Raise e
  end.

(** None of n1, n2 and n is a key of the input. *)
Definition unsized (data : gmap string pyval) : Prop :=
  data !! "n1"%string = None /\ data !! "n2"%string = None
  /\ data !! "n"%string = None.

(** Two groups with the same mean and no spread. *)
Definition identical_groups (m : R) (n1 n2 : Z) : gmap string pyval :=
  {[ "m1"%string := VFloat m; "m2"%string := VFloat m;
     "sd1"%string := VFloat 0; "sd2"%string := VFloat 0;
     "n1"%string := VInt n1; "n2"%string := VInt n2 ]}.

(** A directly reported g with its standard error and nothing else. *)
Definition g_only : gmap string pyval :=
  {[ "hedges_g"%string := VFloat 0.5; "se_g"%string := VFloat 0.1 ]}.

(** The pre-post effect size and the radicand of its standard error. *)
Definition prepost_g (m_pre m_post sd_pre sd_post : R) (n : Z) : R :=
  (m_post - m_pre) / ((sd_pre + sd_post) / 2) * (1 - 3 / (4 * (IZR n - 1) - 1)).

Definition prepost_var (g r : R) (n : Z) : R :=
  2 * (1 - r) / IZR n + g * g / (2 * IZR n).

(** The d that [r_to_hedges_g] computes from a correlation. *)
Definition d_of_r (r : R) : xfloat :=
  xdiv (Fin (2 * r)) (xsqrt (Fin (1 - r * r))).

(** The d that [t_to_hedges_g] computes from a statistic. *)
Definition d_of_t (t : xfloat) (n1 n2 : Z) : xfloat :=
  xmul t (xsqrt (Fin (IZR (n1 + n2) / IZR (n1 * n2)))).

End CalculatorEdgeSpecification.

(** ** Heterogeneity *)

(** The excess of Q over its degrees of freedom, and the approximation of
    the p-value of Q that the report generator falls back on. *)
Definition excess (g se : list R) : R := Rmax 0 (DL.Q g se - (DL.k g - 1)).
Definition p_fallback (g se : list R) : R := exp (- 0.5 * excess g se).

Local Close Scope R_scope.

(** ** Gates and the audit log *)

Section GateGuarantees.
Import QA.

(** [quality_targets.get('max_effect_size', 5.0)] *)
Definition max_g_of (qt : quality_targets) : Q :=
  match max_effect_size qt with
  | Some m => m
  | None => 5%Q
  end.

(** The effect size of the row, when there is one, is within the bound. *)
Definition in_range (max_g : Q) (r : row) : Prop :=
  forall g, hedges_g r = Some g -> (Qabs g <= max_g)%Q.

(** None of the seven required cells of the row is missing. *)
Definition complete (r : row) : Prop :=
  hedges_g r <> None /\ se_g r <> None /\ design_type r <> None
  /\ outcome_type r <> None /\ oversight_level r <> None
  /\ architecture r <> None /\ agency_level r <> None.

(** The key gate 6 compares. *)
Definition key (r : row) : string * string := (study_id r, outcome_label r).

(** A cell that is present, not empty, and in the vocabulary once
    lower-cased. *)
Definition in_vocabulary (vocabulary : list string) (cell : option string)
  : Prop :=
  exists s, cell = Some s /\ s <> ""%string
            /\ mem_string (lower s) vocabulary = true.

(** [r] is the first row of a study of the frame. *)
Definition first_row (f : frame) (r : row) : Prop :=
  exists sid, head (rows_of sid f) = Some r.

(** The lines the gate methods write to the audit log, one after the other
    from time [t] on: the short name of the gate, what its check finds on
    the frame, and the time. *)
Fixpoint log_lines (gs : list (string * (frame -> bool * details)))
  (f : frame) (t : nat) : list log_entry :=
  match gs with
  | [] => []
  | (log_name, check) :: gs' =>
      {| log_gate_name := log_name; log_passed := fst (check f);
         log_details := snd (check f); log_timestamp := t |}
      :: log_lines gs' f (S t)
  end.

(** A gate method that returns what [check] finds on the frame and appends
    one line to the audit log, stamped with the time it reads. *)
Definition writes (log_name : string) (check : frame -> bool * details)
  (c : St (bool * details)) : Prop :=
  forall w, c w = (check (df w),
                   {| df := df w;
                      audit_log := audit_log w ++ log_lines [(log_name, check)]
                                                            (df w) (clock w);
                      clock := S (clock w) |}).

Definition log_names : list string :=
  ["Gate 1"; "Gate 2"; "Gate 3"; "Gate 4"; "Gate 5"; "Gate 6"]%string.

End GateGuarantees.

(** ** Trim and fill *)

(** The number of studies to impute after any number of rounds from the
    second on: the estimate of one round, or k - 1 when the estimate
    reaches k. *)
Definition settled_k0 (g se : array) (side : string) : Z :=
  if (Funnel.estimate_k0 g se side >=? Z.of_nat (length g))%Z
  then Z.max 0 (Z.of_nat (length g) - 1)
  else Funnel.estimate_k0 g se side.

(** ** Subgroups *)

Section SubgroupSpecification.
Import Subgroups.

(** The complete rows of the group. *)
Definition members (df : list row) (group : string) : list (R * R * string) :=
  filter (fun r => snd r = group) (dropna df).

(** The groups that are analysed, in the order of the result. *)
Definition analysed (df : list row) : list string :=
  filter (fun group => (2 <= length (members df group))%nat)
         (sort_strings (QA.unique (map snd (dropna df)))).

Definition is_pooled (m : Report.meta_dict) : Prop :=
  exists p, m = Report.Pooled p.

(** Three rows of one group, one of another, and one without a group. *)
Definition five_rows : list row :=
  [ {| hedges_g := Some 0.2%R; se_g := Some 0.1%R; subgroup := Some "b"%string |};
    {| hedges_g := Some 0.6%R; se_g := Some 0.2%R; subgroup := Some "b"%string |};
    {| hedges_g := Some 0.5%R; se_g := Some 1%R; subgroup := Some "a"%string |};
    {| hedges_g := Some 0.4%R; se_g := Some 0.3%R; subgroup := None |};
    {| hedges_g := Some 0.1%R; se_g := Some 0.3%R; subgroup := Some "b"%string |} ].

End SubgroupSpecification.

(** ** Votes *)

Section VoteSpecification.
Context {A : Type} `{EqDecision A}.




End VoteSpecification.

(** ** Consensus records *)

Section ConsensusRecordSpecification.
Import Consensus.

(** The model returned a verification with at least one effect size. *)
Definition contributes (mr : string * model_result) : bool :=
  match snd mr with
  | Errored | Verified [] => false
  | Verified (_ :: _) => true
  end.

(** The quality and the flag that go with a number of entries. *)
Definition quality_of (n : nat) : string * option string :=
  match n with
  | 3%nat => ("3/3_agree"%string, None)
  | 2%nat => ("2/3_agree"%string, Some "majority_consensus"%string)
  | _ => ("1/3_only"%string, Some "human_review_needed"%string)
  end.

End ConsensusRecordSpecification.

(** ** Token accounting *)

Section CostSpecification.
Import Cost.

(** One call of [track]. *)
Definition call := (string * (Z * Z))%type.

(** The tracker after a sequence of calls on a new one. *)
Definition tracked (cs : list call) : usage_data :=
  fold_left (fun d (c : call) => track (fst c) (fst (snd c)) (snd (snd c)) d)
            cs [].

(** The calls made for one model. *)
Definition calls_of (model : string) (cs : list call) : list call :=
  filter (fun c => fst c = model) cs.

Definition inputs (cs : list call) : Z :=
  fold_right Z.add 0%Z (map (fun c : call => fst (snd c)) cs).

Definition outputs (cs : list call) : Z :=
  fold_right Z.add 0%Z (map (fun c : call => snd (snd c)) cs).

(** What the tracker holds for a model after [cs]. *)
Definition usage_after (model : string) (cs : list call) : option usage :=
  match calls_of model cs with
  | [] => None
  | own => Some {| input_tokens := inputs own; output_tokens := outputs own;
                   total_calls := Z.of_nat (length own) |}
  end.

(** The listed price of a model, zero for an unlisted one. *)
Definition price (model : string) : R * R :=
  match dict_get model pricing with
  | Some p => p
  | None => (0, 0)%R
  end.

(** The row of the summary for an entry of the tracker [d]. *)
Definition row_of (d : usage_data) (model : string) (u : usage) : stats :=
  {| s_input_tokens := input_tokens u;
     s_output_tokens := output_tokens u;
     s_total_tokens := input_tokens u + output_tokens u;
     s_total_calls := total_calls u;
     s_total_cost := py_round 4 (get_cost d model) |}.

(** The rounded costs of the tracked models, in the order of the tracker. *)
Definition rounded_costs (d : usage_data) : list R :=
  map (fun mu : string * usage => py_round 4 (get_cost d (fst mu))) d.

End CostSpecification.

Local Open Scope R_scope.

(** * Properties *)

(** ** The error monad *)

Lemma bind_Ret {A B} (c : M A) (k : A -> M B) b :
  bind c k = Ret b -> exists a, c = Ret a /\ k a = Ret b.
Proof. destruct c as [a|e]; [eauto|discriminate]. Qed.

Lemma bind_Raise {A B} (c : M A) (k : A -> M B) e :
  c = Raise e -> bind c k = Raise e.
Proof. now intros ->. Qed.

(** ** Finite values *)

Lemma xsub_Fin a b : xsub (Fin a) (Fin b) = Fin (a - b).
Proof. reflexivity. Qed.

Lemma xdiv_Fin a b : b <> 0 -> xdiv (Fin a) (Fin b) = Fin (a / b).
Proof. intros H. cbn [xdiv]. now destruct (Req_dec_T b 0). Qed.

Lemma xsqrt_Fin a : 0 <= a -> xsqrt (Fin a) = Fin (sqrt a).
Proof. intros H. cbn [xsqrt]. destruct (Rlt_dec a 0); [lra|reflexivity]. Qed.

Lemma xmax0_Fin t : xmax0 (Fin t) = Fin (Rmax 0 t).
Proof.
  unfold xmax0, xlt, Rmax.
  destruct (Rlt_dec 0 t), (Rle_dec 0 t); try reflexivity; [lra|].
  f_equal. lra.
Qed.

Lemma pydiv_Fin a b : b <> 0 -> pydiv (Fin a) (Fin b) = Ret (Fin (a / b)).
Proof.
  intros H. unfold pydiv. destruct (Req_dec_T b 0); [contradiction|].
  now rewrite xdiv_Fin.
Qed.

Lemma np_sum_Fin l : np_sum (map Fin l) = Fin (Rsum l).
Proof.
  induction l as [|x l IH]; [reflexivity|].
  cbn [map np_sum fold_right Rsum]. fold (np_sum (map Fin l)). now rewrite IH.
Qed.

Lemma arr_sq_Fin l : arr_sq (map Fin l) = map Fin (map (fun x => x * x) l).
Proof. unfold arr_sq. rewrite !map_map. reflexivity. Qed.

Lemma arr_subs_Fin l c :
  arr_subs (map Fin l) (Fin c) = map Fin (map (fun x => x - c) l).
Proof. unfold arr_subs. rewrite !map_map. reflexivity. Qed.

Lemma arr_adds_Fin l c :
  arr_adds (map Fin l) (Fin c) = map Fin (map (fun x => x + c) l).
Proof. unfold arr_adds. rewrite !map_map. reflexivity. Qed.

Lemma arr_mul_Fin a b :
  arr_mul (map Fin a) (map Fin b) = map Fin (zip_with Rmult a b).
Proof.
  unfold arr_mul. revert b.
  induction a as [|x a IH]; intros [|y b]; try reflexivity.
  cbn [map zip_with]. now rewrite IH.
Qed.

Lemma arr_recip_Fin l :
  Forall (fun x => x <> 0) l ->
  arr_recip (map Fin l) = map Fin (map (fun x => 1 / x) l).
Proof.
  unfold arr_recip. induction 1 as [|x l Hx _ IH]; [reflexivity|].
  cbn [map xdiv]. rewrite IH.
  destruct (Req_dec_T x 0); [contradiction|reflexivity].
Qed.

(** ** Sums of positive numbers *)

Lemma Rsum_pos l : l <> [] -> Forall (fun x => 0 < x) l -> 0 < Rsum l.
Proof.
  intros Hne H. induction H as [|x l Hx Hl IH]; [congruence|].
  cbn [Rsum fold_right]. destruct l as [|y l]; [cbn; lra|].
  assert (0 < Rsum (y :: l)) by (apply IH; discriminate).
  unfold Rsum in *. lra.
Qed.

Lemma Rsum_squares l :
  Forall (fun x => 0 < x) l -> (2 <= length l)%nat ->
  Rsum (map (fun x => x * x) l) < Rsum l * Rsum l.
Proof.
  intros H. induction H as [|x l Hx Hl IH]; cbn [length]; [lia|].
  intros Hlen. cbn [map Rsum fold_right].
  fold (Rsum l). fold (Rsum (map (fun x => x * x) l)).
  destruct l as [|y l]; [cbn in Hlen; lia|].
  assert (Hs : 0 < Rsum (y :: l)) by (apply Rsum_pos; [discriminate|assumption]).
  assert (Hle : Rsum (map (fun x => x * x) (y :: l))
                <= Rsum (y :: l) * Rsum (y :: l)).
  { destruct l as [|z l].
    - cbn. lra.
    - apply Rlt_le, IH. cbn [length]. lia. }
  nra.
Qed.

(** ** Rounding keeps the multiples of its unit in place *)

Lemma round_half_even_lower (z : Z) y :
  IZR z <= y -> (z <= round_half_even y)%Z.
Proof.
  intros H. apply Zfloor_lub in H. unfold round_half_even.
  destruct (Rlt_dec _ _); [assumption|]. destruct (Rlt_dec _ _); [lia|].
  destruct (Z.even _); lia.
Qed.

Lemma round_half_even_upper (z : Z) y :
  y <= IZR z -> (round_half_even y <= z)%Z.
Proof.
  intros H. unfold round_half_even.
  pose proof (Zfloor_bound y) as [Hlo Hhi].
  assert (Hfz : (Zfloor y <= z)%Z) by (apply le_IZR; lra).
  destruct (Rlt_dec _ _) as [Hr|Hr]; [assumption|].
  assert (Hlt : (Zfloor y < z)%Z) by (apply lt_IZR; lra).
  destruct (Rlt_dec _ _); [lia|]. destruct (Z.even _); lia.
Qed.

Lemma scaled_IZR nd (z : Z) : IZR (z * 10 ^ Z.of_nat nd) = IZR z * 10 ^ nd.
Proof. rewrite mult_IZR. f_equal. now rewrite <- pow_IZR. Qed.

Lemma py_round_lower nd (z : Z) x : IZR z <= x -> IZR z <= py_round nd x.
Proof.
  intros H. unfold py_round.
  assert (Hp : 0 < 10 ^ nd) by (apply pow_lt; lra).
  assert (Hr : (z * 10 ^ Z.of_nat nd <= round_half_even (x * 10 ^ nd))%Z).
  { apply round_half_even_lower. rewrite scaled_IZR. nra. }
  apply IZR_le in Hr. rewrite scaled_IZR in Hr.
  apply Rmult_le_reg_r with (10 ^ nd); [assumption|].
  unfold Rdiv. rewrite Rmult_assoc, Rinv_l by lra. lra.
Qed.

Lemma py_round_upper nd (z : Z) x : x <= IZR z -> py_round nd x <= IZR z.
Proof.
  intros H. unfold py_round.
  assert (Hp : 0 < 10 ^ nd) by (apply pow_lt; lra).
  assert (Hr : (round_half_even (x * 10 ^ nd) <= z * 10 ^ Z.of_nat nd)%Z).
  { apply round_half_even_upper. rewrite scaled_IZR. nra. }
  apply IZR_le in Hr. rewrite scaled_IZR in Hr.
  apply Rmult_le_reg_r with (10 ^ nd); [assumption|].
  unfold Rdiv. rewrite Rmult_assoc, Rinv_l by lra. lra.
Qed.

(** ** Pooling studies with positive standard errors *)

Section Pooling.

Variables g se : list R.
Hypothesis same_length : length g = length se.
Hypothesis nonempty : (1 <= length g)%nat.
Hypothesis positive : Forall (fun s => 0 < s) se.

Lemma w_positive : Forall (fun x => 0 < x) (DL.w se).
Proof.
  unfold DL.w. apply List.Forall_map. eapply List.Forall_impl; [|exact positive].
  intros s Hs. cbv beta. apply Rdiv_lt_0_compat; [lra|]. now apply pow_lt.
Qed.

Lemma w_length : length (DL.w se) = length g.
Proof. unfold DL.w. now rewrite length_map. Qed.

Lemma sum_w_positive : 0 < Rsum (DL.w se).
Proof.
  apply Rsum_pos; [|apply w_positive].
  intros E. apply (f_equal length) in E. rewrite w_length in E. cbn in E. lia.
Qed.

Lemma tau2_nonneg : 0 <= DL.tau2 g se.
Proof. unfold DL.tau2. apply Rmax_l. Qed.

Lemma w_re_positive : Forall (fun x => 0 < x) (DL.w_re g se).
Proof.
  unfold DL.w_re. apply List.Forall_map. eapply List.Forall_impl; [|exact positive].
  intros s Hs. cbv beta. pose proof tau2_nonneg.
  apply Rdiv_lt_0_compat; [lra|]. assert (0 < s ^ 2) by now apply pow_lt. lra.
Qed.

Lemma sum_w_re_positive : 0 < Rsum (DL.w_re g se).
Proof.
  apply Rsum_pos; [|apply w_re_positive].
  intros E. apply (f_equal length) in E. unfold DL.w_re in E.
  rewrite length_map, <- same_length in E. cbn in E. lia.
Qed.

Lemma se_pooled_positive : 0 < DL.se_pooled g se.
Proof.
  unfold DL.se_pooled.
  apply sqrt_lt_R0, Rdiv_lt_0_compat; [lra|apply sum_w_re_positive].
Qed.

Lemma w_fixed_eq : arr_recip (arr_sq (map Fin se)) = map Fin (DL.w se).
Proof.
  rewrite arr_sq_Fin, arr_recip_Fin.
  - f_equal. unfold DL.w. rewrite map_map. apply map_ext. intros s. f_equal. ring.
  - apply List.Forall_map. eapply List.Forall_impl; [|exact positive].
    intros s Hs. cbv beta. nra.
Qed.

Lemma w_re_eq :
  arr_recip (arr_adds (arr_sq (map Fin se)) (Fin (DL.tau2 g se))) =
  map Fin (DL.w_re g se).
Proof.
  rewrite arr_sq_Fin, arr_adds_Fin, arr_recip_Fin.
  - f_equal. unfold DL.w_re. rewrite !map_map. apply map_ext. intros s.
    f_equal. ring.
  - rewrite map_map. apply List.Forall_map.
    eapply List.Forall_impl; [|exact positive].
    intros s Hs. cbv beta. pose proof tau2_nonneg. nra.
Qed.

Lemma g_fixed_eq :
  xdiv (np_sum (arr_mul (map Fin (DL.w se)) (map Fin g)))
       (np_sum (map Fin (DL.w se))) =
  Fin (DL.g_fixed g se).
Proof.
  rewrite arr_mul_Fin, !np_sum_Fin, xdiv_Fin; [reflexivity|].
  pose proof sum_w_positive. lra.
Qed.

Lemma Q_eq :
  np_sum (arr_mul (map Fin (DL.w se))
                  (arr_sq (arr_subs (map Fin g) (Fin (DL.g_fixed g se))))) =
  Fin (DL.Q g se).
Proof.
  rewrite arr_subs_Fin, arr_sq_Fin, arr_mul_Fin, np_sum_Fin. unfold DL.Q.
  do 3 f_equal. rewrite map_map. apply map_ext. intros x. ring.
Qed.

Lemma c_eq :
  xsub (np_sum (map Fin (DL.w se)))
       (xdiv (np_sum (arr_sq (map Fin (DL.w se)))) (np_sum (map Fin (DL.w se)))) =
  Fin (DL.c se).
Proof.
  rewrite arr_sq_Fin, !np_sum_Fin, xdiv_Fin by (pose proof sum_w_positive; lra).
  rewrite xsub_Fin. unfold DL.c. do 4 f_equal. apply map_ext. intros x. ring.
Qed.

Lemma g_pooled_eq :
  xdiv (np_sum (arr_mul (map Fin (DL.w_re g se)) (map Fin g)))
       (np_sum (map Fin (DL.w_re g se))) =
  Fin (DL.g_pooled g se).
Proof.
  rewrite arr_mul_Fin, !np_sum_Fin, xdiv_Fin; [reflexivity|].
  pose proof sum_w_re_positive. lra.
Qed.

Lemma se_pooled_eq :
  xsqrt (xdiv (Fin 1) (np_sum (map Fin (DL.w_re g se)))) =
  Fin (DL.se_pooled g se).
Proof.
  pose proof sum_w_re_positive as H.
  rewrite np_sum_Fin, xdiv_Fin by lra. rewrite xsqrt_Fin; [reflexivity|].
  apply Rlt_le, Rdiv_lt_0_compat; lra.
Qed.

Lemma I2_eq :
  (if xlt (Fin 0) (Fin (DL.Q g se))
   then i <- pydiv (Fin (DL.Q g se - (DL.k g - 1))) (Fin (DL.Q g se)) ;;
        Ret (xmax0 (xmul i (Fin 100)))
   else Ret (Fin 0)) = Ret (Fin (DL.I2 g se)).
Proof.
  unfold DL.I2. cbn [xlt].
  destruct (Rlt_dec 0 (DL.Q g se)) as [HQ|HQ]; [|reflexivity].
  rewrite pydiv_Fin by lra. cbn [bind xmul]. now rewrite xmax0_Fin.
Qed.

Hypothesis studies : (2 <= length g)%nat.

Lemma c_positive : 0 < DL.c se.
Proof.
  unfold DL.c. pose proof sum_w_positive as Hs.
  pose proof (Rsum_squares (DL.w se) w_positive) as Hsq.
  rewrite w_length in Hsq. specialize (Hsq studies).
  replace (map (fun x => x ^ 2) (DL.w se)) with (map (fun x => x * x) (DL.w se))
    by (apply map_ext; intros; ring).
  set (S := Rsum (DL.w se)) in *. set (S2 := Rsum _) in *.
  apply Rmult_lt_reg_r with S; [assumption|].
  unfold Rdiv.
  rewrite Rmult_0_l, Rmult_minus_distr_r, Rmult_assoc, Rinv_l by lra. lra.
Qed.

Lemma k_minus_1 : 1 <= DL.k g - 1.
Proof.
  unfold DL.k. assert (2 <= INR (length g)); [|lra].
  replace 2 with (INR 2) by reflexivity. now apply le_INR.
Qed.

Lemma I2_bounds : 0 <= DL.I2 g se <= 100.
Proof.
  unfold DL.I2. destruct (Rlt_dec 0 (DL.Q g se)) as [HQ|HQ]; [|lra].
  split; [apply Rmax_l|]. apply Rmax_lub; [lra|].
  pose proof k_minus_1.
  assert ((DL.Q g se - (DL.k g - 1)) / DL.Q g se <= 1); [|lra].
  apply Rmult_le_reg_r with (DL.Q g se); [assumption|].
  unfold Rdiv. rewrite Rmult_assoc, Rinv_l by lra. lra.
Qed.

Variable scipy_stats : option ((xfloat -> Z -> xfloat) * (xfloat -> xfloat)).

Lemma random_effects_meta_DL :
  exists m,
    Report.random_effects_meta scipy_stats (map Fin g) (map Fin se)
      = Ret (Report.Pooled m) /\
    Report.k m = length g /\
    Report.df_Q m = (Z.of_nat (length g) - 1)%Z /\
    Report.Q m = Fin (py_round 3 (DL.Q g se)) /\
    Report.tau2 m = Fin (py_round 4 (DL.tau2 g se)) /\
    Report.g_pooled m = Fin (py_round 4 (DL.g_pooled g se)) /\
    Report.se_pooled m = Fin (py_round 4 (DL.se_pooled g se)) /\
    Report.I2 m = Fin (py_round 1 (DL.I2 g se)).
Proof.
  unfold Report.random_effects_meta. rewrite length_map.
  assert (Hk : exists n, length g = S n) by (exists (pred (length g)); lia).
  destruct Hk as [n Hk]. rewrite Hk. cbv iota. rewrite <- Hk. cbv zeta.
  rewrite w_fixed_eq, g_fixed_eq, Q_eq, c_eq.
  change (Fin (INR (length g) - 1)) with (Fin (DL.k g - 1)).
  rewrite xsub_Fin, pydiv_Fin by (pose proof c_positive; lra).
  cbn [bind]. rewrite xmax0_Fin. fold (DL.tau2 g se).
  rewrite w_re_eq, g_pooled_eq, se_pooled_eq, I2_eq. cbn [bind].
  destruct scipy_stats as [[chi2_sf norm_sf]|].
  - rewrite pydiv_Fin by (pose proof se_pooled_positive; lra). cbn [bind].
    eexists. split; [reflexivity|]. repeat split.
  - cbn [bind]. eexists. split; [reflexivity|]. repeat split.
Qed.

Lemma funnel_pooled :
  Funnel.random_effects_meta (map Fin g) (map Fin se) =
  Some {| Funnel.pooled_g := Fin (DL.g_pooled g se);
          Funnel.se_pooled := Fin (DL.se_pooled g se);
          Funnel.ci_lower := Fin (DL.g_pooled g se - 1.96 * DL.se_pooled g se);
          Funnel.ci_upper := Fin (DL.g_pooled g se + 1.96 * DL.se_pooled g se);
          Funnel.Q := Fin (DL.Q g se);
          Funnel.df := (Z.of_nat (length g) - 1)%Z;
          Funnel.I2 := Fin (DL.I2 g se);
          Funnel.tau2 := Fin (DL.tau2 g se);
          Funnel.k := length g |}.
Proof.
  unfold Funnel.random_effects_meta. rewrite length_map.
  assert (Hk : exists n, length g = S n) by (exists (pred (length g)); lia).
  destruct Hk as [n Hk]. rewrite Hk. cbv iota. rewrite <- Hk. cbv zeta.
  rewrite w_fixed_eq, g_fixed_eq, Q_eq, c_eq.
  change (Fin (INR (length g) - 1)) with (Fin (DL.k g - 1)).
  rewrite xsub_Fin, xdiv_Fin by (pose proof c_positive; lra).
  rewrite xmax0_Fin. fold (DL.tau2 g se).
  rewrite w_re_eq, g_pooled_eq, se_pooled_eq.
  f_equal. f_equal.
  unfold DL.I2. cbn [xlt]. destruct (Rlt_dec 0 (DL.Q g se)); [|reflexivity].
  rewrite xdiv_Fin by lra. cbn [xmul]. now rewrite xmax0_Fin.
Qed.

End Pooling.

(** C1.  For k >= 2 effect sizes with strictly positive standard errors,
    [random_effects_meta] of the report generator returns a result whose
    Q, tau2, pooled estimate, pooled standard error and I2 are the
    DerSimonian-Laird quantities rounded to 3, 4, 4, 4 and 1 decimals;
    tau2 is never negative and I2 lies in [0, 100], before and after the
    rounding. *)
Theorem C1_random_effects_meta_is_DerSimonian_Laird
  (scipy_stats : option ((xfloat -> Z -> xfloat) * (xfloat -> xfloat)))
  (g se : list R) :
  length g = length se -> (2 <= length g)%nat -> Forall (fun s => 0 < s) se ->
  exists m,
    Report.random_effects_meta scipy_stats (map Fin g) (map Fin se)
      = Ret (Report.Pooled m) /\
    Report.k m = length g /\
    Report.df_Q m = (Z.of_nat (length g) - 1)%Z /\
    Report.Q m = Fin (py_round 3 (DL.Q g se)) /\
    Report.tau2 m = Fin (py_round 4 (DL.tau2 g se)) /\
    Report.g_pooled m = Fin (py_round 4 (DL.g_pooled g se)) /\
    Report.se_pooled m = Fin (py_round 4 (DL.se_pooled g se)) /\
    Report.I2 m = Fin (py_round 1 (DL.I2 g se)) /\
    0 <= DL.tau2 g se /\ 0 <= py_round 4 (DL.tau2 g se) /\
    0 <= DL.I2 g se <= 100 /\ 0 <= py_round 1 (DL.I2 g se) <= 100.
Proof.
  intros Hlen Hk Hpos.
  assert (Hne : (1 <= length g)%nat) by lia.
  destruct (random_effects_meta_DL g se Hlen Hne Hpos Hk scipy_stats)
    as (m & Hm & H1 & H2 & H3 & H4 & H5 & H6 & H7).
  pose proof (tau2_nonneg g se) as Ht.
  pose proof (I2_bounds g se Hk) as [Hi0 Hi1].
  exists m. repeat (split; [assumption|]).
  split; [apply (py_round_lower 4 0 _ Ht)|].
  split; [split; assumption|].
  split; [apply (py_round_lower 1 0 _ Hi0)|apply (py_round_upper 1 100 _ Hi1)].
Qed.

Lemma C1_two_studies :
  length two_effects = length two_errors /\
  (2 <= length two_effects)%nat /\
  Forall (fun s => 0 < s) two_errors /\
  exists m,
    Report.random_effects_meta None (map Fin two_effects) (map Fin two_errors)
      = Ret (Report.Pooled m) /\
    Report.tau2 m = Fin (py_round 4 (DL.tau2 two_effects two_errors)).
Proof.
  assert (H1 : length two_effects = length two_errors) by reflexivity.
  assert (H2 : (2 <= length two_effects)%nat) by (simpl; lia).
  assert (H3 : Forall (fun s => 0 < s) two_errors) by (repeat constructor; lra).
  split; [exact H1|]. split; [exact H2|]. split; [exact H3|].
  destruct (C1_random_effects_meta_is_DerSimonian_Laird
              None two_effects two_errors H1 H2 H3)
    as (m & Hm & _ & _ & _ & Ht & _).
  exists m. split; assumption.
Defined.

(** ** A single study *)

(** Decimal literals are [Q2R] of a fraction; [field] wants the quotient. *)
Ltac real_field := unfold Q2R; cbn [Qnum Qden]; field.

Lemma one_study_c : DL.c one_error = 0.
Proof. unfold DL.c, DL.w, one_error. cbn [map Rsum fold_right]. real_field. Qed.

Lemma one_study_Q : DL.Q one_effect one_error = 0.
Proof.
  unfold DL.Q, DL.g_fixed, DL.w, one_effect, one_error.
  cbn [map zip_with Rsum fold_right]. real_field.
Qed.

Lemma one_study_tau2 : DL.tau2 one_effect one_error = 0.
Proof.
  unfold DL.tau2. rewrite one_study_c, one_study_Q. unfold Rdiv.
  rewrite Rinv_0, Rmult_0_r. apply Rmax_left. lra.
Qed.

(** C4.  On the single study g = 0.5, se = 1.0 the report generator's
    [random_effects_meta] raises ZeroDivisionError: c is 0.0 and the
    quotient for tau2 is taken on Python floats.  The same function of
    the funnel-plot module divides numpy floats, gets NaN, clamps tau2 to
    0 and returns the study's own effect size. *)
Theorem C4_single_study_raises
  (scipy_stats : option ((xfloat -> Z -> xfloat) * (xfloat -> xfloat))) :
  Report.random_effects_meta scipy_stats (map Fin one_effect) (map Fin one_error)
    = Raise ZeroDivisionError /\
  exists p,
    Funnel.random_effects_meta (map Fin one_effect) (map Fin one_error) = Some p /\
    Funnel.tau2 p = Fin 0 /\ Funnel.pooled_g p = Fin 0.5.
Proof.
  assert (Hlen : length one_effect = length one_error) by reflexivity.
  assert (Hne : (1 <= length one_effect)%nat) by (cbn; lia).
  assert (Hpos : Forall (fun s => 0 < s) one_error) by (repeat constructor; lra).
  split.
  - unfold Report.random_effects_meta. rewrite length_map.
    change (length one_effect) with 1%nat. cbv iota zeta.
    rewrite w_fixed_eq, (g_fixed_eq one_effect), Q_eq, (c_eq one_effect)
      by assumption.
    rewrite one_study_c. unfold pydiv.
    destruct (Req_dec_T 0 0); [reflexivity|contradiction].
  - unfold Funnel.random_effects_meta. rewrite length_map.
    change (length one_effect) with 1%nat. cbv iota zeta.
    rewrite w_fixed_eq, (g_fixed_eq one_effect), Q_eq, (c_eq one_effect)
      by assumption.
    rewrite one_study_c, one_study_Q.
    replace (xmax0 (xdiv (xsub (Fin 0) (Fin (INR 1 - 1))) (Fin 0)))
      with (Fin (DL.tau2 one_effect one_error)).
    2:{ rewrite one_study_tau2. cbn [xsub xadd xneg xdiv INR].
        destruct (Req_dec_T 0 0); [|contradiction].
        unfold inf_of_sign.
        destruct (Rlt_dec 0 (0 + - (1 - 1))); [lra|].
        destruct (Rlt_dec (0 + - (1 - 1)) 0); [lra|].
        unfold xmax0. reflexivity. }
    rewrite w_re_eq, (g_pooled_eq one_effect), (se_pooled_eq one_effect)
      by assumption.
    eexists. split; [reflexivity|]. cbn [Funnel.tau2 Funnel.pooled_g].
    split; [now rewrite one_study_tau2|]. f_equal.
    unfold DL.g_pooled, DL.w_re. rewrite one_study_tau2.
    unfold one_effect, one_error.
    cbn [map zip_with Rsum fold_right]. real_field.
Qed.

(** ** Trim-and-fill on four studies *)

Lemma four_g_fixed : DL.g_fixed four_effects four_errors = 17 / 70.
Proof.
  unfold DL.g_fixed, DL.w, four_effects, four_errors.
  cbn [map zip_with Rsum fold_right]. real_field.
Qed.

Lemma four_Q : DL.Q four_effects four_errors = 223 / 350.
Proof.
  unfold DL.Q. rewrite four_g_fixed. unfold DL.w, four_effects, four_errors.
  cbn [map zip_with Rsum fold_right]. real_field.
Qed.

Lemma four_c : DL.c four_errors = 30 / 7.
Proof.
  unfold DL.c, DL.w, four_errors. cbn [map Rsum fold_right]. real_field.
Qed.

Lemma four_tau2 : DL.tau2 four_effects four_errors = 0.
Proof.
  unfold DL.tau2. rewrite four_Q, four_c. unfold DL.k, four_effects.
  cbn [length INR]. apply Rmax_left. lra.
Qed.

Lemma four_g_pooled : DL.g_pooled four_effects four_errors = 17 / 70.
Proof.
  unfold DL.g_pooled, DL.w_re. rewrite four_tau2.
  unfold four_effects, four_errors.
  cbn [map zip_with Rsum fold_right]. real_field.
Qed.

Lemma four_center :
  Funnel.center (map Fin four_effects) (map Fin four_errors) = Fin (17 / 70).
Proof.
  unfold Funnel.center. rewrite funnel_pooled.
  - cbn [Funnel.pooled_g]. now rewrite four_g_pooled.
  - reflexivity.
  - cbn. lia.
  - repeat constructor; lra.
  - cbn. lia.
Qed.

(** Run a sort on concrete values, deciding each comparison. *)
Ltac sort_eval :=
  repeat (cbn [Funnel.argsort Funnel.np_sort Funnel.sort_indexed
               Funnel.insert_by Funnel.xleb xlt xabs xneg xsub xadd negb
               zip zip_with seq length fold_left map fst snd];
          repeat match goal with
          | |- context [Rabs ?a] =>
              first [rewrite (Rabs_right a) by lra
                    |rewrite (Rabs_left a) by lra]
          | |- context [Rlt_dec ?a ?b] =>
              destruct (Rlt_dec a b); [try (exfalso; lra)|try (exfalso; lra)]
          end).

Lemma four_argsort :
  Funnel.argsort (arr_subs (map Fin four_effects) (Fin (17 / 70)))
  = [0; 1; 2; 3]%nat.
Proof. unfold four_effects, arr_subs. sort_eval. reflexivity. Qed.

Lemma four_estimate :
  Funnel.estimate_k0 (map Fin four_effects) (map Fin four_errors) "left" = 1%Z.
Proof.
  unfold Funnel.estimate_k0. rewrite four_center.
  change (String.eqb "left" "left") with true. cbv iota.
  rewrite four_argsort.
  unfold Funnel.T_n. change (String.eqb "left" "left") with true.
  change (String.eqb "left" "right") with false.
  unfold four_effects, arr_subs.
  cbn [map length seq fold_left Funnel.position Funnel.item nth Nat.eqb
       andb orb xsub xadd xneg xlt].
  repeat match goal with
  | |- context [Rlt_dec ?a ?b] =>
      destruct (Rlt_dec a b); [try (exfalso; lra)|try (exfalso; lra)]
  end.
  reflexivity.
Qed.

Lemma four_iterate :
  Funnel.iterate (map Fin four_effects) (map Fin four_errors) "left" 20 (-1) 0
  = (1%Z, 1%Z).
Proof.
  do 3 (cbn [Funnel.iterate]; rewrite ?four_estimate;
        cbn [Z.eqb Z.geb Z.compare length map four_effects Z.of_nat
             Pos.of_succ_nat Pos.succ Pos.eqb Pos.compare Pos.compare_cont]).
  reflexivity.
Qed.

Lemma four_sorted : Funnel.np_sort (map Fin four_effects) = map Fin four_effects.
Proof. unfold four_effects. sort_eval. reflexivity. Qed.

Lemma four_nearest :
  Funnel.argsort (map xabs (arr_subs (map Fin four_effects) (Fin (17 / 70))))
  = [2; 3; 1; 0]%nat.
Proof. unfold four_effects, arr_subs. sort_eval. reflexivity. Qed.

(** C6.  On g = [-0.2, -0.1, 0, 0.5], se = [1, 1, 1, 0.5], side 'left',
    [trim_and_fill] converges to one imputed study.  The study it
    mirrors is the one at 0.5, the fourth, whose standard error is 0.5;
    the standard error it gives the mirror image is 1, that of the study
    closest to the pooled centre 17/70. *)
Theorem C6_imputed_se_not_matched :
  Funnel.k0_imputed
    (Funnel.trim_and_fill (map Fin four_effects) (map Fin four_errors) "left" 20)
    = 1%Z /\
  Funnel.converged
    (Funnel.trim_and_fill (map Fin four_effects) (map Fin four_errors) "left" 20)
    = true /\
  Funnel.imputed_g (map Fin four_effects) (map Fin four_errors) "left" 1
    = [Fin (2 * (17 / 70) - 0.5)] /\
  Funnel.item (map Fin four_effects) 3 = Fin 0.5 /\
  Funnel.item (map Fin four_errors) 3 = Fin 0.5 /\
  Funnel.imputed_se (map Fin four_effects) (map Fin four_errors) 1 = [Fin 1].
Proof.
  unfold Funnel.trim_and_fill. rewrite four_iterate.
  cbn [Funnel.k0_imputed Funnel.converged Z.eqb Pos.eqb].
  split; [reflexivity|]. split; [reflexivity|].
  split; [|split; [reflexivity|split; [reflexivity|]]].
  - unfold Funnel.imputed_g. rewrite four_center, four_sorted.
    change (String.eqb "left" "left") with true. reflexivity.
  - unfold Funnel.imputed_se. rewrite four_center, four_nearest. reflexivity.
Qed.

(** ** The calculator *)

Section CalculatorProperties.

Import Calc.

Lemma int_truediv_Ret a b : b <> 0%Z -> int_truediv a b = Ret (IZR a / IZR b).
Proof. intros H. unfold int_truediv. now destruct (Z.eq_dec b 0%Z). Qed.

Lemma J_code n1 n2 : 1 - IZR 3 / IZR (4 * (n1 + n2 - 2) - 1) = J n1 n2.
Proof. unfold J. now rewrite minus_IZR, mult_IZR, minus_IZR, plus_IZR. Qed.

Lemma num_div_int a n : n <> 0%Z -> num_div a (of_int n) = Ret (over a n).
Proof.
  intros H. unfold num_div, of_int, over. destruct a as [x|x]; [|reflexivity].
  destruct (Req_dec_T (IZR n) 0) as [E|E]; [|reflexivity].
  apply eq_IZR_R0 in E. contradiction.
Qed.

Lemma cohens_d_returns d n1 n2 :
  (n1 * n2 <> 0)%Z -> (n1 + n2 <> 0)%Z ->
  cohens_d_to_hedges_g d n1 n2 =
  Ret (num_mul d (Py (J n1 n2)), se_of (num_mul d (Py (J n1 n2))) n1 n2).
Proof.
  intros H12 Hs. unfold cohens_d_to_hedges_g.
  rewrite int_truediv_Ret by lia. cbn [bind]. rewrite J_code.
  rewrite int_truediv_Ret by assumption. cbn [bind].
  rewrite num_div_int by lia. reflexivity.
Qed.

Lemma cohens_d_raises d n1 n2 :
  (n1 * n2 = 0)%Z -> cohens_d_to_hedges_g d n1 n2 = Raise ZeroDivisionError.
Proof.
  intros H. unfold cohens_d_to_hedges_g.
  rewrite int_truediv_Ret by lia. cbn [bind].
  unfold int_truediv. rewrite H. reflexivity.
Qed.

Lemma means_through_pooled_sd m1 m2 sd1 sd2 n1 n2 :
  (2 < n1 + n2)%Z ->
  means_to_hedges_g (Py m1) (Py m2) (Py sd1) (Py sd2) n1 n2 =
  cohens_d_to_hedges_g
    (Np (xdiv (Fin (m1 - m2)) (pooled_sd sd1 sd2 n1 n2))) n1 n2.
Proof.
  intros Hn. unfold means_to_hedges_g. rewrite num_div_int by lia. cbn [bind].
  cbn [over num_add num_mul num_pow2 of_int np_sqrt val num_sub num_div bind].
  unfold pooled_sd.
  replace ((IZR (n1 - 1) * (sd1 * sd1) + IZR (n2 - 1) * (sd2 * sd2))
           / IZR (n1 - 1 + (n2 - 1)))
    with (((IZR n1 - 1) * sd1 ^ 2 + (IZR n2 - 1) * sd2 ^ 2)
          / (IZR n1 + IZR n2 - 2)); [reflexivity|].
  rewrite plus_IZR, !minus_IZR. field.
  replace (IZR n1 - 1 + (IZR n2 - 1)) with (IZR (n1 + n2 - 2))
    by (rewrite minus_IZR, plus_IZR; lra).
  apply not_0_IZR. lia.
Qed.

(** C5.  For n1 + n2 > 2: the t path is the d path on
    t * sqrt((n1+n2)/(n1*n2)), the F path is the t path on sqrt(F), and the
    means path is the d path on (m1 - m2)/pooled_sd.  When neither group
    is empty each of the four returns the effect size d * J with
    J = 1 - 3/(4*(n1+n2-2) - 1); when one is, each raises
    ZeroDivisionError. *)
Theorem C5_correction_on_every_path (d t f m1 m2 sd1 sd2 : R) (n1 n2 : Z) :
  (2 < n1 + n2)%Z ->
  t_to_hedges_g (Py t) n1 n2 =
    (q <- int_truediv (n1 + n2) (n1 * n2) ;;
     cohens_d_to_hedges_g (num_mul (Py t) (np_sqrt (Py q))) n1 n2) /\
  f_to_hedges_g (Py f) n1 n2 = t_to_hedges_g (np_sqrt (Py f)) n1 n2 /\
  means_to_hedges_g (Py m1) (Py m2) (Py sd1) (Py sd2) n1 n2 =
    cohens_d_to_hedges_g
      (Np (xdiv (Fin (m1 - m2)) (pooled_sd sd1 sd2 n1 n2))) n1 n2 /\
  ((n1 * n2 <> 0)%Z ->
   corrects n1 n2 (Py d) (cohens_d_to_hedges_g (Py d) n1 n2) /\
   corrects n1 n2
     (num_mul (Py t) (np_sqrt (Py (IZR (n1 + n2) / IZR (n1 * n2)))))
     (t_to_hedges_g (Py t) n1 n2) /\
   corrects n1 n2
     (num_mul (np_sqrt (Py f)) (np_sqrt (Py (IZR (n1 + n2) / IZR (n1 * n2)))))
     (f_to_hedges_g (Py f) n1 n2) /\
   corrects n1 n2
     (Np (xdiv (Fin (m1 - m2)) (pooled_sd sd1 sd2 n1 n2)))
     (means_to_hedges_g (Py m1) (Py m2) (Py sd1) (Py sd2) n1 n2)) /\
  ((n1 * n2 = 0)%Z ->
   cohens_d_to_hedges_g (Py d) n1 n2 = Raise ZeroDivisionError /\
   t_to_hedges_g (Py t) n1 n2 = Raise ZeroDivisionError /\
   f_to_hedges_g (Py f) n1 n2 = Raise ZeroDivisionError /\
   means_to_hedges_g (Py m1) (Py m2) (Py sd1) (Py sd2) n1 n2
     = Raise ZeroDivisionError).
Proof.
  intros Hn.
  pose proof (means_through_pooled_sd m1 m2 sd1 sd2 n1 n2 Hn) as Hmeans.
  split; [reflexivity|]. split; [reflexivity|]. split; [exact Hmeans|]. split.
  - intros H12.
    assert (Hq : int_truediv (n1 + n2) (n1 * n2)
                 = Ret (IZR (n1 + n2) / IZR (n1 * n2)))
      by now apply int_truediv_Ret.
    unfold corrects. repeat split.
    + eexists. apply cohens_d_returns; [assumption|lia].
    + eexists. unfold t_to_hedges_g. rewrite Hq. cbn [bind].
      apply cohens_d_returns; [assumption|lia].
    + eexists. unfold f_to_hedges_g, t_to_hedges_g. rewrite Hq. cbn [bind].
      apply cohens_d_returns; [assumption|lia].
    + eexists. rewrite Hmeans. apply cohens_d_returns; [assumption|lia].
  - intros H0. repeat split.
    + now apply cohens_d_raises.
    + unfold t_to_hedges_g, int_truediv. now rewrite H0.
    + unfold f_to_hedges_g, t_to_hedges_g, int_truediv. now rewrite H0.
    + rewrite Hmeans. now apply cohens_d_raises.
Qed.

Lemma C5_groups_of_50_and_48 :
  (2 < 50 + 48)%Z /\
  means_to_hedges_g (Py 85.5) (Py 78.2) (Py 12.3) (Py 13.1) 50 48 =
    cohens_d_to_hedges_g
      (Np (xdiv (Fin (85.5 - 78.2)) (pooled_sd 12.3 13.1 50 48))) 50 48 /\
  corrects 50 48 (Np (xdiv (Fin (85.5 - 78.2)) (pooled_sd 12.3 13.1 50 48)))
    (means_to_hedges_g (Py 85.5) (Py 78.2) (Py 12.3) (Py 13.1) 50 48).
Proof.
  assert (H : (2 < 50 + 48)%Z) by lia.
  split; [exact H|].
  destruct (C5_correction_on_every_path 0.65 2.45 6 85.5 78.2 12.3 13.1 50 48 H)
    as (_ & _ & Hmeans & Hreturns & _).
  split; [exact Hmeans|].
  destruct Hreturns as (_ & _ & _ & Hg); [lia|exact Hg].
Defined.

(** *** Dispatch and failure *)

Lemma convert_first_match data :
  convert data =
  match first_match data with
  | Some s => c <- conversion data s ;; Ret (Some c)
  | None => Ret None
  end.
Proof.
  unfold convert, first_match, priority. cbn [List.find recognizes].
  repeat match goal with
  | |- context [if ?b then _ else _] => destruct b; [reflexivity|]
  end.
  reflexivity.
Qed.





Lemma extract_cases data :
  (first_match data = None /\
   extract_effect_size data
     = Ret (append_issue initial_result NoRecognizedFormat)) \/
  (exists e, convert data = Raise e /\
   extract_effect_size data
     = Ret (append_issue initial_result (ExtractionFailed e))) \/
  (exists c e, convert data = Ret (Some c) /\
   validate_step data (fst (fst c)) (snd (fst c)) = Raise e /\
   extract_effect_size data =
     Ret (append_issue (update_conversion initial_result c)
                       (ExtractionFailed e))) \/
  (exists c v, validated data c v /\
   extract_effect_size data =
     Ret (update_validation (update_conversion initial_result c) v)).
Proof.
  unfold extract_effect_size, validated, handler.
  pose proof (convert_first_match data) as Hc.
  destruct (convert data) as [[c|]|e] eqn:E.
  - right; right. cbn [update_conversion r_g r_se].
    destruct (validate_step data (fst (fst c)) (snd (fst c))) as [v|e] eqn:Ev.
    + right. exists c, v. auto.
    + left. exists c, e. auto.
  - left. split; [|reflexivity].
    destruct (first_match data); [|reflexivity].
    destruct (conversion data s); discriminate.
  - right; left. exists e. auto.
Qed.



(** C10.  A run of [extract_effect_size] ends in one of three ways: no
    shape is recognized, an exception is caught, or the validation
    completes.  In the first two the result is invalid and has no
    warnings, ci_95, n1 or n2 key; g, se and method are null unless the
    conversion had completed before the exception.  In the third the
    result carries all four keys, with the values of the validation. *)
Theorem C10_failed_results_lack_validation_keys (data : gmap string pyval) :
  exists r, extract_effect_size data = Ret r /\
  (first_match data = None \/ (exists e, caught data e) \/
   (exists c v, validated data c v)) /\
  (first_match data = None \/ (exists e, caught data e) ->
   r_valid r = false /\
   r_warnings r = None /\ r_ci_95 r = None /\ r_n1 r = None /\ r_n2 r = None) /\
  (first_match data = None \/ (exists e, convert data = Raise e) ->
   r_g r = None /\ r_se r = None /\ r_method r = None) /\
  (forall c v, validated data c v ->
   r_g r <> None /\ r_se r <> None /\ r_method r <> None /\
   r_warnings r = Some (v_warnings v) /\ r_ci_95 r = Some (v_ci_95 v) /\
   r_n1 r = Some (v_n1 v) /\ r_n2 r = Some (v_n2 v)).
Proof.
  pose proof (convert_first_match data) as Hfm.
  destruct (extract_cases data) as
    [[Hn ->]|[(e & He & ->)|[(c & e & Hc & He & ->)|(c & v & [Hc Hv] & ->)]]];
    eexists; (split; [reflexivity|]).
  - split; [auto|]. split; [intros _; repeat split|].
    split; [intros _; repeat split|].
    intros c v [Hc _]. rewrite Hfm, Hn in Hc. discriminate.
  - split; [right; left; exists e; left; assumption|].
    split; [intros _; repeat split|]. split; [intros _; repeat split|].
    intros c v [Hc _]. congruence.
  - split; [right; left; exists e; right; exists c; split; assumption|].
    split; [intros _; repeat split|]. split.
    + intros [Hn|(e' & He')]; [rewrite Hfm, Hn in Hc|]; congruence.
    + intros c' v' [Hc' Hv']. congruence.
  - split; [right; right; exists c, v; split; assumption|]. split; [|split].
    + intros [Hn|(e & [He|(c' & Hc' & He)])].
      * rewrite Hfm, Hn in Hc. discriminate.
      * congruence.
      * rewrite Hc in Hc'. injection Hc' as <-. congruence.
    + intros [Hn|(e & He)]; [rewrite Hfm, Hn in Hc|]; congruence.
    + intros c' v' [Hc' Hv']. rewrite Hc in Hc'. injection Hc' as <-.
      rewrite Hv in Hv'. injection Hv' as <-.
      split; [discriminate|]. split; [discriminate|]. split; [discriminate|].
      repeat split.
Qed.

(** *** The sign of the standard error *)
















(** *** Concrete records *)

Ltac sqrt_fact x :=
  lazymatch goal with
  | _ : 0 <= sqrt x |- _ => fail
  | _ => pose proof (sqrt_pos x)
  end.

Ltac sqrt_facts :=
  repeat match goal with
  | |- context [sqrt ?x] => sqrt_fact x
  | _ : context [sqrt ?x] |- _ => sqrt_fact x
  end.

Ltac by_lra := exfalso; sqrt_facts; lra.

(** Decide the comparisons of reals that block an evaluation. *)
Ltac decide_reals :=
  repeat match goal with
  | |- context [Rabs ?a] =>
      first [rewrite (Rabs_right a) by lra | rewrite (Rabs_left a) by lra]
  | |- context [Rmin ?a ?b] =>
      first [rewrite (Rmin_left a b) by lra | rewrite (Rmin_right a b) by lra]
  | |- context [Rlt_dec ?a ?b] =>
      destruct (Rlt_dec a b); [try by_lra|try by_lra]
  | |- context [Rle_dec ?a ?b] =>
      destruct (Rle_dec a b); [try by_lra|try by_lra]
  | |- context [Req_dec_T ?a ?b] =>
      destruct (Req_dec_T a b); [try by_lra|try by_lra]
  end.

Ltac calc_unfold :=
  unfold extract_effect_size, convert, reported, case_direct, case_cohens_d,
    case_means, case_prepost, case_t, case_f, case_r, float_at, int_at,
    getitem, get, contains, validate_step, validate_effect_size, handler.

Ltac calc_step :=
  cbn [bind is_none negb andb orb forallb py_float py_int py_number
       py_floordiv2 num_is_zero num_lt num_abs num_mul num_add num_sub num_div
       num_pow2 np_sqrt of_int val xlt xabs xmul xadd xsub xneg xdiv xsqrt
       update_conversion update_validation append_issue initial_result
       r_g r_se r_method r_valid r_issues fst snd app].

(** Rewrite with the lookups of a concrete input, once each is known. *)
Ltac lookups :=
  repeat match goal with
  | H : ?m !! ?k = _ |- context [?m !! ?k] => rewrite H
  end.

Ltac knowing m k v := assert (m !! k%string = v) by reflexivity.

Ltac calc_eval :=
  repeat progress (try calc_unfold; lookups; calc_step; decide_reals).


(** A Cohen's d without n1: the KeyError is caught. *)
Example missing_sizes_are_caught :
  extract_effect_size d_without_sizes =
  Ret (append_issue initial_result (ExtractionFailed (KeyError "n1"))).
Proof.
  knowing d_without_sizes "hedges_g" (@None pyval).
  knowing d_without_sizes "cohens_d" (Some (VFloat 0.65)).
  knowing d_without_sizes "n1" (@None pyval).
  calc_eval. reflexivity.
Qed.


(** ** Edge cases *)

Lemma cohens_d_cancelling d n1 n2 :
  (n1 * n2 <> 0)%Z -> (n1 + n2 = 0)%Z ->
  cohens_d_to_hedges_g (Py d) n1 n2 = Raise ZeroDivisionError.
Proof.
  intros H12 Hs. unfold cohens_d_to_hedges_g.
  rewrite int_truediv_Ret by lia. cbn [bind].
  rewrite int_truediv_Ret by assumption. cbn [bind].
  rewrite Hs. cbn [num_mul num_pow2 of_int num_div Z.mul].
  destruct (Req_dec_T (IZR (2 * 0)) 0) as [_|E]; [reflexivity|].
  exfalso. apply E. reflexivity.
Qed.

(** X1.  [cohens_d_to_hedges_g] on a Python float d raises ZeroDivisionError
    exactly when n1 * n2 = 0 or n1 + n2 = 0, whatever the signs of the sizes.
    For every other pair of sizes it returns g = d * J and the standard error
    of g, with J = 1 - 3 / (4 (n1 + n2 - 2) - 1). *)
Theorem cohens_d_fails_exactly_on_empty_or_cancelling_groups
  (d : R) (n1 n2 : Z) :
  ((n1 * n2 = 0 \/ n1 + n2 = 0)%Z ->
   cohens_d_to_hedges_g (Py d) n1 n2 = Raise ZeroDivisionError) /\
  ((n1 * n2 <> 0)%Z -> (n1 + n2 <> 0)%Z ->
   cohens_d_to_hedges_g (Py d) n1 n2 =
   Ret (Py (d * J n1 n2), se_of (Py (d * J n1 n2)) n1 n2)).
Proof.
  split.
  - intros [H|H]; [now apply cohens_d_raises|].
    destruct (Z.eq_dec (n1 * n2)%Z 0%Z); [now apply cohens_d_raises|].
    now apply cohens_d_cancelling.
  - intros H12 Hs. now rewrite cohens_d_returns.
Qed.

Lemma J_from_three n1 n2 : (3 <= n1 + n2)%Z -> 0 <= J n1 n2 < 1.
Proof.
  intros H. apply IZR_le in H. rewrite plus_IZR in H. unfold J.
  set (t := 4 * (IZR n1 + IZR n2 - 2) - 1).
  assert (Ht : 3 <= t) by (subst t; lra).
  assert (0 < / t) by (apply Rinv_0_lt_compat; lra).
  assert (3 / t <= 1).
  { apply Rmult_le_reg_r with t; [lra|]. unfold Rdiv.
    rewrite Rmult_assoc, Rinv_l by lra. lra. }
  unfold Rdiv in *. split; nra.
Qed.

Lemma J_up_to_two n1 n2 : (n1 + n2 <= 2)%Z -> 1 < J n1 n2.
Proof.
  intros H. apply IZR_le in H. rewrite plus_IZR in H. unfold J.
  set (t := 4 * (IZR n1 + IZR n2 - 2) - 1).
  assert (Ht : t <= -1) by (subst t; lra).
  assert (0 < / - t) by (apply Rinv_0_lt_compat; lra).
  replace (3 / t) with (- (3 * / - t)) by (field; lra). nra.
Qed.

Lemma J_at_three n1 n2 : (n1 + n2 = 3)%Z -> J n1 n2 = 0.
Proof.
  intros H. apply (f_equal IZR) in H. rewrite plus_IZR in H. unfold J.
  rewrite H. field.
Qed.

Lemma J_at_two n1 n2 : (n1 + n2 = 2)%Z -> J n1 n2 = 4.
Proof.
  intros H. apply (f_equal IZR) in H. rewrite plus_IZR in H. unfold J.
  rewrite H. field.
Qed.

(** X2.  When [cohens_d_to_hedges_g] returns on a Python float d, the
    corrected g is a Python float.  From three participants in all it is no
    larger in magnitude than d, and smaller when d is not zero.  With exactly
    three participants g is 0 whatever d is, with exactly two it is 4 d, and
    up to two participants the magnitude does not shrink. *)
Theorem correction_shrinks_from_three_participants
  (d : R) (n1 n2 : Z) (g se : num) :
  cohens_d_to_hedges_g (Py d) n1 n2 = Ret (g, se) ->
  exists x, g = Py x /\
    ((3 <= n1 + n2)%Z -> Rabs x <= Rabs d /\ (d <> 0 -> Rabs x < Rabs d)) /\
    ((n1 + n2 = 3)%Z -> x = 0) /\
    ((n1 + n2 = 2)%Z -> x = 4 * d) /\
    ((n1 + n2 <= 2)%Z -> Rabs d <= Rabs x).
Proof.
  intros H.
  destruct (Z.eq_dec (n1 * n2)%Z 0%Z) as [E|E].
  { rewrite cohens_d_raises in H by assumption. discriminate. }
  destruct (Z.eq_dec (n1 + n2)%Z 0%Z) as [E'|E'].
  { rewrite cohens_d_cancelling in H by assumption. discriminate. }
  rewrite cohens_d_returns in H by assumption. injection H as <- _.
  exists (d * J n1 n2). split; [reflexivity|].
  rewrite Rabs_mult. pose proof (Rabs_pos d) as Hd.
  split; [|split; [|split]].
  - intros Hs. destruct (J_from_three n1 n2 Hs) as [H0 H1].
    rewrite (Rabs_pos_eq (J n1 n2)) by assumption. split; [nra|].
    intros Hne. apply Rabs_pos_lt in Hne. nra.
  - intros Hs. rewrite J_at_three by assumption. lra.
  - intros Hs. rewrite J_at_two by assumption. lra.
  - intros Hs. pose proof (J_up_to_two n1 n2 Hs) as H1.
    rewrite (Rabs_pos_eq (J n1 n2)) by lra. nra.
Qed.

Lemma correction_of_one_and_two :
  cohens_d_to_hedges_g (Py 0.65) 1 2
    = Ret (Py (0.65 * J 1 2), se_of (Py (0.65 * J 1 2)) 1 2) /\
  0.65 * J 1 2 = 0.
Proof.
  assert (H : cohens_d_to_hedges_g (Py 0.65) 1 2
              = Ret (Py (0.65 * J 1 2), se_of (Py (0.65 * J 1 2)) 1 2))
    by (apply cohens_d_returns; lia).
  split; [exact H|].
  destruct (correction_shrinks_from_three_participants _ _ _ _ _ H)
    as (x & Hx & _ & H3 & _).
  injection Hx as ->. apply H3. reflexivity.
Defined.


(** *** Reversing the comparison *)

Lemma xdiv_opp a s : xdiv (Fin (- a)) s = xneg (xdiv (Fin a) s).
Proof.
  destruct s as [y| | |]; cbn [xdiv xneg].
  - destruct (Req_dec_T y 0).
    + unfold inf_of_sign.
      destruct (Rlt_dec 0 (- a)), (Rlt_dec (- a) 0), (Rlt_dec 0 a),
        (Rlt_dec a 0); try lra; reflexivity.
    + cbn [xneg]. f_equal. field. assumption.
  - f_equal. lra.
  - f_equal. lra.
  - reflexivity.
Qed.

Lemma xmul_opp x j : xmul (xneg x) (Fin j) = xneg (xmul x (Fin j)).
Proof.
  destruct x as [y| | |]; cbn [xmul xneg]; [f_equal; lra| | |reflexivity].
  all: unfold inf_of_sign.
  all: destruct (Rlt_dec 0 j), (Rlt_dec j 0), (Rlt_dec 0 (- j)),
         (Rlt_dec (- j) 0); try lra; reflexivity.
Qed.

Lemma num_mul_opp a j : num_mul (num_neg a) (Py j) = num_neg (num_mul a (Py j)).
Proof.
  destruct a as [x|x]; cbn [num_mul num_neg val].
  - f_equal. lra.
  - f_equal. apply xmul_opp.
Qed.

Lemma num_pow2_opp a : num_pow2 (num_neg a) = num_pow2 a.
Proof.
  destruct a as [x|x]; unfold num_pow2; cbn [num_mul num_neg val].
  - f_equal. lra.
  - f_equal. destruct x as [y| | |]; cbn [xneg xmul]; [f_equal; lra| | |];
      reflexivity.
Qed.

Lemma cohens_d_opp d n1 n2 :
  cohens_d_to_hedges_g (num_neg d) n1 n2
  = mirrored (cohens_d_to_hedges_g d n1 n2).
Proof.
  unfold cohens_d_to_hedges_g.
  destruct (int_truediv 3 (4 * (n1 + n2 - 2) - 1)) as [q|e]; [|reflexivity].
  cbn [bind]. rewrite num_mul_opp, num_pow2_opp.
  destruct (int_truediv (n1 + n2) (n1 * n2)) as [a|e]; [|reflexivity].
  cbn [bind].
  destruct (num_div _ _) as [b|e]; reflexivity.
Qed.

Lemma cohens_d_swap d n1 n2 :
  cohens_d_to_hedges_g d n2 n1 = cohens_d_to_hedges_g d n1 n2.
Proof.
  unfold cohens_d_to_hedges_g.
  now rewrite (Z.add_comm n2 n1), (Z.mul_comm n2 n1).
Qed.

(** X3.  Reversing the comparison changes only the sign.  Negating d in
    [cohens_d_to_hedges_g], or exchanging the two groups in
    [means_to_hedges_g], negates g and leaves the standard error, and raises
    the same exception when the original call raises.  Exchanging n1 and n2 in
    [cohens_d_to_hedges_g] changes nothing. *)
Theorem reversed_comparison_changes_only_the_sign
  (d m1 m2 sd1 sd2 : R) (n1 n2 : Z) :
  cohens_d_to_hedges_g (Py (- d)) n1 n2
    = mirrored (cohens_d_to_hedges_g (Py d) n1 n2) /\
  cohens_d_to_hedges_g (Py d) n2 n1 = cohens_d_to_hedges_g (Py d) n1 n2 /\
  means_to_hedges_g (Py m2) (Py m1) (Py sd2) (Py sd1) n2 n1
    = mirrored (means_to_hedges_g (Py m1) (Py m2) (Py sd1) (Py sd2) n1 n2).
Proof.
  split; [apply (cohens_d_opp (Py d))|]. split; [apply cohens_d_swap|].
  unfold means_to_hedges_g.
  cbn [num_add num_mul num_pow2 of_int num_sub].
  rewrite (Z.add_comm (n2 - 1) (n1 - 1)).
  rewrite (Rplus_comm (IZR (n2 - 1) * (sd2 * sd2))).
  match goal with
  | |- context [bind (num_div ?a ?b) _] => destruct (num_div a b) as [v|e]
  end; [|reflexivity].
  cbn [bind]. cbn [num_div np_sqrt val bind].
  replace (m2 - m1) with (- (m1 - m2)) by lra.
  rewrite xdiv_opp. rewrite cohens_d_swap.
  apply (cohens_d_opp (Np _)).
Qed.

(** *** Validation *)

(** X4.  When [validate_effect_size] returns, n1 and n2 are numbers with
    n1 + n2 <> 0 and min(n1, n2) <> 0.  The result is valid exactly when
    |g| > max_g does not hold and both sizes reach min_n, and exactly when
    the list of issues is empty; the standard error plays no part in it. *)
Theorem validity_is_magnitude_and_group_sizes
  (g se : num) (n1 n2 : pyval) (max_g : R) (min_n : Z) (v : validation) :
  validate_effect_size g se n1 n2 max_g min_n = Ret v ->
  exists x1 x2, py_number n1 = Ret x1 /\ py_number n2 = Ret x2 /\
    x1 + x2 <> 0 /\ Rmin x1 x2 <> 0 /\
    (v_valid v = true <->
     num_lt (Py max_g) (num_abs g) = false /\ IZR min_n <= x1 /\ IZR min_n <= x2) /\
    (v_valid v = true <-> v_issues v = []).
Proof.
  unfold validate_effect_size. intros H.
  apply bind_Ret in H as (x1 & Hx1 & H).
  apply bind_Ret in H as (x2 & Hx2 & H).
  apply bind_Ret in H as (qmin & Hmin & H).
  apply bind_Ret in H as (qmax & Hmax & H).
  injection H as <-. cbn [v_valid v_issues].
  exists x1, x2. split; [assumption|]. split; [assumption|].
  split.
  { intros E. cbn [num_div of_int] in Hmin. rewrite E in Hmin.
    destruct (Req_dec_T 0 0); [discriminate|contradiction]. }
  split.
  { intros E. cbn [num_div of_int] in Hmax. rewrite E in Hmax.
    destruct (Req_dec_T 0 0); [discriminate|contradiction]. }
  destruct (num_lt (Py max_g) (num_abs g)), (Rlt_dec x1 (IZR min_n)),
    (Rlt_dec x2 (IZR min_n)); cbn [app]; split; split;
    try discriminate; try reflexivity; try tauto; try lra;
    try (intros [? [? ?]]; try discriminate; lra).
Qed.


Lemma validity_of_forty_per_group :
  exists v, validate_effect_size (Py 0.55) (Py 0.22) (VInt 40) (VInt 40) 5 10
            = Ret v /\ v_valid v = true.
Proof.
  assert (H : exists v, validate_effect_size (Py 0.55) (Py 0.22) (VInt 40)
                          (VInt 40) 5 10 = Ret v).
  { calc_eval; eexists; reflexivity. }
  destruct H as [v Hv]. exists v. split; [exact Hv|].
  destruct (validity_is_magnitude_and_group_sizes _ _ _ _ _ _ _ Hv)
    as (x1 & x2 & H1 & H2 & _ & _ & Hvalid & _).
  injection H1 as <-. injection H2 as <-.
  apply Hvalid. split; [|split; lra].
  cbn [num_lt num_abs val xlt]. decide_reals; reflexivity.
Defined.

(** *** A directly reported g without sample sizes *)

(** X5.  An input with a non-null hedges_g that converts to a float, a
    standard error that converts to a float, and none of the keys n1, n2 and
    n is never valid: [extract_effect_size] returns the g and the standard
    error with the method direct_hedges_g, valid = False and the single
    issue of a failed extraction with ZeroDivisionError, which the
    validation raises on the sizes 0 and 0 it falls back to. *)
Theorem direct_g_without_sizes_is_never_valid
  (data : gmap string pyval) (v : pyval) (g se : num) :
  data !! "hedges_g"%string = Some v -> py_float v = Ret g ->
  py_float (get data "se_g" (get data "se" (VInt 0))) = Ret se ->
  unsized data ->
  extract_effect_size data =
  Ret {| r_g := Some g; r_se := Some se; r_method := Some direct_hedges_g;
         r_valid := false;
         r_issues := [ExtractionFailed ZeroDivisionError];
         r_warnings := None; r_ci_95 := None; r_n1 := None; r_n2 := None |}.
Proof.
  intros Hv Hg Hse (Hn1 & Hn2 & Hn).
  assert (Hnone : is_none v = false) by (destruct v; [discriminate|..]; reflexivity).
  unfold extract_effect_size, convert, reported. rewrite Hv, Hnone. cbn [negb].
  unfold case_direct, float_at, getitem. rewrite Hv. cbn [bind]. rewrite Hg.
  cbn [bind]. rewrite Hse. cbn [bind].
  unfold contains at 1. rewrite Hn1. rewrite andb_false_r. cbn [andb bind].
  cbn [update_conversion r_g r_se fst snd].
  unfold validate_step, get. rewrite Hn, Hn1, Hn2.
  cbn [py_floordiv2 bind]. change (0 / 2)%Z with 0%Z.
  unfold validate_effect_size. cbn [py_number bind num_div of_int].
  destruct (Req_dec_T (IZR 0 + IZR 0) 0) as [_|E]; [|exfalso; apply E; lra].
  reflexivity.
Qed.

Lemma g_only_is_invalid :
  exists r, extract_effect_size g_only = Ret r /\ r_valid r = false /\
    r_g r = Some (Py 0.5) /\
    r_issues r = [ExtractionFailed ZeroDivisionError].
Proof.
  eexists. split.
  - apply (direct_g_without_sizes_is_never_valid g_only (VFloat 0.5)
             (Py 0.5) (Py 0.1)); [reflexivity|reflexivity|reflexivity|].
    repeat split.
  - repeat split.
Defined.


(** *** Identical groups *)

(** X6.  Two groups with the same mean, standard deviations 0 and at least
    ten participants each: [extract_effect_size] returns g = NaN and a
    standard error NaN with the method means_sds and marks the result valid,
    without issue or warning; the confidence interval is (NaN, NaN). *)
Theorem identical_groups_are_valid_without_a_number (m : R) (n1 n2 : Z) :
  (10 <= n1)%Z -> (10 <= n2)%Z ->
  extract_effect_size (identical_groups m n1 n2) =
  Ret {| r_g := Some (Np NaN); r_se := Some (Np NaN);
         r_method := Some means_sds; r_valid := true; r_issues := [];
         r_warnings := Some []; r_ci_95 := Some (Np NaN, Np NaN);
         r_n1 := Some (VInt n1); r_n2 := Some (VInt n2) |}.
Proof.
  intros H1 H2.
  assert (R1 : 10 <= IZR n1) by (apply IZR_le in H1; exact H1).
  assert (R2 : 10 <= IZR n2) by (apply IZR_le in H2; exact H2).
  knowing (identical_groups m n1 n2) "hedges_g" (@None pyval).
  knowing (identical_groups m n1 n2) "cohens_d" (@None pyval).
  knowing (identical_groups m n1 n2) "m1" (Some (VFloat m)).
  knowing (identical_groups m n1 n2) "m2" (Some (VFloat m)).
  knowing (identical_groups m n1 n2) "sd1" (Some (VFloat 0)).
  knowing (identical_groups m n1 n2) "sd2" (Some (VFloat 0)).
  knowing (identical_groups m n1 n2) "n1" (Some (VInt n1)).
  knowing (identical_groups m n1 n2) "n2" (Some (VInt n2)).
  knowing (identical_groups m n1 n2) "n" (@None pyval).
  unfold extract_effect_size, convert, reported. lookups.
  cbn [forallb]. unfold contains. lookups. cbn [andb].
  unfold case_means, float_at, int_at, getitem. lookups.
  cbn [bind py_float py_int].
  rewrite means_through_pooled_sd by lia.
  rewrite cohens_d_returns by nia.
  cbn [bind update_conversion r_g r_se fst snd].
  unfold pooled_sd.
  replace (((IZR n1 - 1) * 0 ^ 2 + (IZR n2 - 1) * 0 ^ 2)
           / (IZR n1 + IZR n2 - 2)) with 0 by (field; lra).
  replace (m - m) with 0 by lra.
  rewrite xsqrt_Fin by lra. rewrite sqrt_0.
  cbn [xdiv]. destruct (Req_dec_T 0 0) as [_|E]; [|contradiction].
  unfold inf_of_sign. destruct (Rlt_dec 0 0) as [E|_]; [lra|].
  cbn [num_mul val xmul]. unfold se_of.
  cbn [num_pow2 num_mul val xmul over xdiv num_add xadd np_sqrt xsqrt].
  unfold validate_step, get. lookups. cbn [py_floordiv2 bind].
  unfold validate_effect_size.
  cbn [py_number bind num_lt num_abs val xabs xlt num_div of_int].
  destruct (Rlt_dec (IZR n1) (IZR 10)) as [E|_]; [lra|].
  destruct (Rlt_dec (IZR n2) (IZR 10)) as [E|_]; [lra|].
  destruct (Req_dec_T (IZR n1 + IZR n2) 0) as [E|_]; [lra|].
  assert (Hmin : 10 <= Rmin (IZR n1) (IZR n2)) by (apply Rmin_glb; assumption).
  destruct (Req_dec_T (Rmin (IZR n1) (IZR n2)) 0) as [E|_]; [lra|].
  cbn [bind np_sqrt val num_mul xmul xsqrt num_sub num_add xsub xadd xneg].
  assert (Hx : forall x, xlt x NaN = false) by (intros []; reflexivity).
  change (np_sqrt (Np NaN)) with (Np NaN). unfold num_lt. cbn [val].
  rewrite Hx. cbn [xlt]. reflexivity.
Qed.

Lemma identical_groups_of_ten :
  (10 <= 10)%Z /\
  exists r, extract_effect_size (identical_groups 3 10 10) = Ret r /\
    r_valid r = true /\ r_g r = Some (Np NaN).
Proof.
  split; [lia|]. eexists. split.
  - apply (identical_groups_are_valid_without_a_number 3 10 10); lia.
  - split; reflexivity.
Defined.

(** *** Pre-post designs *)

Ltac prepost_step :=
  cbn [bind num_add num_sub num_mul num_pow2 of_int num_div np_sqrt val].

(** X7.  [prepost_to_hedges_g] on Python floats raises ZeroDivisionError
    exactly when sd_pre + sd_post = 0 or n = 0.  Otherwise it returns
    g = (m_post - m_pre) / ((sd_pre + sd_post) / 2) * (1 - 3 / (4 (n - 1) - 1))
    and the numpy square root of 2 (1 - r) / n + g^2 / (2 n), which is NaN
    when that quantity is negative.  With equal means and r = 1 both are 0. *)
Theorem prepost_fails_exactly_without_spread_or_participants
  (m_pre m_post sd_pre sd_post r : R) (n : Z) :
  (sd_pre + sd_post = 0 \/ n = 0%Z ->
   prepost_to_hedges_g (Py m_pre) (Py m_post) (Py sd_pre) (Py sd_post) n (Py r)
   = Raise ZeroDivisionError) /\
  (sd_pre + sd_post <> 0 -> n <> 0%Z ->
   prepost_to_hedges_g (Py m_pre) (Py m_post) (Py sd_pre) (Py sd_post) n (Py r)
   = Ret (Py (prepost_g m_pre m_post sd_pre sd_post n),
          Np (xsqrt (Fin (prepost_var
                            (prepost_g m_pre m_post sd_pre sd_post n) r n))))) /\
  (sd_pre + sd_post <> 0 -> n <> 0%Z -> m_pre = m_post -> r = 1 ->
   prepost_to_hedges_g (Py m_pre) (Py m_post) (Py sd_pre) (Py sd_post) n (Py r)
   = Ret (Py 0, Np (Fin 0))).
Proof.
  assert (Hret : sd_pre + sd_post <> 0 -> n <> 0%Z ->
    prepost_to_hedges_g (Py m_pre) (Py m_post) (Py sd_pre) (Py sd_post) n (Py r)
    = Ret (Py (prepost_g m_pre m_post sd_pre sd_post n),
           Np (xsqrt (Fin (prepost_var
                             (prepost_g m_pre m_post sd_pre sd_post n) r n))))).
  { intros Hsd Hn. unfold prepost_to_hedges_g.
    assert (Hn' : IZR n <> 0) by now apply not_0_IZR.
    assert (Hn2 : IZR (2 * n) <> 0) by (rewrite mult_IZR; lra).
    cbn [num_add num_sub num_mul num_pow2 of_int num_div].
    destruct (Req_dec_T (IZR 2) 0) as [E|_]; [lra|]. prepost_step.
    destruct (Req_dec_T ((sd_pre + sd_post) / IZR 2) 0) as [E|_]; [lra|].
    prepost_step. rewrite int_truediv_Ret by lia. prepost_step.
    destruct (Req_dec_T (IZR n) 0) as [E|_]; [contradiction|]. prepost_step.
    destruct (Req_dec_T (IZR (2 * n)) 0) as [E|_]; [contradiction|].
    prepost_step. unfold prepost_g, prepost_var.
    repeat (rewrite minus_IZR || rewrite mult_IZR). reflexivity. }
  split; [|split; [exact Hret|]].
  - intros [Hsd|Hn]; unfold prepost_to_hedges_g; prepost_step.
    + destruct (Req_dec_T (IZR 2) 0) as [E|_]; [lra|]. prepost_step.
      destruct (Req_dec_T ((sd_pre + sd_post) / IZR 2) 0) as [_|E];
        [reflexivity|]. exfalso. apply E. rewrite Hsd. lra.
    + subst n. destruct (Req_dec_T (IZR 2) 0) as [E|_]; [lra|]. prepost_step.
      destruct (Req_dec_T ((sd_pre + sd_post) / IZR 2) 0) as [_|_];
        [reflexivity|]. prepost_step. rewrite int_truediv_Ret by lia.
      prepost_step. destruct (Req_dec_T (IZR 0) 0) as [_|E]; [reflexivity|].
      exfalso. now apply E.
  - intros Hsd Hn -> ->. rewrite Hret by assumption.
    assert (Hg : prepost_g m_post m_post sd_pre sd_post n = 0).
    { unfold prepost_g. unfold Rdiv. rewrite Rminus_diag. ring. }
    rewrite Hg. unfold prepost_var.
    replace (2 * (1 - 1) / IZR n + 0 * 0 / (2 * IZR n)) with 0.
    + rewrite xsqrt_Fin by lra. now rewrite sqrt_0.
    + apply not_0_IZR in Hn. field. assumption.
Qed.

(** *** The other statistics *)

Lemma r_to_d r n :
  r_to_hedges_g (Py r) n = cohens_d_to_hedges_g (Np (d_of_r r)) (n / 2) (n / 2).
Proof.
  unfold r_to_hedges_g, d_of_r.
  cbn [num_mul num_pow2 num_sub of_int np_sqrt num_div val bind].
  reflexivity.
Qed.

Lemma half_zero n : (n / 2 = 0 <-> 0 <= n <= 1)%Z.
Proof.
  split; intros H.
  - pose proof (Z.div_mod n 2 ltac:(lia)). pose proof (Z.mod_pos_bound n 2 ltac:(lia)). lia.
  - apply Z.div_small. lia.
Qed.

Lemma d_of_r_inside r : -1 < r < 1 ->
  d_of_r r = Fin (2 * r / sqrt (1 - r * r)).
Proof.
  intros Hr. unfold d_of_r.
  assert (H : 0 < 1 - r * r) by nra.
  rewrite xsqrt_Fin by lra.
  apply xdiv_Fin. pose proof (sqrt_lt_R0 _ H). lra.
Qed.

Lemma d_of_r_outside r : 1 < Rabs r -> d_of_r r = NaN.
Proof.
  intros Hr. unfold d_of_r. cbn [xsqrt].
  assert (H : 1 - r * r < 0).
  { unfold Rabs in Hr. destruct (Rcase_abs r); nra. }
  destruct (Rlt_dec (1 - r * r) 0); [reflexivity|contradiction].
Qed.

(** X26.  [r_to_hedges_g] on a Python float r splits n into two groups of
    n // 2, so that an odd n counts one participant less.  It raises
    ZeroDivisionError exactly when n is 0 or 1.  Otherwise it returns the
    corrected d for these groups, where d = 2 r / sqrt(1 - r^2) for
    -1 < r < 1, d is plus or minus infinity for r = 1 and r = -1, and d is NaN
    beyond: no correlation makes it raise. *)
Theorem correlation_uses_equal_halves (r : R) (n : Z) :
  ((0 <= n <= 1)%Z -> r_to_hedges_g (Py r) n = Raise ZeroDivisionError) /\
  (~ (0 <= n <= 1)%Z ->
   r_to_hedges_g (Py r) n =
   Ret (Np (xmul (d_of_r r) (Fin (J (n / 2) (n / 2)))),
        se_of (Np (xmul (d_of_r r) (Fin (J (n / 2) (n / 2))))) (n / 2) (n / 2))) /\
  r_to_hedges_g (Py r) (2 * (n / 2)) = r_to_hedges_g (Py r) n /\
  (-1 < r < 1 -> d_of_r r = Fin (2 * r / sqrt (1 - r * r))) /\
  d_of_r 1 = PInf /\ d_of_r (-1) = NInf /\
  (1 < Rabs r -> d_of_r r = NaN).
Proof.
  rewrite !r_to_d.
  split; [|split; [|split; [|split; [|split; [|split]]]]].
  - intros Hn. apply cohens_d_raises. apply half_zero in Hn. rewrite Hn. reflexivity.
  - intros Hn. rewrite <- half_zero in Hn.
    rewrite cohens_d_returns by nia. reflexivity.
  - replace (2 * (n / 2) / 2)%Z with (n / 2)%Z; [reflexivity|].
    rewrite Z.mul_comm, Z.div_mul by lia. reflexivity.
  - apply d_of_r_inside.
  - unfold d_of_r. replace (1 - 1 * 1) with 0 by lra.
    rewrite xsqrt_Fin by lra. rewrite sqrt_0. cbn [xdiv].
    destruct (Req_dec_T 0 0) as [_|E]; [|contradiction].
    unfold inf_of_sign. destruct (Rlt_dec 0 (2 * 1)); [reflexivity|lra].
  - unfold d_of_r. replace (1 - -1 * -1) with 0 by lra.
    rewrite xsqrt_Fin by lra. rewrite sqrt_0. cbn [xdiv].
    destruct (Req_dec_T 0 0) as [_|E]; [|contradiction].
    unfold inf_of_sign. destruct (Rlt_dec 0 (2 * -1)); [lra|].
    destruct (Rlt_dec (2 * -1) 0); [reflexivity|lra].
  - apply d_of_r_outside.
Qed.

Lemma t_to_d t n1 n2 :
  (n1 * n2 <> 0)%Z ->
  t_to_hedges_g t n1 n2 =
  cohens_d_to_hedges_g (Np (d_of_t (val t) n1 n2)) n1 n2.
Proof.
  intros H. unfold t_to_hedges_g, d_of_t.
  rewrite int_truediv_Ret by assumption. cbn [bind].
  destruct t; reflexivity.
Qed.

(** X27.  [t_to_hedges_g] and [f_to_hedges_g] on Python floats raise
    ZeroDivisionError when n1 * n2 = 0.  Otherwise the F statistic t^2 gives
    what the t statistic |t| gives, so the direction of the effect is lost;
    and, when also n1 + n2 <> 0, a negative F gives g = NaN without an
    exception. *)
Theorem F_is_the_square_of_t (f t : R) (n1 n2 : Z) :
  ((n1 * n2 = 0)%Z ->
   t_to_hedges_g (Py t) n1 n2 = Raise ZeroDivisionError /\
   f_to_hedges_g (Py f) n1 n2 = Raise ZeroDivisionError) /\
  ((n1 * n2 <> 0)%Z ->
   f_to_hedges_g (Py (t * t)) n1 n2 = t_to_hedges_g (Py (Rabs t)) n1 n2) /\
  ((n1 * n2 <> 0)%Z -> (n1 + n2 <> 0)%Z -> f < 0 ->
   exists se, f_to_hedges_g (Py f) n1 n2 = Ret (Np NaN, se)).
Proof.
  unfold f_to_hedges_g.
  split; [|split].
  - intros H. unfold t_to_hedges_g, int_truediv. rewrite H.
    destruct (Z.eq_dec 0 0)%Z; [|contradiction]. split; reflexivity.
  - intros H. rewrite !t_to_d by assumption.
    cbn [np_sqrt val]. rewrite xsqrt_Fin by nra.
    change (t * t) with (Rsqr t). now rewrite sqrt_Rsqr_abs.
  - intros H Hs Hf. rewrite t_to_d by assumption.
    rewrite cohens_d_returns by assumption.
    cbn [np_sqrt val xsqrt]. destruct (Rlt_dec f 0); [|contradiction].
    unfold d_of_t. eexists. cbn [num_mul val].
    assert (Hx : forall x, xmul NaN x = NaN) by (intros []; reflexivity).
    rewrite !Hx. reflexivity.
Qed.

(** X28.  The standard error that [cohens_d_to_hedges_g] returns is the
    numpy square root of what [hedges_g_variance] returns for the returned g
    and the same sizes.  On a Python float g, [hedges_g_variance] raises
    ZeroDivisionError exactly when n1 * n2 = 0 or n1 + n2 = 0. *)
Theorem standard_error_is_the_root_of_the_variance
  (d : num) (n1 n2 : Z) :
  (forall g se, cohens_d_to_hedges_g d n1 n2 = Ret (g, se) ->
     exists v, hedges_g_variance g n1 n2 = Ret v /\ se = np_sqrt v) /\
  (forall g : R, hedges_g_variance (Py g) n1 n2 = Raise ZeroDivisionError
                 <-> (n1 * n2 = 0 \/ n1 + n2 = 0)%Z).
Proof.
  unfold cohens_d_to_hedges_g, hedges_g_variance.
  rewrite int_truediv_Ret by lia. cbn [bind].
  split.
  - intros g se H.
    destruct (int_truediv (n1 + n2) (n1 * n2)) as [a|e]; [|discriminate].
    cbn [bind] in *.
    destruct (num_div _ _) as [b|e] eqn:E; [|discriminate].
    cbn [bind] in H. injection H as <- <-. rewrite E. cbn [bind].
    eexists. split; reflexivity.
  - intros g. unfold int_truediv.
    destruct (Z.eq_dec (n1 * n2) 0)%Z as [H|H]; cbn [bind].
    + split; [intros _; now left|reflexivity].
    + cbn [num_pow2 num_mul num_div of_int].
      destruct (Req_dec_T (IZR (2 * (n1 + n2))) 0) as [E|E]; cbn [bind].
      * apply eq_IZR_R0 in E. split; [intros _; right; lia|reflexivity].
      * split; [discriminate|]. intros [?|Hs]; [contradiction|].
        exfalso. apply E. rewrite Hs. reflexivity.
Qed.

End CalculatorProperties.

(** ** The consensus builder *)

Section ConsensusProperties.

Import Consensus.

Lemma label_eqb_spec (a b : label) : reflect (a = b) (label_eqb a b).
Proof.
  destruct a as [x|], b as [y|]; cbn [label_eqb]; try (constructor; congruence).
  destruct (String.eqb_spec x y); constructor; congruence.
Qed.

Lemma label_eqb_refl (a : label) : label_eqb a a = true.
Proof. now destruct (label_eqb_spec a a). Qed.

Lemma label_eqb_sym (a b : label) : label_eqb a b = label_eqb b a.
Proof.
  destruct (label_eqb_spec a b), (label_eqb_spec b a); congruence.
Qed.

Lemma label_eqb_neq (a b : label) : label_eqb a b = false <-> a <> b.
Proof. destruct (label_eqb_spec a b); split; congruence. Qed.

Lemma merge_app o l1 l2 : merge (merge o l1) l2 = merge o (l1 ++ l2).
Proof.
  destruct l1 as [|a l1]; [reflexivity|].
  destruct l2 as [|b l2]; cbn [merge app].
  - now rewrite app_nil_r.
  - now rewrite <- app_assoc.
Qed.

Lemma lookup_append_at label l e d :
  lookup_label label (append_at l e d) =
  if label_eqb l label then merge (lookup_label label d) [e]
  else lookup_label label d.
Proof.
  induction d as [|[l0 es] d IH]; cbn [append_at lookup_label merge].
  - destruct (label_eqb l label); reflexivity.
  - destruct (label_eqb_spec l0 l) as [->|Hne]; cbn [lookup_label].
    + destruct (label_eqb l label); reflexivity.
    + destruct (label_eqb_spec l0 label) as [->|Hne'].
      * apply label_eqb_neq in Hne. rewrite label_eqb_sym in Hne.
        now rewrite Hne.
      * exact IH.
Qed.

Lemma keys_append_at l e d :
  map fst (append_at l e d) =
  if existsb (label_eqb l) (map fst d) then map fst d else map fst d ++ [l].
Proof.
  induction d as [|[l0 es] d IH]; [reflexivity|].
  cbn [append_at map fst existsb].
  rewrite (label_eqb_sym l l0).
  destruct (label_eqb l0 l); cbn [orb map fst]; [reflexivity|].
  rewrite IH. destruct (existsb _ _); reflexivity.
Qed.

Lemma NoDup_append_at l e d :
  List.NoDup (map fst d) -> List.NoDup (map fst (append_at l e d)).
Proof.
  intros H. rewrite keys_append_at.
  destruct (existsb _ _) eqn:E; [assumption|].
  apply NoDup_ListNoDup, NoDup_app. rewrite !NoDup_ListNoDup.
  split; [assumption|]. split; [|repeat constructor; intros []].
  intros x Hx Hl. apply list_elem_of_In in Hl as [Hl|[]].
  apply list_elem_of_In in Hx. rewrite <- Hl in Hx.
  assert (existsb (label_eqb l) (map fst d) = true); [|congruence].
  apply existsb_exists. exists l. split; [assumption|apply label_eqb_refl].
Qed.

Lemma lookup_fold_model label name ess d :
  lookup_label label (fold_left (file_under name) ess d) =
  merge (lookup_label label d)
        (map (entry_of name) (filter (fun es => label_of es = label) ess)).
Proof.
  revert d. induction ess as [|es ess IH]; intros d; [reflexivity|].
  cbn [fold_left]. rewrite IH. unfold file_under. rewrite lookup_append_at.
  rewrite filter_cons.
  destruct (label_eqb_spec (label_of es) label) as [He|He].
  - rewrite decide_True by assumption. cbn [map]. now rewrite merge_app.
  - rewrite decide_False by assumption. reflexivity.
Qed.

Lemma lookup_collect_model label mr d :
  lookup_label label (collect_model d mr) =
  merge (lookup_label label d) (entries_for label [mr]).
Proof.
  unfold collect_model, entries_for. cbn [flat_map]. rewrite app_nil_r.
  destruct (snd mr) as [|ess]; [reflexivity|].
  apply lookup_fold_model.
Qed.

Lemma entries_for_cons label mr results :
  entries_for label (mr :: results) =
  entries_for label [mr] ++ entries_for label results.
Proof. unfold entries_for. cbn [flat_map]. now rewrite app_nil_r. Qed.

Lemma lookup_fold_results label results d :
  lookup_label label (fold_left collect_model results d) =
  merge (lookup_label label d) (entries_for label results).
Proof.
  revert d. induction results as [|mr results IH]; intros d; [reflexivity|].
  cbn [fold_left].
  now rewrite IH, lookup_collect_model, merge_app, <- entries_for_cons.
Qed.

Lemma lookup_collect label results :
  lookup_label label (collect results) =
  match entries_for label results with
  | [] => None
  | es => Some es
  end.
Proof.
  unfold collect. rewrite lookup_fold_results. cbn [lookup_label].
  destruct (entries_for label results); reflexivity.
Qed.

Lemma NoDup_collect_model mr d :
  List.NoDup (map fst d) -> List.NoDup (map fst (collect_model d mr)).
Proof.
  unfold collect_model. destruct (snd mr) as [|ess]; [trivial|].
  revert d. induction ess as [|es ess IH]; intros d H; [assumption|].
  cbn [fold_left]. apply IH, NoDup_append_at, H.
Qed.

Lemma NoDup_collect results : List.NoDup (map fst (collect results)).
Proof.
  unfold collect.
  assert (H : List.NoDup (map fst ([] : label_effects))) by constructor.
  revert H. generalize ([] : label_effects).
  induction results as [|mr results IH]; intros d H; [assumption|].
  cbn [fold_left]. apply IH, NoDup_collect_model, H.
Qed.

Lemma consensus_of_label label values c :
  consensus_of label values = Some c -> outcome_label c = label.
Proof.
  unfold consensus_of. destruct (filter _ values); [discriminate|].
  intros [= <-]. reflexivity.
Qed.

Lemma consensus_for_absent label d :
  ~ In label (map fst d) -> consensus_for label (synthesize_all d) = None.
Proof.
  induction d as [|[l es] d IH]; intros Hn; [reflexivity|].
  cbn [map fst In] in Hn.
  unfold synthesize_all. cbn [omap list_omap fst snd]. fold (synthesize_all d).
  destruct (consensus_of l es) as [c|] eqn:E; [|tauto].
  unfold consensus_for. cbn [List.find].
  apply consensus_of_label in E. rewrite E.
  destruct (label_eqb_spec l label); [tauto|]. apply IH. tauto.
Qed.

Lemma consensus_for_lookup label d :
  List.NoDup (map fst d) ->
  consensus_for label (synthesize_all d) =
  match lookup_label label d with
  | Some es => consensus_of label es
  | None => None
  end.
Proof.
  induction d as [|[l es] d IH]; intros Hnd; [reflexivity|].
  cbn [map fst] in Hnd. apply List.NoDup_cons_iff in Hnd as [Hl Hnd].
  unfold synthesize_all. cbn [omap list_omap fst snd lookup_label].
  fold (synthesize_all d).
  destruct (label_eqb_spec l label) as [->|Hne].
  - destruct (consensus_of label es) as [c|] eqn:E.
    + unfold consensus_for. cbn [List.find].
      apply consensus_of_label in E. rewrite E, label_eqb_refl. reflexivity.
    + now apply consensus_for_absent.
  - destruct (consensus_of l es) as [c|] eqn:E; [|now apply IH].
    unfold consensus_for. cbn [List.find].
    apply consensus_of_label in E. rewrite E.
    destruct (label_eqb_spec l label); [contradiction|]. now apply IH.
Qed.

Lemma consensus_for_entries label results :
  consensus_for label (_synthesize_effect_sizes results) =
  consensus_of label (entries_for label results).
Proof.
  unfold _synthesize_effect_sizes. fold (synthesize_all (collect results)).
  rewrite consensus_for_lookup by apply NoDup_collect.
  rewrite lookup_collect. destruct (entries_for label results); reflexivity.
Qed.

Lemma synthesize_all_labels label d :
  In label (map outcome_label (synthesize_all d)) -> In label (map fst d).
Proof.
  induction d as [|[l es] d IH]; [trivial|].
  unfold synthesize_all. cbn [omap list_omap fst snd map].
  fold (synthesize_all d).
  destruct (consensus_of l es) as [c|] eqn:E; cbn [map In]; [|tauto].
  apply consensus_of_label in E. rewrite E. tauto.
Qed.

Lemma NoDup_synthesize_all d :
  List.NoDup (map fst d) -> List.NoDup (map outcome_label (synthesize_all d)).
Proof.
  induction d as [|[l es] d IH]; intros H; [constructor|].
  cbn [map fst] in H. apply List.NoDup_cons_iff in H as [Hl H].
  unfold synthesize_all. cbn [omap list_omap fst snd]. fold (synthesize_all d).
  destruct (consensus_of l es) as [c|] eqn:E; [|now apply IH].
  cbn [map]. constructor; [|now apply IH].
  apply consensus_of_label in E. rewrite E. intros Hin.
  now apply Hl, synthesize_all_labels.
Qed.

Lemma omap_filter_has_g (es : list entry) :
  omap hedges_g (filter (fun v => has_g v = true) es) = omap hedges_g es.
Proof.
  induction es as [|v es IH]; [reflexivity|].
  rewrite filter_cons. cbn [omap list_omap].
  destruct (hedges_g v) eqn:E.
  - rewrite decide_True by (unfold has_g; now rewrite E).
    cbn [omap list_omap]. now rewrite E, IH.
  - rewrite decide_False by (unfold has_g; now rewrite E). exact IH.
Qed.

Lemma g_values_nil_filter label results :
  g_values label results = [] ->
  filter (fun v => has_g v = true) (entries_for label results) = [].
Proof.
  unfold g_values. rewrite <- omap_filter_has_g.
  destruct (filter _ _) as [|v l] eqn:E; [reflexivity|]. intros Hnil. exfalso.
  assert (Hv : v ∈ filter (fun v => has_g v = true) (entries_for label results))
    by (rewrite E; left).
  apply list_elem_of_filter in Hv as [Hv _]. unfold has_g in Hv.
  cbn [omap list_omap] in Hnil. destruct (hedges_g v); discriminate.
Qed.

(** X29.  Effect sizes are exact rationals here.  The list that
    [_synthesize_effect_sizes] returns has at most one record per outcome
    label.  A label for which no model reports a non-null g has no record.
    Otherwise its record carries the mean of the non-null g values rounded
    to four decimals, those g values themselves, and the mean of the non-null
    standard errors that come with a non-null g, rounded to four decimals, or
    null when there is no such standard error or when their mean is zero.
    [n_models_agree] is the number of entries collected for the label, those
    with a null g included, and the quality and the flag follow that
    number. *)
Theorem each_label_has_one_consensus_record
  (results : model_results) (label : label) :
  List.NoDup (map outcome_label (_synthesize_effect_sizes results)) /\
  (g_values label results = [] ->
   consensus_for label (_synthesize_effect_sizes results) = None) /\
  (g_values label results <> [] ->
   exists c, consensus_for label (_synthesize_effect_sizes results) = Some c /\
     outcome_label c = label /\
     hedges_g_consensus c = Qpy_round 4 (Qmean (g_values label results)) /\
     g_values_per_model c = g_values label results /\
     se_g_consensus c = rounded_se (se_values label results) /\
     n_models_agree c = length (entries_for label results) /\
     (consensus_quality c, flag c) = quality_of (n_models_agree c)).
Proof.
  split; [apply NoDup_synthesize_all, NoDup_collect|].
  rewrite consensus_for_entries. unfold consensus_of.
  split.
  - intros Hnil. now rewrite (g_values_nil_filter _ _ Hnil).
  - intros Hne. unfold se_values, rounded_se.
    assert (Hgs : omap hedges_g (filter (fun v => has_g v = true)
                                        (entries_for label results))
                  = g_values label results) by apply omap_filter_has_g.
    destruct (filter (fun v => has_g v = true) (entries_for label results))
      as [|v l]; [cbn in Hgs; congruence|].
    rewrite Hgs. eexists. split; [reflexivity|].
    cbn [outcome_label hedges_g_consensus g_values_per_model se_g_consensus
         n_models_agree consensus_quality flag].
    split; [reflexivity|]. split; [reflexivity|]. split; [reflexivity|].
    split; [destruct (omap se_g (v :: l)); reflexivity|].
    split; [reflexivity|].
    destruct (length (entries_for label results)) as [|[|[|[|n]]]]; reflexivity.
Qed.

(** C2 fails on the code.  Two models report g = 0.5 and g = 0.6 for an
    outcome, each with se = 0.1, and the third reports the outcome with a
    null g.  The only record carries the two g values, their mean 0.55 and
    the mean 0.1 of the standard errors; but it counts three models and is
    tagged "3/3_agree" without a flag, where two contributing models call
    for "2/3_agree" and "majority_consensus". *)
Theorem C2_null_entry_counts_as_a_model :
  exists c,
    _synthesize_effect_sizes two_values_one_null = [c] /\
    outcome_label c = Some "test1"%string /\
    g_values (Some "test1"%string) two_values_one_null = [1 # 2; 3 # 5] /\
    g_values_per_model c = [1 # 2; 3 # 5] /\
    (hedges_g_consensus c == Qmean [1 # 2; 3 # 5])%Q /\
    se_g_consensus c = Some (1 # 10) /\
    n_models_agree c = 3%nat /\
    consensus_quality c = "3/3_agree"%string /\
    flag c = None /\
    ~ tier (length (g_values (Some "test1"%string) two_values_one_null)) c.
Proof.
  eexists. split; [vm_compute; reflexivity|].
  cbn [outcome_label hedges_g_consensus g_values_per_model se_g_consensus
       n_models_agree consensus_quality flag].
  do 8 (split; [reflexivity|]).
  intros (_ & H2 & _). destruct (H2 eq_refl) as [Hq _]. discriminate.
Qed.

(** The scenario of the specification: three models agree on g = 0.50 and
    se = 0.10. *)
Example three_models_agree :
  _synthesize_effect_sizes three_agree =
  [{| outcome_label := Some "test1"%string; hedges_g_consensus := 1 # 2;
      se_g_consensus := Some (1 # 10);
      g_values_per_model := [1 # 2; 1 # 2; 1 # 2]; n_models_agree := 3;
      consensus_quality := "3/3_agree"; flag := None |}].
Proof. reflexivity. Qed.

End ConsensusProperties.

(** ** The quality gates *)

Section GateProperties.

Import QA.

Lemma in_unique (x : string) l : In x (unique l) <-> In x l.
Proof.
  induction l as [|y l IH]; [reflexivity|].
  cbn [unique In].
  rewrite <- (list_elem_of_In (filter _ _) x), list_elem_of_filter.
  rewrite list_elem_of_In, IH.
  destruct (decide (y = x)) as [->|]; [tauto|].
  split; [tauto|]. intros [?|?]; [tauto|].
  right. split; [congruence|assumption].
Qed.

Lemma head_rows_of sid f r :
  head (rows_of sid f) = Some r -> study_id r = sid /\ In r f.
Proof.
  unfold rows_of. intros H.
  assert (Hin : r ∈ filter (fun r => study_id r = sid) f).
  { destruct (filter _ f) as [|a l]; [discriminate|]. injection H as ->. left. }
  apply list_elem_of_filter in Hin. rewrite list_elem_of_In in Hin. tauto.
Qed.

Lemma Qltb_lt n b : Qltb n b = true <-> (n < b)%Q.
Proof.
  unfold Qltb. rewrite negb_true_iff, <- not_true_iff_false, Qle_bool_iff.
  split; [apply Qnot_le_lt | apply Qlt_not_le].
Qed.

Lemma study_issues_fst min_n sid r x :
  In x (study_issues min_n sid r) -> fst x = sid.
Proof.
  unfold study_issues. destruct (is_prepost r).
  - destruct (n_total r); [|intros []]. destruct (Qltb _ _); [|intros []].
    intros [<-|[]]. reflexivity.
  - rewrite in_app_iff. intros [H|H].
    + destruct (n_treatment r); [|destruct H].
      destruct (Qltb _ _); [|destruct H]. destruct H as [<-|[]]. reflexivity.
    + destruct (n_control r); [|destruct H].
      destruct (Qltb _ _); [|destruct H]. destruct H as [<-|[]]. reflexivity.
Qed.

Lemma study_issues_violates min_n sid r :
  study_issues min_n sid r <> [] <-> violates min_n r.
Proof.
  unfold study_issues, violates. destruct (is_prepost r).
  - destruct (n_total r) as [n|].
    + destruct (Qltb n (min_n * 2)) eqn:E.
      * split; [|discriminate]. intros _. exists n. split; [reflexivity|].
        apply Qltb_lt in E. now rewrite Qmult_comm.
      * split; [congruence|]. intros (m & [= <-] & Hm).
        rewrite Qmult_comm in Hm. apply Qltb_lt in Hm. congruence.
    + split; [congruence|]. intros (m & [=] & _).
  - destruct (n_treatment r) as [a|], (n_control r) as [b|]; cbn [app].
    all: repeat match goal with
         | |- context [Qltb ?x ?y] =>
             let E := fresh "E" in destruct (Qltb x y) eqn:E
         end; cbn [app].
    all: split; try discriminate; try congruence.
    all: repeat match goal with
         | H : Qltb _ _ = true |- _ => apply Qltb_lt in H
         | H : Qltb _ _ = false |- _ =>
             apply not_true_iff_false in H; rewrite Qltb_lt in H
         end.
    all: try (intros _;
              (left; eexists; split; [reflexivity|assumption])
              || (right; eexists; split; [reflexivity|assumption])).
    all: intros [(m & [= <-] & Hm)|(m & [= <-] & Hm)]; try contradiction.
    all: try discriminate.
Qed.

Lemma gate2_flags qt f sid r :
  head (rows_of sid f) = Some r ->
  In sid (flagged qt f) <-> violates (min_n_of qt) r.
Proof.
  intros Hhead. unfold flagged, min_n_of. cbn [gate2 snd issues].
  unfold gate2_issues.
  rewrite <- study_issues_violates with (sid := sid).
  rewrite in_map_iff. split.
  - intros (x & Hx & Hin). apply in_flat_map in Hin as (sid' & Hsid' & Hin).
    destruct (head (rows_of sid' f)) as [r'|] eqn:E; [|destruct Hin].
    apply study_issues_fst in Hin as Hf. rewrite Hx in Hf. subst sid'.
    rewrite Hhead in E. injection E as <-.
    intros Hnil. rewrite Hnil in Hin. destruct Hin.
  - intros Hne.
    destruct (study_issues _ sid r) as [|x l] eqn:E; [congruence|].
    exists x. split.
    + eapply study_issues_fst. rewrite E. now left.
    + apply in_flat_map. exists sid. split.
      * apply in_unique, in_map_iff.
        apply head_rows_of in Hhead as [<- Hin]. eauto.
      * rewrite Hhead, E. now left.
Qed.

Lemma gate2_passed qt f : fst (gate2 qt f) = true <-> flagged qt f = [].
Proof.
  unfold flagged. cbn [gate2 fst snd issues]. rewrite Nat.eqb_eq.
  rewrite length_zero_iff_nil. split; [now intros ->|].
  now destruct (gate2_issues _ f).
Qed.

(** C7, as the code has it.  For a study of the dataset with first row [r],
    gate 2 flags the study exactly when a sample size that is present on that
    row is too small: for a design whose lower-cased text contains "pre" or
    "post", a present n_total below 2 min_n; otherwise a present n_treatment
    below min_n or a present n_control below min_n (min_n defaults to 10).
    Missing sizes are not checked.  The gate passes exactly when no study is
    flagged.  With the default min_n, a pre-post study with n_total = 15 is
    flagged and the gate fails, and a study of another design with
    n_treatment = 12 and n_control = 12 is not flagged. *)
Theorem C7_gate2_flags_present_sizes_below_threshold
  (qt : quality_targets) (f : frame) (sid : string) (r : row) :
  head (rows_of sid f) = Some r ->
  (In sid (flagged qt f) <-> violates (min_n_of qt) r) /\
  (fst (gate2 qt f) = true <-> flagged qt f = []) /\
  (is_prepost r = true -> n_total r = Some 15%Q -> min_sample_size qt = None ->
   In sid (flagged qt f) /\ fst (gate2 qt f) = false) /\
  (is_prepost r = false -> n_treatment r = Some 12%Q ->
   n_control r = Some 12%Q -> min_sample_size qt = None ->
   ~ In sid (flagged qt f)).
Proof.
  intros Hhead. pose proof (gate2_flags qt f sid r Hhead) as Hflag.
  split; [exact Hflag|]. split; [apply gate2_passed|]. split.
  - intros Hpp Hn Hq.
    assert (Hin : In sid (flagged qt f)).
    { apply Hflag. unfold violates, min_n_of. rewrite Hpp, Hq.
      exists 15%Q. split; [assumption|reflexivity]. }
    split; [assumption|].
    destruct (fst (gate2 qt f)) eqn:E; [|reflexivity].
    apply gate2_passed in E. rewrite E in Hin. destruct Hin.
  - intros Hpp Ht Hc Hq Hin. apply Hflag in Hin.
    unfold violates, min_n_of in Hin. rewrite Hpp, Hq in Hin.
    destruct Hin as [(n & Hn & Hlt)|(n & Hn & Hlt)].
    + rewrite Ht in Hn. injection Hn as <-. discriminate Hlt.
    + rewrite Hc in Hn. injection Hn as <-. discriminate Hlt.
Qed.

(** The scenario of the specification: with the defaults, the pre-post study
    with 15 participants fails the gate. *)
Lemma C7_prepost_15_fails :
  head (rows_of "S02" [prepost_unsized; prepost_15]) = Some prepost_15 /\
  In "S02"%string (flagged defaults [prepost_unsized; prepost_15]) /\
  fst (gate2 defaults [prepost_unsized; prepost_15]) = false.
Proof.
  split; [reflexivity|].
  apply (C7_gate2_flags_present_sizes_below_threshold
           defaults [prepost_unsized; prepost_15] "S02" prepost_15 eq_refl);
    reflexivity.
Defined.

(** C7 fails as stated.  A pre-post study whose n_total is missing does not
    meet the requirement n_total >= 2 min_n, yet the gate does not flag it
    and passes. *)
Lemma C7_missing_total_passes :
  head (rows_of "S01" [prepost_unsized]) = Some prepost_unsized /\
  is_prepost prepost_unsized = true /\
  ~ requirement_met (min_n_of defaults) prepost_unsized /\
  flagged defaults [prepost_unsized] = [] /\
  fst (gate2 defaults [prepost_unsized]) = true.
Proof.
  split; [reflexivity|]. split; [reflexivity|].
  split; [|split; reflexivity].
  unfold requirement_met. change (is_prepost prepost_unsized) with true.
  cbv iota. intros (n & [=] & _).
Qed.

(** The same study as in the scenario, reclassified as a trial with 12
    participants per group, passes. *)
Example rct_12_12_passes : fst (gate2 defaults [rct_12_12]) = true.
Proof. reflexivity. Qed.

(** *** The whole run *)

Lemma gate_method_reports {D : Type} log_name (wrap : D -> details) check :
  reports (wrapped wrap check) (gate_method log_name wrap check).
Proof.
  intros w. unfold gate_method, log_quality_check, seq_st, now, ret, wrapped.
  cbn [fst snd df clock audit_log]. rewrite length_app. cbn [length].
  repeat split. lia.
Qed.

Lemma gates_report qt : Forall2 reports (gate_checks qt) (map snd (gates qt)).
Proof. repeat constructor; apply gate_method_reports. Qed.

(** The loop over the gates, for any gates that report. *)
Lemma run_gates_reports gs cs acc all_passed w :
  Forall2 reports cs (map snd gs) ->
  fst (run_gates gs acc all_passed w) =
    (acc ++ map (result_of (df w)) (combine gs cs),
     forallb (fun check => fst (check (df w))) cs && all_passed)
  /\ df (snd (run_gates gs acc all_passed w)) = df w
  /\ clock (snd (run_gates gs acc all_passed w)) = (clock w + length gs)%nat
  /\ length (audit_log (snd (run_gates gs acc all_passed w))) =
     (length (audit_log w) + length gs)%nat.
Proof.
  revert cs acc all_passed w.
  induction gs as [|[gate_name gate_func] gs IH]; intros cs acc all_passed w H.
  - inversion H; subst. cbn [run_gates ret fst snd combine map forallb length].
    rewrite app_nil_r, !Nat.add_0_r. repeat split.
  - cbn [map snd] in H. inversion H as [|check c cs' l Hc Hcs]; subst.
    cbn [run_gates]. unfold seq_st.
    destruct (Hc w) as (Hres & Hdf & Hclock & Hlog).
    destruct (IH cs'
                (acc ++ [{| gate := gate_name; passed := fst (fst (gate_func w));
                            gate_details := snd (fst (gate_func w)) |}])
                (if fst (fst (gate_func w)) then all_passed else false)
                (snd (gate_func w)) Hcs) as (IH1 & IH2 & IH3 & IH4).
    rewrite IH1, IH2, IH3, IH4, Hdf, Hclock, Hlog, Hres.
    cbn [combine map forallb length]. unfold result_of at 2. cbn [fst snd].
    rewrite <- app_assoc. cbn [app].
    split; [|repeat split; lia].
    f_equal. destruct (fst (check (df w))); cbn [andb];
      [reflexivity|apply andb_false_r].
Qed.

Lemma run_all_gates_unfold qt w :
  all_gates_passed (fst (run_all_gates qt w)) =
    snd (fst (run_gates (gates qt) [] true w))
  /\ gate_results (fst (run_all_gates qt w)) =
     fst (fst (run_gates (gates qt) [] true w))
  /\ qa_timestamp (fst (run_all_gates qt w)) =
     clock (snd (run_gates (gates qt) [] true w))
  /\ df (snd (run_all_gates qt w)) = df (snd (run_gates (gates qt) [] true w))
  /\ audit_log (snd (run_all_gates qt w)) =
     audit_log (snd (run_gates (gates qt) [] true w)).
Proof.
  unfold run_all_gates, seq_st, now.
  generalize (run_gates (gates qt) [] true w). intros [res w'].
  cbn [fst snd all_gates_passed gate_results qa_timestamp df audit_log].
  repeat split.
Qed.

Lemma run_all_gates_gate_results qt w :
  gate_results (fst (run_all_gates qt w)) =
  map (result_of (df w)) (combine (gates qt) (gate_checks qt)).
Proof.
  destruct (run_all_gates_unfold qt w) as (_ & -> & _).
  destruct (run_gates_reports (gates qt) (gate_checks qt) [] true w
              (gates_report qt)) as (-> & _).
  reflexivity.
Qed.

Lemma run_all_gates_passed qt w :
  all_gates_passed (fst (run_all_gates qt w)) =
  forallb (fun check => fst (check (df w))) (gate_checks qt).
Proof.
  destruct (run_all_gates_unfold qt w) as (-> & _).
  destruct (run_gates_reports (gates qt) (gate_checks qt) [] true w
              (gates_report qt)) as (-> & _).
  cbn [snd]. apply andb_true_r.
Qed.

Lemma run_all_gates_frame qt w : df (snd (run_all_gates qt w)) = df w.
Proof.
  destruct (run_all_gates_unfold qt w) as (_ & _ & _ & -> & _).
  apply (run_gates_reports (gates qt) (gate_checks qt) [] true w
           (gates_report qt)).
Qed.

Lemma passed_result_of f gcs :
  forallb passed (map (result_of f) gcs) =
  forallb (fun check => fst (check f)) (map snd gcs).
Proof.
  induction gcs as [|gc gcs IH]; [reflexivity|].
  cbn [map forallb]. now rewrite IH.
Qed.

Lemma run_all_gates_checks qt w :
  map (fun r => (passed r, gate_details r))
      (gate_results (fst (run_all_gates qt w))) = checks qt (df w).
Proof. rewrite run_all_gates_gate_results. reflexivity. Qed.

(** C9.  A second run of the checker, started where the first one ended,
    reports the same [all_gates_passed] and the same gate results, details
    included; neither run changes the data frame; and [all_gates_passed] is
    the conjunction of the [passed] flags of the six gates, which carry the
    names of [self.gates] and what the six checks find on the frame. *)
Theorem C9_run_all_gates_repeats_and_leaves_the_frame
  (qt : quality_targets) (w : world) :
  all_gates_passed (fst (second_run qt w)) =
    all_gates_passed (fst (run_all_gates qt w)) /\
  gate_results (fst (second_run qt w)) =
    gate_results (fst (run_all_gates qt w)) /\
  df (snd (run_all_gates qt w)) = df w /\
  df (snd (second_run qt w)) = df w /\
  all_gates_passed (fst (run_all_gates qt w)) =
    forallb passed (gate_results (fst (run_all_gates qt w))) /\
  map gate (gate_results (fst (run_all_gates qt w))) = map fst (gates qt) /\
  map (fun r => (passed r, gate_details r))
      (gate_results (fst (run_all_gates qt w))) = checks qt (df w).
Proof.
  unfold second_run.
  split; [now rewrite !run_all_gates_passed, run_all_gates_frame|].
  split; [now rewrite !run_all_gates_gate_results, run_all_gates_frame|].
  split; [apply run_all_gates_frame|].
  split; [now rewrite !run_all_gates_frame|].
  split; [|split; [|apply run_all_gates_checks]].
  - rewrite run_all_gates_passed, run_all_gates_gate_results, passed_result_of.
    reflexivity.
  - rewrite run_all_gates_gate_results. reflexivity.
Qed.

(** What does change from one run to the next: the time stamp of the report
    and the audit log, which grows by six lines. *)
Lemma run_all_gates_clock qt w :
  qa_timestamp (fst (run_all_gates qt w)) = (clock w + 6)%nat.
Proof.
  destruct (run_all_gates_unfold qt w) as (_ & _ & -> & _).
  apply (run_gates_reports (gates qt) (gate_checks qt) [] true w
           (gates_report qt)).
Qed.

Lemma run_all_gates_log qt w :
  length (audit_log (snd (run_all_gates qt w))) = (length (audit_log w) + 6)%nat.
Proof.
  destruct (run_all_gates_unfold qt w) as (_ & _ & _ & _ & ->).
  apply (run_gates_reports (gates qt) (gate_checks qt) [] true w
           (gates_report qt)).
Qed.

End GateProperties.

(** ** The three poolings *)

Lemma weighted_sum_bounds ws xs lo hi :
  length ws = length xs -> Forall (fun w => 0 < w) ws ->
  Forall (fun x => lo <= x <= hi) xs ->
  lo * Rsum ws <= Rsum (zip_with Rmult ws xs) <= hi * Rsum ws.
Proof.
  intros Hlen Hw. revert xs Hlen.
  induction Hw as [|w ws Hw _ IH]; intros [|x xs] Hlen Hx;
    try discriminate; cbn [zip_with Rsum fold_right].
  - lra.
  - fold (Rsum ws). fold (Rsum (zip_with Rmult ws xs)).
    inversion Hx as [|? ? Hx1 Hx2]; subst. injection Hlen as Hlen.
    specialize (IH xs Hlen Hx2). nra.
Qed.

Lemma weighted_mean_bounds ws xs lo hi :
  length ws = length xs -> Forall (fun w => 0 < w) ws -> 0 < Rsum ws ->
  Forall (fun x => lo <= x <= hi) xs ->
  lo <= Rsum (zip_with Rmult ws xs) / Rsum ws <= hi.
Proof.
  intros Hlen Hw Hs Hx.
  destruct (weighted_sum_bounds ws xs lo hi Hlen Hw Hx) as [H1 H2].
  split.
  - apply Rmult_le_reg_r with (Rsum ws); [assumption|].
    unfold Rdiv. rewrite Rmult_assoc, Rinv_l by lra. lra.
  - apply Rmult_le_reg_r with (Rsum ws); [assumption|].
    unfold Rdiv. rewrite Rmult_assoc, Rinv_l by lra. lra.
Qed.


Section PoolingAgreement.

Variables g se : list R.
Hypothesis same_length : length g = length se.
Hypothesis studies : (2 <= length g)%nat.
Hypothesis positive : Forall (fun s => 0 < s) se.

Ltac at_least_one :=
  assert (nonempty : (1 <= length g)%nat) by (pose proof studies; lia).

Lemma forest_pooled :
  Forest.random_effects_meta (map Fin g) (map Fin se) =
  Some {| Forest.pooled_g := Fin (DL.g_pooled g se);
          Forest.se_pooled := Fin (DL.se_pooled g se);
          Forest.ci_lower := Fin (DL.g_pooled g se - 1.96 * DL.se_pooled g se);
          Forest.ci_upper := Fin (DL.g_pooled g se + 1.96 * DL.se_pooled g se);
          Forest.Q := Fin (DL.Q g se);
          Forest.df := (Z.of_nat (length g) - 1)%Z;
          Forest.p_Q := Fin (1 - p_fallback g se);
          Forest.I2 := Fin (DL.I2 g se);
          Forest.tau2 := Fin (DL.tau2 g se);
          Forest.tau := Fin (sqrt (DL.tau2 g se));
          Forest.k := length g |}.
Proof.
  at_least_one.
  unfold Forest.random_effects_meta. rewrite length_map.
  assert (Hk : exists n, length g = S n) by (exists (pred (length g)); lia).
  destruct Hk as [n Hk]. rewrite Hk. cbv iota. rewrite <- Hk. cbv zeta.
  rewrite (w_fixed_eq se), (g_fixed_eq g se), (Q_eq g se), (c_eq g se)
    by assumption.
  change (Fin (INR (length g) - 1)) with (Fin (DL.k g - 1)).
  rewrite xsub_Fin, xdiv_Fin by (pose proof (c_positive g se same_length nonempty positive studies); lra).
  rewrite xmax0_Fin. fold (DL.tau2 g se).
  rewrite (w_re_eq g se), (g_pooled_eq g se), (se_pooled_eq g se)
    by assumption.
  rewrite xmax0_Fin. fold (excess g se).
  rewrite xsqrt_Fin by (now apply tau2_nonneg).
  f_equal. f_equal.
  unfold DL.I2. cbn [xlt]. destruct (Rlt_dec 0 (DL.Q g se)); [|reflexivity].
  rewrite xdiv_Fin by lra. cbn [xmul]. now rewrite xmax0_Fin.
Qed.


Lemma report_fields
  (scipy_stats : option ((xfloat -> Z -> xfloat) * (xfloat -> xfloat))) :
  exists m,
    Report.random_effects_meta scipy_stats (map Fin g) (map Fin se)
      = Ret (Report.Pooled m) /\
    Report.g_pooled m = Fin (py_round 4 (DL.g_pooled g se)) /\
    Report.se_pooled m = Fin (py_round 4 (DL.se_pooled g se)) /\
    Report.ci_lower m
      = Fin (py_round 4 (DL.g_pooled g se - 1.96 * DL.se_pooled g se)) /\
    Report.ci_upper m
      = Fin (py_round 4 (DL.g_pooled g se + 1.96 * DL.se_pooled g se)) /\
    Report.Q m = Fin (py_round 3 (DL.Q g se)) /\
    Report.I2 m = Fin (py_round 1 (DL.I2 g se)) /\
    Report.tau2 m = Fin (py_round 4 (DL.tau2 g se)) /\
    Report.tau m = Fin (py_round 4 (sqrt (DL.tau2 g se))) /\
    (scipy_stats = None ->
     Report.p_Q m = Fin (py_round 4 (p_fallback g se))
     /\ Report.p_pooled m = None).
Proof.
  at_least_one.
  unfold Report.random_effects_meta. rewrite length_map.
  assert (Hk : exists n, length g = S n) by (exists (pred (length g)); lia).
  destruct Hk as [n Hk]. rewrite Hk. cbv iota. rewrite <- Hk. cbv zeta.
  rewrite (w_fixed_eq se), (g_fixed_eq g se), (Q_eq g se), (c_eq g se)
    by assumption.
  change (Fin (INR (length g) - 1)) with (Fin (DL.k g - 1)).
  rewrite xsub_Fin, pydiv_Fin
    by (pose proof (c_positive g se same_length nonempty positive studies); lra).
  cbn [bind]. rewrite xmax0_Fin. fold (DL.tau2 g se).
  rewrite (w_re_eq g se), (g_pooled_eq g se), (se_pooled_eq g se), I2_eq
    by assumption.
  cbn [bind]. rewrite xmax0_Fin. fold (excess g se).
  rewrite xsqrt_Fin by (now apply tau2_nonneg).
  destruct scipy_stats as [[chi2_sf norm_sf]|].
  - rewrite pydiv_Fin
      by (pose proof (se_pooled_positive g se same_length nonempty positive); lra).
    cbn [bind]. eexists. split; [reflexivity|].
    do 8 (split; [reflexivity|]). discriminate.
  - cbn [bind]. eexists. split; [reflexivity|].
    do 8 (split; [reflexivity|]). intros _. split; reflexivity.
Qed.

(** X14.  For two or more studies with positive standard errors the three
    implementations of [random_effects_meta] agree.  The forest-plot and the
    funnel-plot versions return the same pooled g, standard error, interval,
    Q, df, I2, tau2 and k; the report generator returns these values rounded:
    g, its standard error, the interval, tau2 and tau to four decimals, Q to
    three and I2 to one. *)
Theorem the_three_poolings_agree
  (scipy_stats : option ((xfloat -> Z -> xfloat) * (xfloat -> xfloat))) :
  exists m p f,
    Report.random_effects_meta scipy_stats (map Fin g) (map Fin se)
      = Ret (Report.Pooled m) /\
    Funnel.random_effects_meta (map Fin g) (map Fin se) = Some p /\
    Forest.random_effects_meta (map Fin g) (map Fin se) = Some f /\
    (Forest.pooled_g f = Funnel.pooled_g p /\
     Forest.se_pooled f = Funnel.se_pooled p /\
     Forest.ci_lower f = Funnel.ci_lower p /\
     Forest.ci_upper f = Funnel.ci_upper p /\
     Forest.Q f = Funnel.Q p /\ Forest.df f = Funnel.df p /\
     Forest.I2 f = Funnel.I2 p /\ Forest.tau2 f = Funnel.tau2 p /\
     Forest.k f = Funnel.k p) /\
    (Report.g_pooled m = xround 4 (Funnel.pooled_g p) /\
     Report.se_pooled m = xround 4 (Funnel.se_pooled p) /\
     Report.ci_lower m = xround 4 (Funnel.ci_lower p) /\
     Report.ci_upper m = xround 4 (Funnel.ci_upper p) /\
     Report.Q m = xround 3 (Funnel.Q p) /\
     Report.I2 m = xround 1 (Funnel.I2 p) /\
     Report.tau2 m = xround 4 (Funnel.tau2 p) /\
     Report.tau m = xround 4 (Forest.tau f)).
Proof.
  at_least_one.
  destruct (report_fields scipy_stats)
    as (m & Hm & H1 & H2 & H3 & H4 & H5 & H6 & H7 & H8 & _).
  exists m. eexists. eexists.
  split; [exact Hm|].
  split; [now apply funnel_pooled|]. split; [apply forest_pooled|].
  cbn [Forest.pooled_g Forest.se_pooled Forest.ci_lower Forest.ci_upper
       Forest.Q Forest.df Forest.I2 Forest.tau2 Forest.k Forest.tau
       Funnel.pooled_g Funnel.se_pooled Funnel.ci_lower Funnel.ci_upper
       Funnel.Q Funnel.df Funnel.I2 Funnel.tau2 Funnel.k xround].
  split; [repeat split|]. repeat split; assumption.
Qed.

(** X17.  For two or more studies with positive standard errors: without
    scipy the report generator gives p_Q = exp(-0.5 max(0, Q - (k - 1)))
    rounded to four decimals, and the forest plots give one minus that
    quantity.  When Q does not exceed k - 1 the report has p_Q = 1 and the
    forest plots have p_Q = 0. *)
Theorem forest_p_Q_complements_the_report_fallback :
  exists m f,
    Report.random_effects_meta None (map Fin g) (map Fin se)
      = Ret (Report.Pooled m) /\
    Forest.random_effects_meta (map Fin g) (map Fin se) = Some f /\
    Report.p_Q m = Fin (py_round 4 (p_fallback g se)) /\
    Forest.p_Q f = Fin (1 - p_fallback g se) /\
    (forall q, Forest.Q f = Fin q -> q <= INR (length g) - 1 ->
       Report.p_Q m = Fin 1 /\ Forest.p_Q f = Fin 0).
Proof.
  destruct (report_fields None) as (m & Hm & _ & _ & _ & _ & _ & _ & _ & _ & Hp).
  destruct (Hp eq_refl) as [HpQ _].
  exists m. eexists. split; [exact Hm|]. split; [apply forest_pooled|].
  cbn [Forest.p_Q Forest.Q]. split; [exact HpQ|]. split; [reflexivity|].
  intros q [= <-] Hq. rewrite HpQ.
  assert (He : p_fallback g se = 1).
  { unfold p_fallback, excess. unfold DL.k. rewrite Rmax_left by lra.
    rewrite Rmult_0_r. apply exp_0. }
  rewrite He. split; f_equal; [|lra].
  apply Rle_antisym; [apply (py_round_upper 4 1); lra|apply (py_round_lower 4 1); lra].
Qed.


(** X15.  For two or more studies with positive standard errors the pooled
    effect lies between the smallest and the largest effect: when every
    study effect is in [lo, hi], so is pooled_g. *)
Theorem pooled_estimate_lies_among_the_effects (lo hi : R) :
  Forall (fun x => lo <= x <= hi) g ->
  exists p x,
    Funnel.random_effects_meta (map Fin g) (map Fin se) = Some p /\
    Funnel.pooled_g p = Fin x /\ lo <= x <= hi.
Proof.
  intros Hg. at_least_one.
  eexists. exists (DL.g_pooled g se).
  split; [now apply funnel_pooled|]. split; [reflexivity|].
  unfold DL.g_pooled. apply weighted_mean_bounds.
  - unfold DL.w_re. now rewrite length_map.
  - now apply w_re_positive.
  - now apply sum_w_re_positive.
  - assumption.
Qed.






End PoolingAgreement.

(** Two studies, g = 0.2 and 0.6 with standard errors 0.1 and 0.2. *)
Ltac two_studies :=
  assert (H1 : length two_effects = length two_errors) by reflexivity;
  assert (H2 : (2 <= length two_effects)%nat) by (simpl; lia);
  assert (H3 : Forall (fun s => 0 < s) two_errors)
    by (repeat constructor; lra);
  split; [exact H1|]; split; [exact H2|]; split; [exact H3|].

Lemma two_studies_pool_alike :
  length two_effects = length two_errors /\
  (2 <= length two_effects)%nat /\
  Forall (fun s => 0 < s) two_errors /\
  exists m p f,
    Report.random_effects_meta None (map Fin two_effects) (map Fin two_errors)
      = Ret (Report.Pooled m) /\
    Funnel.random_effects_meta (map Fin two_effects) (map Fin two_errors)
      = Some p /\
    Forest.random_effects_meta (map Fin two_effects) (map Fin two_errors)
      = Some f /\
    Forest.pooled_g f = Funnel.pooled_g p /\
    Report.g_pooled m = xround 4 (Funnel.pooled_g p).
Proof.
  two_studies.
  destruct (the_three_poolings_agree two_effects two_errors H1 H2 H3 None)
    as (m & p & f & Hm & Hp & Hf & (Hg & _) & (Hr & _)).
  exists m, p, f. repeat split; assumption.
Defined.

Lemma two_studies_p_values :
  length two_effects = length two_errors /\
  (2 <= length two_effects)%nat /\
  Forall (fun s => 0 < s) two_errors /\
  exists m f,
    Report.random_effects_meta None (map Fin two_effects) (map Fin two_errors)
      = Ret (Report.Pooled m) /\
    Forest.random_effects_meta (map Fin two_effects) (map Fin two_errors)
      = Some f /\
    Forest.p_Q f = Fin (1 - p_fallback two_effects two_errors).
Proof.
  two_studies.
  destruct (forest_p_Q_complements_the_report_fallback
              two_effects two_errors H1 H2 H3)
    as (m & f & Hm & Hf & _ & Hp & _).
  exists m, f. repeat split; assumption.
Defined.

Lemma two_studies_pool_between :
  length two_effects = length two_errors /\
  (2 <= length two_effects)%nat /\
  Forall (fun s => 0 < s) two_errors /\
  Forall (fun x => 0.2 <= x <= 0.6) two_effects /\
  exists p x,
    Funnel.random_effects_meta (map Fin two_effects) (map Fin two_errors)
      = Some p /\
    Funnel.pooled_g p = Fin x /\ 0.2 <= x <= 0.6.
Proof.
  two_studies.
  assert (H4 : Forall (fun x => 0.2 <= x <= 0.6) two_effects)
    by (repeat constructor; lra).
  split; [exact H4|].
  exact (pooled_estimate_lies_among_the_effects
           two_effects two_errors H1 H2 H3 0.2 0.6 H4).
Defined.


Local Close Scope R_scope.

(** ** Trim and fill *)

Section TrimAndFillProperties.

Variables (g se : array) (side : string).

Lemma estimate_k0_nonneg : (0 <= Funnel.estimate_k0 g se side)%Z.
Proof. unfold Funnel.estimate_k0. lia. Qed.

Lemma iterate_settles n :
  (2 <= n)%nat ->
  Funnel.iterate g se side n (-1) 0 =
  if (Funnel.estimate_k0 g se side >=? Z.of_nat (length g))%Z
  then (0%Z, Z.max 0 (Z.of_nat (length g) - 1))
  else (Funnel.estimate_k0 g se side, Funnel.estimate_k0 g se side).
Proof.
  intros Hn. destruct n as [|[|n]]; try lia.
  cbn [Funnel.iterate]. change (0 =? -1)%Z with false. cbv iota.
  destruct (Funnel.estimate_k0 g se side >=? Z.of_nat (length g))%Z eqn:E;
    [reflexivity|].
  destruct (Funnel.estimate_k0 g se side =? 0)%Z eqn:E0.
  - apply Z.eqb_eq in E0. now rewrite E0.
  - destruct n as [|n]; [reflexivity|].
    cbn [Funnel.iterate]. now rewrite Z.eqb_refl.
Qed.

Lemma iterate_bounds n :
  (0 <= snd (Funnel.iterate g se side n (-1) 0)
   <= Z.max 0 (Z.of_nat (length g) - 1))%Z.
Proof.
  pose proof estimate_k0_nonneg as He.
  destruct n as [|[|n]].
  - cbn. lia.
  - cbn [Funnel.iterate]. change (0 =? -1)%Z with false. cbv iota.
    destruct (Funnel.estimate_k0 g se side >=? Z.of_nat (length g))%Z eqn:E;
      cbn [snd]; [lia|].
    rewrite Z.geb_leb in E. apply Z.leb_gt in E. lia.
  - rewrite iterate_settles by lia.
    destruct (Funnel.estimate_k0 g se side >=? Z.of_nat (length g))%Z eqn:E;
      cbn [snd]; [lia|].
    rewrite Z.geb_leb in E. apply Z.leb_gt in E. lia.
Qed.

(** X19.  [trim_and_fill] imputes between 0 and max(0, k - 1) studies
    whatever max_iter is.  From max_iter = 2 on the result does not depend on
    max_iter: the number of imputed studies is the estimate of the first
    round, or k - 1 when that estimate reaches k, and converged is False
    exactly when the estimate reaches k and there are at least two
    studies. *)
Theorem trim_and_fill_settles_after_two_rounds (max_iter : nat) :
  ((0 <= Funnel.k0_imputed (Funnel.trim_and_fill g se side max_iter)
    <= Z.max 0 (Z.of_nat (length g) - 1))%Z) /\
  ((2 <= max_iter)%nat ->
   Funnel.trim_and_fill g se side max_iter = Funnel.trim_and_fill g se side 2
   /\ Funnel.k0_imputed (Funnel.trim_and_fill g se side max_iter)
      = settled_k0 g se side
   /\ (Funnel.converged (Funnel.trim_and_fill g se side max_iter) = false <->
       (Z.of_nat (length g) <= Funnel.estimate_k0 g se side)%Z
       /\ (2 <= length g)%nat)).
Proof.
  split.
  - pose proof (iterate_bounds max_iter) as H. unfold Funnel.trim_and_fill.
    destruct (Funnel.iterate g se side max_iter (-1) 0) as [k0_prev k0].
    exact H.
  - intros Hn. unfold Funnel.trim_and_fill, settled_k0.
    rewrite (iterate_settles max_iter Hn), (iterate_settles 2) by lia.
    split; [reflexivity|].
    pose proof estimate_k0_nonneg as He.
    destruct (Funnel.estimate_k0 g se side >=? Z.of_nat (length g))%Z eqn:E;
      cbn [Funnel.k0_imputed Funnel.converged].
    + split; [reflexivity|]. rewrite Z.geb_leb in E. apply Z.leb_le in E.
      rewrite Z.eqb_neq. lia.
    + split; [reflexivity|]. rewrite Z.geb_leb in E. apply Z.leb_gt in E.
      rewrite Z.eqb_refl. split; [discriminate|lia].
Qed.

End TrimAndFillProperties.

(** ** Sorted strings *)

Section SortingProperties.

Lemma in_insert_string x y l : In x (insert_string y l) <-> x = y \/ In x l.
Proof.
  induction l as [|z l IH]; cbn [insert_string In]; [intuition congruence|].
  destruct (String.leb y z); cbn [In]; [intuition congruence|].
  rewrite IH. intuition congruence.
Qed.

Lemma insert_string_sorted x l :
  Sorted (fun a b => String.leb a b = true) l ->
  Sorted (fun a b => String.leb a b = true) (insert_string x l).
Proof.
  intros H. induction H as [|y l Hs IH Hd]; cbn [insert_string].
  - repeat constructor.
  - destruct (String.leb x y) eqn:E.
    + repeat constructor; assumption.
    + constructor; [assumption|].
      assert (Hyx : String.leb y x = true).
      { destruct (String.leb_total x y); congruence. }
      destruct l as [|z l]; cbn [insert_string].
      * now constructor.
      * destruct (String.leb x z); constructor; [assumption|].
        now inversion Hd.
Qed.

Lemma sort_strings_sorted l :
  Sorted (fun a b => String.leb a b = true) (sort_strings l).
Proof.
  induction l as [|x l IH]; [constructor|].
  cbn [sort_strings fold_right]. now apply insert_string_sorted.
Qed.

Lemma insert_string_perm x l : Permutation (x :: l) (insert_string x l).
Proof.
  induction l as [|y l IH]; cbn [insert_string]; [reflexivity|].
  destruct (String.leb x y); [reflexivity|].
  rewrite perm_swap. now constructor.
Qed.

Lemma sort_strings_perm l : Permutation l (sort_strings l).
Proof.
  induction l as [|x l IH]; [constructor|].
  cbn [sort_strings fold_right]. rewrite <- insert_string_perm.
  now constructor.
Qed.

Lemma string_compare_trans a b c :
  String.compare a b <> Gt -> String.compare b c <> Gt ->
  String.compare a c <> Gt.
Proof.
  revert b c. induction a as [|ca a IH]; intros [|cb b] [|cc c];
    cbn [String.compare]; try congruence.
  unfold Ascii.compare.
  destruct (N.compare_spec (Ascii.N_of_ascii ca) (Ascii.N_of_ascii cb))
    as [Hab|Hab|Hab];
    destruct (N.compare_spec (Ascii.N_of_ascii cb) (Ascii.N_of_ascii cc))
      as [Hbc|Hbc|Hbc];
    try congruence; intros H1 H2.
  - rewrite Hab, Hbc, N.compare_refl. now apply (IH b c).
  - rewrite Hab. apply N.compare_lt_iff in Hbc. now rewrite Hbc.
  - rewrite <- Hbc. apply N.compare_lt_iff in Hab. now rewrite Hab.
  - assert (Hac : (Ascii.N_of_ascii ca < Ascii.N_of_ascii cc)%N) by lia.
    apply N.compare_lt_iff in Hac. now rewrite Hac.
Qed.

Lemma string_leb_trans a b c :
  String.leb a b = true -> String.leb b c = true -> String.leb a c = true.
Proof.
  unfold String.leb. intros H1 H2.
  pose proof (string_compare_trans a b c) as H.
  destruct (String.compare a b), (String.compare b c), (String.compare a c);
    try discriminate; try reflexivity; exfalso; apply H; congruence.
Qed.



End SortingProperties.

(** ** Subgroup analysis *)

Section SubgroupProperties.
Import Subgroups.
Local Open Scope R_scope.

Lemma in_sort_strings x l : In x (sort_strings l) <-> In x l.
Proof.
  induction l as [|y l IH]; [reflexivity|].
  cbn [sort_strings fold_right In]. fold (sort_strings l).
  rewrite in_insert_string, IH. intuition congruence.
Qed.

Lemma sorted_filter (P : string -> Prop) `{!forall x, Decision (P x)} l :
  Sorted (fun a b => String.leb a b = true) l ->
  Sorted (fun a b => String.leb a b = true) (filter P l).
Proof.
  intros Hs. apply Sorted_StronglySorted in Hs;
    [|intros a b c; apply string_leb_trans].
  apply StronglySorted_Sorted.
  induction Hs as [|x l Hl IH Hx]; [constructor|].
  rewrite filter_cons. destruct (decide (P x)); [|assumption].
  constructor; [assumption|].
  apply List.Forall_forall. intros y Hy.
  apply list_elem_of_In, list_elem_of_filter in Hy as [_ Hy].
  apply list_elem_of_In in Hy.
  exact (proj1 (List.Forall_forall _ _) Hx y Hy).
Qed.

Lemma NoDup_unique l : List.NoDup (QA.unique l).
Proof.
  induction l as [|x l IH]; cbn [QA.unique]; constructor.
  - rewrite <- list_elem_of_In, list_elem_of_filter. tauto.
  - apply NoDup_ListNoDup, NoDup_filter, NoDup_ListNoDup, IH.
Qed.

Section Guarded.

Variable scipy_stats : option ((xfloat -> Z -> xfloat) * (xfloat -> xfloat)).
Variable df : list row.
Hypothesis positive : Forall (fun r => 0 < snd (fst r)) (dropna df).

Lemma group_pools group :
  (2 <= length (members df group))%nat ->
  exists p,
    Report.random_effects_meta scipy_stats
      (map (fun r => Fin (fst (fst r))) (members df group))
      (map (fun r => Fin (snd (fst r))) (members df group))
    = Ret (Report.Pooled p) /\ Report.k p = length (members df group).
Proof.
  intros Hk.
  set (sg := members df group) in *.
  assert (Hpos : Forall (fun s => 0 < s) (map (fun r => snd (fst r)) sg)).
  { apply List.Forall_map. apply List.Forall_forall. intros r Hr.
    apply list_elem_of_In, list_elem_of_filter in Hr as [_ Hr].
    apply list_elem_of_In in Hr.
    exact (proj1 (List.Forall_forall _ _) positive r Hr). }
  destruct (random_effects_meta_DL
              (map (fun r => fst (fst r)) sg) (map (fun r => snd (fst r)) sg))
    with (scipy_stats := scipy_stats) as (p & Hp & Hkp & _).
  - now rewrite !length_map.
  - rewrite length_map. lia.
  - exact Hpos.
  - now rewrite length_map.
  - exists p. rewrite !map_map in Hp. split; [exact Hp|].
    now rewrite Hkp, length_map.
Qed.

Lemma analyse_all groups acc :
  exists results,
    fold_left (analyse scipy_stats (dropna df)) groups (Ret acc)
      = Ret (acc ++ results) /\
    map fst results =
      filter (fun group => (2 <= length (members df group))%nat) groups /\
    Forall (fun gm => exists p, snd gm = Report.Pooled p
                      /\ Report.k p = length (members df (fst gm))) results.
Proof.
  revert acc. induction groups as [|group groups IH]; intros acc.
  - exists []. cbn [fold_left]. rewrite app_nil_r. repeat split. constructor.
  - cbn [fold_left]. unfold analyse at 2. cbn [bind]. fold (members df group).
    rewrite filter_cons.
    destruct (Nat.ltb_spec (length (members df group)) 2) as [Hlt|Hge].
    + rewrite decide_False by lia. apply IH.
    + rewrite decide_True by lia.
      destruct (group_pools group Hge) as (p & -> & Hk). cbn [bind].
      destruct (IH (acc ++ [(group, Report.Pooled p)]))
        as (results & Hr & Hkeys & Hall).
      exists ((group, Report.Pooled p) :: results).
      rewrite Hr, <- app_assoc. split; [reflexivity|].
      cbn [map fst]. rewrite Hkeys. split; [reflexivity|].
      constructor; [|assumption]. exists p. split; [reflexivity|assumption].
Qed.

(** X18.  On a frame whose complete rows have positive standard errors
    [subgroup_analysis] does not raise.  Its result has one entry for every
    group with at least two complete rows and none for a smaller group; every
    entry is a pooled result whose k is the number of complete rows of the
    group; the keys are in ascending order without repetition. *)
Theorem subgroup_analysis_pools_groups_of_two_or_more :
  exists results,
    subgroup_analysis scipy_stats df = Ret results /\
    map fst results = analysed df /\
    Forall (fun gm => exists p, snd gm = Report.Pooled p
                      /\ Report.k p = length (members df (fst gm))
                      /\ (2 <= Report.k p)%nat) results /\
    Sorted (fun a b => String.leb a b = true) (map fst results) /\
    List.NoDup (map fst results).
Proof.
  unfold subgroup_analysis. cbv zeta.
  destruct (analyse_all (sort_strings (QA.unique (map snd (dropna df)))) [])
    as (results & Hr & Hkeys & Hall).
  exists results. split; [exact Hr|]. split; [exact Hkeys|].
  split; [|split].
  - assert (Hin : Forall (fun gm => In (fst gm) (map fst results)) results).
    { apply List.Forall_forall. intros gm Hgm. now apply in_map. }
    rewrite Hkeys in Hin.
    apply List.Forall_forall. intros gm Hgm.
    destruct (proj1 (List.Forall_forall _ _) Hall gm Hgm) as (p & Hp & Hk).
    exists p. split; [assumption|]. split; [assumption|].
    pose proof (proj1 (List.Forall_forall _ _) Hin gm Hgm) as Hf.
    apply list_elem_of_In, list_elem_of_filter in Hf as [Hf _]. lia.
  - rewrite Hkeys. apply sorted_filter, sort_strings_sorted.
  - rewrite Hkeys. apply NoDup_ListNoDup, NoDup_filter, NoDup_ListNoDup.
    eapply Permutation_NoDup; [apply sort_strings_perm|]. apply NoDup_unique.
Qed.

End Guarded.

Lemma five_rows_give_one_group :
  Forall (fun r => 0 < snd (fst r)) (dropna five_rows) /\
  exists results,
    subgroup_analysis None five_rows = Ret results /\
    map fst results = ["b"%string].
Proof.
  assert (H : Forall (fun r => 0 < snd (fst r)) (dropna five_rows))
    by (repeat constructor; cbn; lra).
  split; [exact H|].
  destruct (subgroup_analysis_pools_groups_of_two_or_more None five_rows H)
    as (results & Hr & Hkeys & _).
  exists results. split; [exact Hr|]. rewrite Hkeys. reflexivity.
Defined.

End SubgroupProperties.

(** ** What the gates guarantee *)

Section GateGuaranteeProperties.
Import QA.

Lemma length_filter_nil {A} (P : A -> Prop) `{!forall x, Decision (P x)} (l : list A) :
  Nat.eqb (length (filter P l)) 0 = true <-> Forall (fun x => ~ P x) l.
Proof.
  rewrite Nat.eqb_eq, length_zero_iff_nil. induction l as [|a l IH].
  - split; [constructor|reflexivity].
  - rewrite filter_cons. destruct (decide (P a)) as [Ha|Ha].
    + split; [discriminate|]. intros Hf. inversion Hf; subst. contradiction.
    + rewrite IH. split; [now constructor|]. intros Hf. now inversion Hf.
Qed.

Lemma gate1_passes qt f :
  fst (gate1 qt f) = true <-> Forall (in_range (max_g_of qt)) f.
Proof.
  unfold max_g_of. cbn [gate1 fst].
  rewrite length_filter_nil. apply Forall_iff. intros r. unfold in_range.
  destruct (hedges_g r) as [g|].
  - rewrite negb_true_iff, <- not_true_iff_false, Qle_bool_iff. split.
    + intros H g' [= <-]. destruct (Qlt_le_dec
        (match max_effect_size qt with Some m => m | None => 5%Q end) (Qabs g))
        as [Hlt|Hle]; [|assumption].
      exfalso. apply H. intros Hle. apply (Qlt_not_le _ _ Hlt Hle).
    + intros H Hn. apply Hn. now apply H.
  - split; [intros _ g [=]|intros _ [=]].
Qed.

(** X8.  Gate 1 passes exactly when every row that has an effect size has
    |g| <= max_effect_size, 5.0 when the target is not configured; a row
    without an effect size never fails it.  The number it reports is the
    number of flagged entries, and every flagged entry carries a g beyond
    the bound. *)
Theorem gate1_passes_when_every_reported_g_is_in_range
  (qt : quality_targets) (f : frame) :
  (fst (gate1 qt f) = true <-> Forall (in_range (max_g_of qt)) f) /\
  n_out_of_range (snd (gate1 qt f)) = length (flagged_entries (snd (gate1 qt f))) /\
  Forall (fun e => exists g, fe_hedges_g e = Some g /\ ~ (Qabs g <= max_g_of qt)%Q)
         (flagged_entries (snd (gate1 qt f))).
Proof.
  split; [apply gate1_passes|].
  unfold max_g_of. cbn [gate1 fst snd n_out_of_range flagged_entries].
  split.
  - now rewrite length_map.
  - apply List.Forall_map. apply List.Forall_forall. intros r Hr.
    apply list_elem_of_In, list_elem_of_filter in Hr as [Hr _].
    cbn [fe_hedges_g]. destruct (hedges_g r) as [g|]; [|discriminate].
    exists g. split; [reflexivity|].
    now rewrite negb_true_iff, <- not_true_iff_false, Qle_bool_iff in Hr.
Qed.


(** *** Completeness *)

Lemma isna_false {A} (v : option A) : isna v = false <-> v <> None.
Proof. destruct v; cbn [isna]; split; congruence. Qed.

Lemma complete_fields r :
  Forall (fun fm : string * (row -> bool) => snd fm r = false) required_fields
  <-> complete r.
Proof.
  unfold required_fields, complete. rewrite <- !isna_false. split.
  - intros H. repeat (inversion_clear H as [|? ? ? H']; rename H' into H;
                      cbn [snd] in *). tauto.
  - intros (? & ? & ? & ? & ? & ? & ?). repeat constructor; assumption.
Qed.

Lemma gate5_incomplete_nil f :
  incomplete_fields (snd (gate5 f)) = [] <-> Forall complete f.
Proof.
  assert (Hc : Forall complete f <->
               Forall (fun r => Forall (fun fm : string * (row -> bool) =>
                                          snd fm r = false) required_fields) f)
    by (symmetry; apply Forall_iff; intros r; apply complete_fields).
  rewrite Hc. clear Hc. cbn [gate5 snd incomplete_fields].
  generalize required_fields. intros fields.
  match goal with |- omap ?F0 _ = [] <-> _ => set (F := F0) end.
  induction fields as [|fm fields IH].
  - split; [|reflexivity]. intros _. apply List.Forall_forall. constructor.
  - change (omap F (fm :: fields))
      with (match F fm with Some y => y :: omap F fields | None => omap F fields end).
    unfold F at 1.
    destruct (filter (fun r => snd fm r = true) f) as [|a l] eqn:E.
    + cbn [length Nat.ltb Nat.leb]. rewrite IH.
      assert (Hfm : Forall (fun r => snd fm r = false) f).
      { assert (Hf : Nat.eqb (length (filter (fun r => snd fm r = true) f)) 0 = true)
          by now rewrite E.
        apply length_filter_nil in Hf.
        eapply List.Forall_impl; [|exact Hf]. intros r Hr.
        now apply not_true_is_false. }
      split; intros H; apply List.Forall_forall; intros r Hr.
      * constructor.
        -- exact (proj1 (List.Forall_forall _ _) Hfm r Hr).
        -- exact (proj1 (List.Forall_forall _ _) H r Hr).
      * pose proof (proj1 (List.Forall_forall _ _) H r Hr) as Hc.
        now inversion Hc.
    + cbn [length Nat.ltb Nat.leb]. split; [discriminate|]. intros H. exfalso.
      assert (Ha : a ∈ filter (fun r => snd fm r = true) f) by (rewrite E; left).
      apply list_elem_of_filter in Ha as [Ha Hin].
      apply list_elem_of_In in Hin.
      pose proof (proj1 (List.Forall_forall _ _) H a Hin) as Hc.
      inversion Hc; subst. congruence.
Qed.

Lemma gate5_passes f : fst (gate5 f) = true <-> Forall complete f.
Proof.
  rewrite <- gate5_incomplete_nil. cbn [gate5 fst snd incomplete_fields].
  rewrite Nat.eqb_eq. apply length_zero_iff_nil.
Qed.

(** X9.  Gate 5 passes exactly when no row misses any of the seven required
    cells.  The number of incomplete fields it reports is the number of
    entries of [incomplete_fields], and every entry is a required field with
    the number of rows that miss it, which is at least one. *)
Theorem gate5_passes_when_no_required_cell_is_missing (f : frame) :
  (fst (gate5 f) = true <-> Forall complete f) /\
  n_incomplete_fields (snd (gate5 f)) = length (incomplete_fields (snd (gate5 f))) /\
  Forall (fun i => (1 <= if_n_missing i)%nat /\
                   exists check, In (field i, check) required_fields /\
                     if_n_missing i = length (filter (fun r => check r = true) f))
         (incomplete_fields (snd (gate5 f))).
Proof.
  split; [apply gate5_passes|]. cbn [gate5 snd n_incomplete_fields incomplete_fields].
  split; [reflexivity|].
  apply List.Forall_forall. intros i Hi.
  apply list_elem_of_In, list_elem_of_omap in Hi as ([name check] & Hin & Hi).
  cbn [fst snd] in Hi.
  destruct (Nat.ltb_spec 0 (length (filter (fun r => check r = true) f)))
    as [Hpos|_]; [|discriminate].
  injection Hi as <-. cbn [if_n_missing field].
  split; [lia|]. exists check. split; [now apply list_elem_of_In|reflexivity].
Qed.


(** *** Duplicates *)

Lemma same_key_eq a b : same_key a b = true <-> key a = key b.
Proof.
  unfold same_key, key. rewrite andb_true_iff, !String.eqb_eq.
  split; [intros [-> ->]; reflexivity|intros [= -> ->]; tauto].
Qed.

(** The rows of [l] with the key of [r]. *)
Lemma same_key_count r a l :
  length (filter (fun r' => same_key r r' = true) (a :: l)) =
  ((if same_key r a then 1 else 0)
   + length (filter (fun r' => same_key r r' = true) l))%nat.
Proof.
  rewrite filter_cons. destruct (same_key r a) eqn:E.
  - rewrite decide_True by reflexivity. reflexivity.
  - rewrite decide_False by discriminate. reflexivity.
Qed.

Lemma same_key_count_0 r l :
  length (filter (fun r' => same_key r r' = true) l) = 0%nat
  <-> ~ In (key r) (map key l).
Proof.
  rewrite length_zero_iff_nil.
  change (filter (fun r' => same_key r r' = true) l = [])
    with (filter (fun r' => same_key r r' = true) l = []).
  induction l as [|a l IH].
  - split; [intros _ []|reflexivity].
  - rewrite filter_cons. cbn [map In]. destruct (same_key r a) eqn:E.
    + rewrite decide_True by reflexivity. split; [discriminate|].
      intros H. exfalso. apply H. left. symmetry. now apply same_key_eq.
    + rewrite decide_False by discriminate. rewrite IH.
      assert (key a <> key r).
      { intros Hk. symmetry in Hk. apply same_key_eq in Hk. congruence. }
      tauto.
Qed.

Lemma no_duplicated_NoDup l :
  Forall (fun r => duplicated l r = false) l <-> List.NoDup (map key l).
Proof.
  unfold duplicated, frame. induction l as [|a l IH].
  - split; constructor.
  - cbn [map]. rewrite List.NoDup_cons_iff, <- IH, <- same_key_count_0.
    split.
    + intros H. inversion H as [|? ? Ha Hl]; subst.
      rewrite same_key_count in Ha.
      assert (Haa : same_key a a = true) by now apply same_key_eq.
      rewrite Haa in Ha. apply Nat.ltb_ge in Ha. split; [lia|].
      eapply List.Forall_impl; [|exact Hl]. intros r Hr. cbv beta in Hr.
      rewrite same_key_count in Hr. apply Nat.ltb_ge in Hr.
      apply Nat.ltb_ge. destruct (same_key r a); lia.
    + intros [Ha Hl]. constructor.
      * rewrite same_key_count, Ha.
        assert (Haa : same_key a a = true) by now apply same_key_eq.
        now rewrite Haa.
      * apply List.Forall_forall. intros r Hr.
        pose proof (proj1 (List.Forall_forall _ _) Hl r Hr) as Hc.
        rewrite same_key_count.
        destruct (same_key r a) eqn:E; [|exact Hc]. exfalso.
        apply same_key_eq in E. apply same_key_count_0 in Ha. apply Ha.
        rewrite <- E. now apply in_map.
Qed.

Lemma in_key_insert k x l : In k (key_insert x l) <-> k = x \/ In k l.
Proof.
  induction l as [|y l IH]; cbn [key_insert In]; [intuition congruence|].
  destruct (key_leb x y); cbn [In]; [intuition congruence|].
  rewrite IH. intuition congruence.
Qed.

Lemma in_sorted_keys k l : In k (fold_right key_insert [] l) <-> In k l.
Proof.
  induction l as [|x l IH]; [reflexivity|].
  cbn [fold_right In]. rewrite in_key_insert, IH. intuition congruence.
Qed.

Lemma in_unique_keys k l : In k (unique_keys l) <-> In k l.
Proof.
  induction l as [|x l IH]; [reflexivity|].
  cbn [unique_keys In].
  rewrite <- (list_elem_of_In (filter _ _) k), list_elem_of_filter.
  rewrite list_elem_of_In, IH.
  destruct (decide (k = x)) as [->|]; [tauto|].
  split; [tauto|]. intros [?|?]; [congruence|]. right. tauto.
Qed.

Lemma duplicated_key (f : frame) a b :
  key a = key b -> duplicated f a = duplicated f b.
Proof.
  intros H. unfold duplicated. do 2 f_equal. apply list_filter_iff.
  intros x. rewrite !same_key_eq. now rewrite H.
Qed.

Lemma gate6_passes f : fst (gate6 f) = true <-> List.NoDup (map key f).
Proof.
  cbn [gate6 fst]. rewrite <- no_duplicated_NoDup, length_filter_nil.
  apply Forall_iff. intros r. now destruct (duplicated f r).
Qed.

(** X10.  Gate 6 passes exactly when no two rows of the frame share the pair
    (study_id, outcome_label).  Every group it lists counts at least two rows
    and its pair occurs in the frame. *)
Theorem gate6_passes_when_keys_are_distinct (f : frame) :
  (fst (gate6 f) = true <-> List.NoDup (map key f)) /\
  Forall (fun d => (2 <= count d)%nat
                   /\ In (dg_study_id d, dg_outcome_label d) (map key f))
         (duplicates (snd (gate6 f))).
Proof.
  split; [apply gate6_passes|]. cbn [gate6 snd duplicates].
  - apply List.Forall_map, List.Forall_forall. intros k Hk.
    cbn [count dg_study_id dg_outcome_label].
    apply in_sorted_keys, in_unique_keys, in_map_iff in Hk as (r & Hr & Hin).
    apply list_elem_of_In, list_elem_of_filter in Hin as [Hdup Hin].
    apply list_elem_of_In in Hin.
    assert (Hkey : key r = k) by exact Hr.
    split.
    + unfold frame in *. rewrite list_filter_filter_l.
      * unfold duplicated in Hdup. apply Nat.ltb_lt in Hdup.
        erewrite list_filter_iff; [exact Hdup|].
        intros x. cbv beta. rewrite same_key_eq, Hkey. unfold key.
        destruct k as [k1 k2]. cbn [fst snd].
        split; [intros [<- <-]; reflexivity|intros [= <- <-]; tauto].
      * intros x [H1 H2]. rewrite <- Hdup. apply duplicated_key.
        rewrite Hkey. unfold key. destruct k; cbn [fst snd] in *. congruence.
    + rewrite <- surjective_pairing, <- Hkey. now apply in_map.
Qed.


(** *** Study-level vocabulary *)

Lemma in_drop_duplicates f r : In r (drop_duplicates f) <-> first_row f r.
Proof.
  unfold drop_duplicates, first_row.
  rewrite <- list_elem_of_In, list_elem_of_omap. split.
  - intros (sid & _ & H). eauto.
  - intros (sid & H). exists sid. split; [|assumption].
    apply list_elem_of_In, in_unique, in_map_iff.
    apply head_rows_of in H as [<- Hin]. eauto.
Qed.

Lemma vocabulary_gate_passes vocabulary column f :
  fst (vocabulary_gate vocabulary column f) = true <->
  forall r, first_row f r -> in_vocabulary vocabulary (column r).
Proof.
  cbn [vocabulary_gate fst]. rewrite andb_true_iff, !length_filter_nil.
  rewrite !List.Forall_forall.
  setoid_rewrite in_drop_duplicates. unfold in_vocabulary. split.
  - intros [Hi Hm] r Hr. specialize (Hi r Hr). specialize (Hm r Hr).
    unfold is_blank in Hm. destruct (column r) as [s|]; [|congruence].
    exists s. split; [reflexivity|].
    destruct (String.eqb s "") eqn:E; [congruence|].
    apply String.eqb_neq in E. split; [assumption|].
    destruct (mem_string (lower s) vocabulary); [reflexivity|].
    exfalso. apply Hi. reflexivity.
  - intros H. split; intros r Hr; destruct (H r Hr) as (s & -> & Hne & Hmem).
    + rewrite Hmem. discriminate.
    + unfold is_blank. apply String.eqb_neq in Hne. congruence.
Qed.

(** X11.  Gates 3 and 4 read the first row of each study and nothing else.
    Gate 3 passes exactly when the design_type of every such row is present,
    not empty and, in lower case, one of VALID_DESIGNS; gate 4 passes exactly
    when its outcome_type is present, not empty and, in lower case, one of
    VALID_OUTCOME_TYPES.  Lower case is that of the ASCII letters. *)
Theorem vocabulary_gates_read_the_first_row_of_each_study (f : frame) :
  (fst (gate3 f) = true <->
   forall r, first_row f r -> in_vocabulary VALID_DESIGNS (design_type r)) /\
  (fst (gate4 f) = true <->
   forall r, first_row f r -> in_vocabulary VALID_OUTCOME_TYPES (outcome_type r)).
Proof. split; apply vocabulary_gate_passes. Qed.

(** *** What a passing report means *)

Lemma flagged_has_first_row qt f sid :
  In sid (flagged qt f) -> exists r, head (rows_of sid f) = Some r.
Proof.
  unfold flagged. cbn [gate2 snd issues]. unfold gate2_issues.
  rewrite in_map_iff. intros (x & Hx & Hin).
  apply in_flat_map in Hin as (sid' & _ & Hin).
  destruct (head (rows_of sid' f)) as [r|] eqn:E; [|destruct Hin].
  apply study_issues_fst in Hin. exists r. congruence.
Qed.

Lemma gate2_passes qt f :
  fst (gate2 qt f) = true <->
  forall r, first_row f r -> ~ violates (min_n_of qt) r.
Proof.
  rewrite gate2_passed. split.
  - intros Hnil r [sid Hr] Hv. apply (gate2_flags qt f sid r Hr) in Hv.
    rewrite Hnil in Hv. destruct Hv.
  - intros H. destruct (flagged qt f) as [|sid l] eqn:E; [reflexivity|].
    exfalso. assert (Hin : In sid (flagged qt f)) by (rewrite E; now left).
    destruct (flagged_has_first_row qt f sid Hin) as [r Hr].
    apply (H r); [now exists sid|]. now apply (gate2_flags qt f sid r Hr).
Qed.

(** X12.  The report of [run_all_gates] has all_gates_passed = True exactly
    when every effect size of the frame is within the bound, no row misses a
    required cell, no two rows share (study_id, outcome_label), and the
    first row of every study has adequate sample sizes, a valid design and
    a valid outcome type. *)
Theorem all_gates_passed_means (qt : quality_targets) (w : world) :
  all_gates_passed (fst (run_all_gates qt w)) = true <->
  Forall (in_range (max_g_of qt)) (df w) /\
  Forall complete (df w) /\
  List.NoDup (map key (df w)) /\
  (forall r, first_row (df w) r ->
     ~ violates (min_n_of qt) r
     /\ in_vocabulary VALID_DESIGNS (design_type r)
     /\ in_vocabulary VALID_OUTCOME_TYPES (outcome_type r)).
Proof.
  rewrite run_all_gates_passed. unfold gate_checks, wrapped.
  cbn [forallb fst]. rewrite !andb_true_iff.
  rewrite gate1_passes, gate2_passes, gate5_passes, gate6_passes.
  unfold gate3, gate4. rewrite !vocabulary_gate_passes.
  split.
  - intros (Hg1 & Hg2 & Hg3 & Hg4 & Hg5 & Hg6 & _). repeat split; auto.
  - intros (Hg1 & Hg5 & Hg6 & H). repeat split; try assumption;
      intros r Hr; now apply H.
Qed.


(** *** The audit trail *)

Lemma gate_method_writes {D : Type} log_name (wrap : D -> details) check :
  writes log_name (wrapped wrap check) (gate_method log_name wrap check).
Proof. intros w. reflexivity. Qed.

Lemma gates_write qt :
  Forall2 (fun nc g => writes (fst nc) (snd nc) (snd g))
          (combine log_names (gate_checks qt)) (gates qt).
Proof. repeat constructor; apply gate_method_writes. Qed.

Lemma run_gates_writes gs ncs acc all_passed w :
  Forall2 (fun nc g => writes (fst nc) (snd nc) (snd g)) ncs gs ->
  audit_log (snd (run_gates gs acc all_passed w)) =
    audit_log w ++ log_lines ncs (df w) (clock w).
Proof.
  intros H. revert acc all_passed w.
  induction H as [|[log_name check] [gate_name gate_func] ncs gs Hw _ IH];
    intros acc all_passed w.
  - cbn [run_gates ret snd log_lines]. now rewrite app_nil_r.
  - cbn [run_gates]. unfold seq_st. cbn [fst snd] in Hw.
    rewrite IH, (Hw w). cbn [snd fst df audit_log clock log_lines].
    now rewrite <- app_assoc.
Qed.

(** X13.  [run_all_gates] appends six lines to the audit log and leaves the
    earlier lines: one line per gate in the order of the gates, named
    Gate 1 to Gate 6, each with the verdict and the details that the report
    gives for that gate.  The lines carry six successive readings of the
    clock and the report carries the seventh. *)
Theorem audit_log_agrees_with_the_report (qt : quality_targets) (w : world) :
  audit_log (snd (run_all_gates qt w)) =
    audit_log w ++ log_lines (combine log_names (gate_checks qt)) (df w) (clock w) /\
  map (fun e => (log_passed e, log_details e))
      (log_lines (combine log_names (gate_checks qt)) (df w) (clock w)) =
  map (fun r => (passed r, gate_details r))
      (gate_results (fst (run_all_gates qt w))) /\
  map log_timestamp
      (log_lines (combine log_names (gate_checks qt)) (df w) (clock w)) =
  seq (clock w) 6 /\
  qa_timestamp (fst (run_all_gates qt w)) = (clock w + 6)%nat.
Proof.
  split; [|split; [|split]].
  - destruct (run_all_gates_unfold qt w) as (_ & _ & _ & _ & ->).
    apply run_gates_writes, gates_write.
  - rewrite run_all_gates_checks. reflexivity.
  - reflexivity.
  - apply run_all_gates_clock.
Qed.

End GateGuaranteeProperties.

(** ** Votes of the models *)

Section Counters.
Import Vote.
Context {A : Type} `{EqDecision A}.
Implicit Types (v w : A) (values : list A).













(** *** The counter *)




(** *** The first maximum *)




End Counters.

Section VoteProperties.
Import Vote.




End VoteProperties.

(** ** Records of the effect-size consensus *)

Section ConsensusRecordProperties.
Import Consensus.

Lemma collect_contributing results d :
  fold_left collect_model results d =
  fold_left collect_model (filter (fun mr => contributes mr = true) results) d.
Proof.
  revert d. induction results as [|mr results IH]; intros d; [reflexivity|].
  rewrite filter_cons. cbn [fold_left]. unfold contributes at 1.
  destruct mr as [name [|[|es ess]]]; cbn [snd].
  - rewrite decide_False by discriminate. apply IH.
  - rewrite decide_False by discriminate. apply IH.
  - rewrite decide_True by reflexivity. cbn [fold_left]. apply IH.
Qed.

(** X23.  [_synthesize_effect_sizes] ignores the models whose result has an
    error key and the models that verified no effect size: the returned list
    is the one obtained from the other models alone, wherever the ignored
    ones stand among them. *)
Theorem errored_models_leave_no_trace (results : model_results) :
  _synthesize_effect_sizes results =
  _synthesize_effect_sizes (filter (fun mr => contributes mr = true) results).
Proof.
  unfold _synthesize_effect_sizes, collect. now rewrite collect_contributing.
Qed.

Lemma length_omap_has_g (es : list entry) :
  length (omap hedges_g (filter (fun v => has_g v = true) es))
  = length (filter (fun v => has_g v = true) es).
Proof.
  induction es as [|v es IH]; [reflexivity|].
  rewrite filter_cons. destruct (has_g v) eqn:E.
  - rewrite decide_True by reflexivity. unfold has_g in E.
    cbn [omap list_omap]. destruct (hedges_g v); [|discriminate].
    cbn [length]. f_equal. exact IH.
  - rewrite decide_False by discriminate. exact IH.
Qed.

Lemma consensus_of_record label values c :
  consensus_of label values = Some c ->
  outcome_label c = label /\
  n_models_agree c = length values /\
  g_values_per_model c = omap hedges_g values /\
  g_values_per_model c <> [] /\
  hedges_g_consensus c = Qpy_round 4 (Qmean (g_values_per_model c)) /\
  (length (g_values_per_model c) <= n_models_agree c)%nat /\
  (consensus_quality c, flag c) = quality_of (n_models_agree c).
Proof.
  unfold consensus_of.
  assert (Hgs : omap hedges_g (filter (fun v => has_g v = true) values)
                = omap hedges_g values) by apply omap_filter_has_g.
  pose proof (length_omap_has_g values) as Hlen. rewrite Hgs in Hlen.
  pose proof (length_filter (fun v => has_g v = true) values) as Hle.
  destruct (filter (fun v => has_g v = true) values) as [|v l];
    [discriminate|].
  rewrite Hgs. intros [= <-].
  cbn [outcome_label n_models_agree g_values_per_model hedges_g_consensus
       consensus_quality flag].
  split; [reflexivity|]. split; [reflexivity|]. split; [reflexivity|].
  split.
  { intros Hnil. rewrite Hnil in Hlen. discriminate. }
  split; [reflexivity|]. split.
  { rewrite Hlen. exact Hle. }
  destruct (length values) as [|[|[|[|n]]]]; reflexivity.
Qed.

Lemma consensus_for_member (out : list consensus) (c : consensus) :
  List.NoDup (map outcome_label out) -> In c out ->
  consensus_for (outcome_label c) out = Some c.
Proof.
  unfold consensus_for.
  induction out as [|c' out IH]; intros Hnd Hin; [destruct Hin|].
  cbn [List.find]. cbn [map] in Hnd.
  apply List.NoDup_cons_iff in Hnd as [Hn Hnd].
  destruct Hin as [->|Hin]; [now rewrite label_eqb_refl|].
  destruct (label_eqb_spec (outcome_label c') (outcome_label c)) as [E|_];
    [|now apply IH].
  exfalso. apply Hn. rewrite E. now apply in_map.
Qed.

(** X22.  Every record that [_synthesize_effect_sizes] returns carries the
    non-null g values reported for its label, at least one, and their mean
    rounded to four decimals.  n_models_agree is the number of entries
    collected for the label, with or without a g and several of one model
    included, so it is at least the number of g values.  The quality follows
    that number: 3 gives 3/3_agree without flag, 2 gives 2/3_agree with
    majority_consensus, and any other number, four or more included, gives
    1/3_only with human_review_needed. *)
Theorem every_consensus_record_counts_entries
  (results : model_results) (c : consensus) :
  In c (_synthesize_effect_sizes results) ->
  g_values_per_model c = g_values (outcome_label c) results /\
  n_models_agree c = length (entries_for (outcome_label c) results) /\
  (1 <= length (g_values_per_model c) <= n_models_agree c)%nat /\
  hedges_g_consensus c = Qpy_round 4 (Qmean (g_values_per_model c)) /\
  (consensus_quality c, flag c) = quality_of (n_models_agree c).
Proof.
  intros Hin.
  apply consensus_for_member in Hin;
    [|apply NoDup_synthesize_all, NoDup_collect].
  rewrite consensus_for_entries in Hin.
  apply consensus_of_record in Hin as (_ & Hn & Hg & Hne & Hmean & Hle & Hq).
  split; [exact Hg|]. split; [exact Hn|]. split; [|split; assumption].
  split; [|assumption].
  destruct (g_values_per_model c); [congruence|cbn [length]; lia].
Qed.

Lemma three_agreeing_models_count_three :
  exists c,
    In c (_synthesize_effect_sizes three_agree) /\
    n_models_agree c = 3%nat /\
    (consensus_quality c, flag c) = quality_of 3.
Proof.
  eexists. split; [left; reflexivity|].
  destruct (every_consensus_record_counts_entries three_agree _
              (or_introl eq_refl)) as (_ & Hn & _ & _ & Hq).
  split; [exact Hn|]. rewrite Hq, Hn. reflexivity.
Defined.

End ConsensusRecordProperties.

(** ** The cost tracker *)

Section CostProperties.
Import Cost.

Lemma lookup_assign {A} key k (v : A) d :
  dict_get key (dict_set k v d) = if String.eqb k key then Some v else dict_get key d.
Proof.
  induction d as [|[k0 v0] d IH]; cbn [dict_set dict_get]; [reflexivity|].
  destruct (String.eqb_spec k0 k) as [->|Hne]; cbn [dict_get].
  - destruct (String.eqb k key); reflexivity.
  - rewrite IH. destruct (String.eqb_spec k0 key) as [->|]; [|reflexivity].
    destruct (String.eqb_spec k key); [congruence|reflexivity].
Qed.

Lemma keys_assign {A} k (v : A) d :
  map fst (dict_set k v d) =
  if decide (k ∈ map fst d) then map fst d else map fst d ++ [k].
Proof.
  induction d as [|[k0 v0] d IH]; cbn [dict_set map fst].
  - rewrite decide_False by (apply not_elem_of_nil). reflexivity.
  - destruct (String.eqb_spec k0 k) as [->|Hne]; cbn [map fst].
    + rewrite decide_True by left. reflexivity.
    + rewrite IH. destruct (decide (k ∈ map fst d)) as [Hin|Hin].
      * rewrite decide_True by (right; exact Hin). reflexivity.
      * rewrite decide_False; [reflexivity|].
        apply not_elem_of_cons. split; congruence.
Qed.

Lemma NoDup_assign {A} k (v : A) d :
  List.NoDup (map fst d) -> List.NoDup (map fst (dict_set k v d)).
Proof.
  intros H. rewrite keys_assign. destruct (decide _) as [|Hn]; [exact H|].
  apply NoDup_ListNoDup. apply NoDup_app. apply NoDup_ListNoDup in H.
  split; [exact H|]. split.
  - intros x Hx Hk. apply list_elem_of_singleton in Hk as ->. now apply Hn.
  - apply NoDup_singleton.
Qed.

Lemma lookup_None {A} key (d : dict A) :
  dict_get key d = None <-> ~ In key (map fst d).
Proof.
  induction d as [|[k v] d IH]; cbn [dict_get map fst In]; [tauto|].
  destruct (String.eqb_spec k key); [split; [discriminate|tauto]|].
  rewrite IH. tauto.
Qed.

Lemma tracked_snoc cs c :
  tracked (cs ++ [c]) = track (fst c) (fst (snd c)) (snd (snd c)) (tracked cs).
Proof. unfold tracked. now rewrite fold_left_app. Qed.

Lemma calls_of_snoc model cs c :
  calls_of model (cs ++ [c]) =
  if String.eqb (fst c) model then calls_of model cs ++ [c]
  else calls_of model cs.
Proof.
  unfold calls_of. rewrite filter_app, filter_cons, filter_nil.
  destruct (String.eqb_spec (fst c) model) as [E|E].
  - now rewrite decide_True by exact E.
  - rewrite decide_False by exact E. apply app_nil_r.
Qed.

Lemma inputs_snoc cs c : inputs (cs ++ [c]) = (inputs cs + fst (snd c))%Z.
Proof.
  unfold inputs. induction cs as [|c0 cs IH]; cbn [app map fold_right].
  - lia.
  - cbn [app map fold_right] in IH. rewrite IH. lia.
Qed.

Lemma outputs_snoc cs c : outputs (cs ++ [c]) = (outputs cs + snd (snd c))%Z.
Proof.
  unfold outputs. induction cs as [|c0 cs IH]; cbn [app map fold_right].
  - lia.
  - cbn [app map fold_right] in IH. rewrite IH. lia.
Qed.

Lemma lookup_tracked model cs :
  dict_get model (tracked cs) = usage_after model cs.
Proof.
  induction cs as [|c cs IH] using rev_ind; [reflexivity|].
  rewrite tracked_snoc. unfold track. rewrite lookup_assign.
  unfold usage_after in *. rewrite calls_of_snoc.
  destruct (String.eqb_spec (fst c) model) as [E|E].
  - subst model. rewrite IH.
    destruct (calls_of (fst c) cs) as [|c1 own] eqn:Eown.
    + cbn [app default_usage input_tokens output_tokens total_calls].
      unfold inputs, outputs. cbn. f_equal. f_equal; lia.
    + remember (c1 :: own) as l. 
      destruct (l ++ [c]) eqn:El; [destruct l; discriminate|].
      rewrite <- El. cbn [input_tokens output_tokens total_calls].
      rewrite inputs_snoc, outputs_snoc, length_app. cbn [length].
      f_equal. f_equal. lia.
  - exact IH.
Qed.

Lemma NoDup_tracked cs : List.NoDup (map fst (tracked cs)).
Proof.
  induction cs as [|c cs IH] using rev_ind; [constructor|].
  rewrite tracked_snoc. unfold track. now apply NoDup_assign.
Qed.

(** X24.  After any sequence of [track] calls on a new tracker, the tracker
    holds one entry per model that was tracked, with the sums of the input
    and of the output tokens of its calls and the number of its calls, and
    no entry for any other model.  [get_cost] is the accumulated tokens per
    million times the listed prices; it is 0 for a model that was not
    tracked and for a model without a listed price, whatever it used. *)
Theorem tracker_accumulates_per_model (cs : list call) (model : string) :
  List.NoDup (map fst (tracked cs)) /\
  dict_get model (tracked cs) = usage_after model cs /\
  get_cost (tracked cs) model =
    (IZR (inputs (calls_of model cs)) / 1000000 * fst (price model) +
     IZR (outputs (calls_of model cs)) / 1000000 * snd (price model))%R /\
  (dict_get model pricing = None -> get_cost (tracked cs) model = 0%R).
Proof.
  split; [apply NoDup_tracked|]. split; [apply lookup_tracked|].
  unfold get_cost, price. rewrite lookup_tracked. unfold usage_after.
  split.
  - destruct (calls_of model cs) as [|c own].
    + unfold inputs, outputs. cbn. lra.
    + cbn [input_tokens output_tokens].
      destruct (dict_get model pricing) as [[pin pout]|]; cbn [fst snd]; reflexivity.
  - intros ->. destruct (calls_of model cs); [reflexivity|].
    cbn [input_tokens output_tokens]. lra.
Qed.

Lemma assign_fresh {A} k (v : A) d :
  ~ In k (map fst d) -> dict_set k v d = d ++ [(k, v)].
Proof.
  induction d as [|[k0 v0] d IH]; cbn [dict_set map fst In app]; intros H;
    [reflexivity|].
  destruct (String.eqb_spec k0 k); [tauto|]. rewrite IH by tauto. reflexivity.
Qed.

Lemma rows_of_distinct_keys {A B} (F : string * A -> B) (d : dict A) acc :
  List.NoDup (map fst acc ++ map fst d) ->
  fold_left (fun s mu => dict_set (fst mu) (F mu) s) d acc =
  acc ++ map (fun mu => (fst mu, F mu)) d.
Proof.
  revert acc. induction d as [|[k v] d IH]; intros acc H; cbn [fold_left map].
  - now rewrite app_nil_r.
  - cbn [map fst] in H. pose proof H as H'.
    apply List.NoDup_remove_2 in H'.
    rewrite assign_fresh by (intros Hin; apply H', in_or_app; now left).
    rewrite IH.
    + rewrite <- app_assoc. reflexivity.
    + rewrite map_app. cbn [map fst]. rewrite <- app_assoc. exact H.
Qed.

Lemma fold_left_same {A B} (f g : A -> B -> A) l a :
  (forall a b, f a b = g a b) -> fold_left f l a = fold_left g l a.
Proof.
  intros H. revert a. induction l as [|b l IH]; intros a; [reflexivity|].
  cbn [fold_left]. now rewrite H, IH.
Qed.

Lemma Zsum_fold_right l : Zsum l = fold_right Z.add 0%Z l.
Proof.
  unfold Zsum. assert (G : forall a, fold_left Z.add l a
                                     = (a + fold_right Z.add 0 l)%Z).
  { induction l as [|x l IH]; intros a; cbn [fold_left fold_right]; [lia|].
    rewrite IH. lia. }
  rewrite G. lia.
Qed.

Lemma total_assign (f : usage -> Z) k v (d : usage_data) :
  fold_right Z.add 0%Z (map (fun s => f (snd s)) (dict_set k v d)) =
  (fold_right Z.add 0 (map (fun s => f (snd s)) d)
   - match dict_get k d with Some u => f u | None => 0 end + f v)%Z.
Proof.
  induction d as [|[k0 v0] d IH]; cbn [dict_set dict_get map fold_right snd];
    [lia|].
  destruct (String.eqb_spec k0 k); cbn [map fold_right snd]; [lia|].
  rewrite IH. lia.
Qed.

Lemma total_tracked (f : usage -> Z) (delta : call -> Z) :
  f default_usage = 0%Z ->
  (forall u c, f {| input_tokens := input_tokens u + fst (snd c);
                    output_tokens := output_tokens u + snd (snd c);
                    total_calls := total_calls u + 1 |}
               = f u + delta c)%Z ->
  forall cs,
    fold_right Z.add 0%Z (map (fun s => f (snd s)) (tracked cs)) =
    fold_right Z.add 0%Z (map delta cs).
Proof.
  intros H0 Hstep cs. induction cs as [|c cs IH] using rev_ind; [reflexivity|].
  rewrite tracked_snoc. unfold track. rewrite total_assign, Hstep, IH.
  rewrite map_app, fold_right_app. cbn [map fold_right].
  assert (G : forall l a, fold_right Z.add a l
                          = (fold_right Z.add 0 l + a)%Z).
  { induction l as [|x l IHl]; intros a; cbn [fold_right]; [lia|].
    rewrite IHl. lia. }
  rewrite (G (map delta cs) (delta c + 0)%Z).
  destruct (dict_get (fst c) (tracked cs)); [lia|rewrite H0; lia].
Qed.

Lemma length_as_sum {A} (l : list A) :
  fold_right Z.add 0%Z (map (fun _ => 1%Z) l) = Z.of_nat (length l).
Proof. induction l; cbn [map fold_right length]; lia. Qed.

Lemma summary_rows (d : usage_data) :
  List.NoDup (map fst d) ->
  get_summary d =
  let summary := map (fun mu => (fst mu, row_of d (fst mu) (snd mu))) d in
  dict_set "_TOTAL"
    {| s_input_tokens := Zsum (map (fun s => s_input_tokens (snd s)) summary);
       s_output_tokens := Zsum (map (fun s => s_output_tokens (snd s)) summary);
       s_total_tokens := Zsum (map (fun s => s_total_tokens (snd s)) summary);
       s_total_calls := Zsum (map (fun s => s_total_calls (snd s)) summary);
       s_total_cost :=
         py_round 4 (Rsum_left (map (fun s => s_total_cost (snd s)) summary)) |}
    summary.
Proof.
  intros H. unfold get_summary. cbv zeta.
  assert (E : fold_left
      (fun summary (mu : string * usage) =>
         let (model, usage) := mu in
         dict_set model
                {| s_input_tokens := input_tokens usage;
                   s_output_tokens := output_tokens usage;
                   s_total_tokens := input_tokens usage + output_tokens usage;
                   s_total_calls := total_calls usage;
                   s_total_cost := py_round 4 (get_cost d model) |} summary) d []
     = map (fun mu => (fst mu, row_of d (fst mu) (snd mu))) d).
  { change (map (fun mu => (fst mu, row_of d (fst mu) (snd mu))) d)
      with ([] ++ map (fun mu : string * usage =>
                         (fst mu, row_of d (fst mu) (snd mu))) d).
    rewrite <- (rows_of_distinct_keys
                  (fun mu => row_of d (fst mu) (snd mu)) d []) by exact H.
    apply fold_left_same. intros s [m u]. reflexivity. }
  rewrite E. reflexivity.
Qed.

Lemma lookup_rows {A B} (F : string -> A -> B) (d : dict A) key :
  dict_get key (map (fun mu => (fst mu, F (fst mu) (snd mu))) d) =
  option_map (F key) (dict_get key d).
Proof.
  induction d as [|[k u] d IH]; [reflexivity|]. cbn [map dict_get fst snd].
  destruct (String.eqb_spec k key) as [->|]; [reflexivity|exact IH].
Qed.

(** X25.  After any sequence of [track] calls on a new tracker, the _TOTAL
    row of [get_summary] has the sums of the input and of the output tokens
    of all calls, their sum as total_tokens and the number of calls as
    total_calls; its cost is the sum of the rounded costs of the models,
    rounded to four decimals.  Every other row is that of a tracked model,
    with total_tokens the sum of its two token counts. *)
Theorem summary_totals_count_every_call (cs : list call) :
  exists t,
    dict_get "_TOTAL" (get_summary (tracked cs)) = Some t /\
    s_input_tokens t = inputs cs /\
    s_output_tokens t = outputs cs /\
    s_total_tokens t = (inputs cs + outputs cs)%Z /\
    s_total_calls t = Z.of_nat (length cs) /\
    s_total_cost t = py_round 4 (Rsum_left (rounded_costs (tracked cs))) /\
    forall model, model <> "_TOTAL"%string ->
      dict_get model (get_summary (tracked cs)) =
      option_map (row_of (tracked cs) model) (usage_after model cs).
Proof.
  rewrite (summary_rows _ (NoDup_tracked cs)). cbv zeta.
  eexists. split; [rewrite lookup_assign; reflexivity|].
  cbn [s_input_tokens s_output_tokens s_total_tokens s_total_calls s_total_cost].
  rewrite !Zsum_fold_right, !map_map. cbn [snd row_of s_input_tokens
    s_output_tokens s_total_tokens s_total_calls s_total_cost].
  split.
  { apply (total_tracked input_tokens (fun c => fst (snd c))); reflexivity. }
  split.
  { apply (total_tracked output_tokens (fun c => snd (snd c))); reflexivity. }
  split.
  { unfold inputs, outputs.
    rewrite (total_tracked (fun u => (input_tokens u + output_tokens u)%Z)
               (fun c => (fst (snd c) + snd (snd c))%Z));
      [|reflexivity|intros; cbn [input_tokens output_tokens]; lia].
    clear. induction cs as [|c cs IH]; cbn [map fold_right] in *; lia. }
  split.
  { rewrite (total_tracked total_calls (fun _ => 1%Z)); [|reflexivity..].
    apply length_as_sum. }
  split; [reflexivity|].
  intros model Hm. rewrite lookup_assign.
  destruct (String.eqb_spec "_TOTAL" model) as [E|_]; [congruence|].
  rewrite <- lookup_tracked. apply lookup_rows.
Qed.

End CostProperties.
